(** * RAGE_Monad: the arena resolution and settlement engine

    A shallow embedding of the engine of [src/server.ts] (the socket server,
    lines 1-125, and the client's [processPayout], lines 230-265) and of the
    single-page prototype [src/unnamed/part_000] ([resolveArena] and
    [logActivity]).

    Conventions of the embedding.
    - A JavaScript [number] that holds an amount of MND (stakes, balances,
      payouts) is an exact rational of [Q]: the arithmetic is the one the
      source writes, the rounding of binary64, NaN and the infinities are not
      part of the model.  Equalities between computed amounts are therefore
      stated with [==].
    - A [number] that holds a time in milliseconds is an integer of [Z].
    - [Math.random] and the [Date.now] readings taken inside [logActivity] are
      answers of the environment: the [k]-th call of [logActivity] draws
      [mathRandom k] and [dateNow k].  The reading of [Date.now] at the top of
      a handler and a freshly drawn arena id are arguments of the handler.
    - [io.emit] and [socket.emit] append to the trace [emitted]. *)

From Stdlib Require Import List String ZArith QArith Bool Lia.
Import ListNotations.

Local Open Scope string_scope.
Local Open Scope Z_scope.

(* ================================================================== *)
(** * Data model *)
(* ================================================================== *)

(** [status: 'active' | 'resolved'] *)
Inductive Status : Type := active | resolved.

Definition Status_eqb (a b : Status) : bool :=
  match a, b with
  | active, active | resolved, resolved => true
  | _, _ => false
  end.

(** [type RoastEntry] *)
Module RoastEntry.
Record t : Type := mk {
  id : string;
  roasterId : string;
  roasterName : string;
  text : string;
  entryStake : Q;
  backedStake : Q;
  myBackedAmount : Q
}.

(** [{ ...roast, backedStake: v }] *)
Definition with_backedStake (r : t) (v : Q) : t :=
  {| id := id r; roasterId := roasterId r; roasterName := roasterName r;
     text := text r; entryStake := entryStake r; backedStake := v;
     myBackedAmount := myBackedAmount r |}.
End RoastEntry.

(** [type Arena]; the optional [winnerRoastId?] is an [option]. *)
Module Arena.
Record t : Type := mk {
  id : string;
  opId : string;
  opName : string;
  opHandle : string;
  opAvatar : string;
  text : string;
  stake : Q;
  endTime : Z;
  status : Status;
  winnerRoastId : option string;
  roasts : list RoastEntry.t
}.

(** [{ ...arena, status: 'resolved' }] *)
Definition with_resolved (a : t) : t :=
  {| id := id a; opId := opId a; opName := opName a; opHandle := opHandle a;
     opAvatar := opAvatar a; text := text a; stake := stake a;
     endTime := endTime a; status := resolved;
     winnerRoastId := winnerRoastId a; roasts := roasts a |}.

(** [{ ...arena, status: 'resolved', winnerRoastId: w }] *)
Definition with_winner (a : t) (w : string) : t :=
  {| id := id a; opId := opId a; opName := opName a; opHandle := opHandle a;
     opAvatar := opAvatar a; text := text a; stake := stake a;
     endTime := endTime a; status := resolved;
     winnerRoastId := Some w; roasts := roasts a |}.

(** [{ ...arena, roasts: rs }] *)
Definition with_roasts (a : t) (rs : list RoastEntry.t) : t :=
  {| id := id a; opId := opId a; opName := opName a; opHandle := opHandle a;
     opAvatar := opAvatar a; text := text a; stake := stake a;
     endTime := endTime a; status := status a;
     winnerRoastId := winnerRoastId a; roasts := rs |}.
End Arena.

(** [type ActivityLog] *)
Module ActivityLog.
Record t : Type := mk {
  id : string;
  message : string;
  timestamp : Z
}.
End ActivityLog.

(** [type UserAccount] *)
Module UserAccount.
Record t : Type := mk {
  id : string;
  name : string;
  handle : string;
  avatar : string;
  balance : Q
}.

(** [{ ...prev, balance: v }] *)
Definition with_balance (u : t) (v : Q) : t :=
  {| id := id u; name := name u; handle := handle u; avatar := avatar u;
     balance := v |}.
End UserAccount.

(** The payload of ['create-arena'] as the handler reads it.  The handler
    spreads the payload into the new arena and overrides [id], [stake],
    [endTime], [status] and [roasts] (lines 74-81): of the properties of an
    arena, the payload determines the five that [handleCreateArena] sends
    and, when it carries one, the [winnerRoastId], which the handler does
    not override. *)
Module ArenaData.
Record t : Type := mk {
  opId : string;
  opName : string;
  opHandle : string;
  opAvatar : string;
  text : string;
  winnerRoastId : option string
}.
End ArenaData.

(* ================================================================== *)
(** * The JavaScript operations the engine uses *)
(* ================================================================== *)

Module Js.
(** [x > y] on amounts. *)
Definition gt (x y : Q) : bool := negb (Qle_bool x y).

(** [a !== b] on strings. *)
Definition strict_ne (a b : string) : bool := negb (String.eqb a b).

(** [[first, ...rest].reduce(f)] without an initial value: the accumulator
    starts at the first element and [f] is applied to the others from left
    to right. *)
Definition reduce {A : Type} (f : A -> A -> A) (first : A) (rest : list A) : A :=
  fold_left f rest first.

(** [l.slice(0, n)] *)
Definition slice0 {A : Type} (n : nat) (l : list A) : list A := firstn n l.

(** [!s] for an optional string: [undefined] and the empty string are falsy. *)
Definition falsy (s : option string) : bool :=
  match s with
  | None => true
  | Some v => String.eqb v ""
  end.
End Js.

(** The reducer of the winner selection:
    [(prev, current) => (current.backedStake > prev.backedStake) ? current : prev] *)
Definition pickWinner (prev current : RoastEntry.t) : RoastEntry.t :=
  if Js.gt (RoastEntry.backedStake current) (RoastEntry.backedStake prev)
  then current else prev.

(** [roasts.filter(r => r.id !== winner.id).reduce((sum, r) => sum + r.backedStake, 0)] *)
Definition losingBackingPool (roasts : list RoastEntry.t) (winner : RoastEntry.t) : Q :=
  fold_left (fun sum r => (sum + RoastEntry.backedStake r)%Q)
    (filter (fun r => Js.strict_ne (RoastEntry.id r) (RoastEntry.id winner)) roasts)
    0%Q.

(* ================================================================== *)
(** * The server ([src/server.ts], lines 1-125) *)
(* ================================================================== *)

Module Server.

Inductive Message : Type :=
| StateUpdate (arenas : list Arena.t)       (* ['state-update'] *)
| ActivityUpdate (log : ActivityLog.t).     (* ['activity-update'] *)

Inductive Emit : Type :=
| IoEmit (m : Message)                      (* [io.emit]: to every client *)
| SocketEmit (m : Message).                 (* [socket.emit]: to one client *)

(** "The God State": [arenas] and [activityLog], with the trace of what was
    emitted and the number of [logActivity] calls made so far. *)
Record t : Type := mk {
  arenas : list Arena.t;
  activityLog : list ActivityLog.t;
  emitted : list Emit;
  logged : nat
}.

Definition init : t :=
  {| arenas := []; activityLog := []; emitted := []; logged := 0 |}.

Definition emit (e : Emit) (s : t) : t :=
  {| arenas := arenas s; activityLog := activityLog s;
     emitted := (emitted s ++ [e])%list; logged := logged s |}.

Definition set_arenas (l : list Arena.t) (s : t) : t :=
  {| arenas := l; activityLog := activityLog s;
     emitted := emitted s; logged := logged s |}.

(** The commands a run of the server is made of: the interval callback and
    the socket handlers, each with the answers of its environment. *)
Inductive Command : Type :=
| Tick (now : Z)
| Connection
| Join (userHandle : string)
| CreateArena (arenaData : ArenaData.t) (newId : string) (now : Z)
| SubmitRoast (arenaId : string) (roastData : RoastEntry.t)
| StakeRoast (arenaId roastId : string) (amount : Q) (userHandle : string).

Section Environment.

(** [Math.random().toString()] and [Date.now()] of the [k]-th call of
    [logActivity]; the rendering of a number in a template string. *)
Variable mathRandom : nat -> string.
Variable dateNow : nat -> Z.
Variable numToString : Q -> string.

(** [logActivity], lines 55-59. *)
Definition logActivity (msg : string) (s : t) : t :=
  let log := {| ActivityLog.id := mathRandom (logged s);
                ActivityLog.message := msg;
                ActivityLog.timestamp := dateNow (logged s) |} in
  {| arenas := arenas s;
     activityLog := Js.slice0 15 (log :: activityLog s);
     emitted := (emitted s ++ [IoEmit (ActivityUpdate log)])%list;
     logged := S (logged s) |}.

(** The entry the next call of [logActivity] creates in state [s]. *)
Definition nextLog (msg : string) (s : t) : ActivityLog.t :=
  {| ActivityLog.id := mathRandom (logged s);
     ActivityLog.message := msg;
     ActivityLog.timestamp := dateNow (logged s) |}.

(** The entries that logging the messages [msgs] creates, oldest first,
    when [k] entries were created before. *)
Fixpoint newLogs (k : nat) (msgs : list string) : list ActivityLog.t :=
  match msgs with
  | [] => []
  | msg :: msgs' =>
      {| ActivityLog.id := mathRandom k;
         ActivityLog.message := msg;
         ActivityLog.timestamp := dateNow k |} :: newLogs (S k) msgs'
  end.

(** The state after logging the messages [msgs] one after the other. *)
Definition logAll (msgs : list string) (s : t) : t :=
  fold_left (fun st msg => logActivity msg st) msgs s.

(** The callback of [arenas.map] in the interval, lines 27-48; [didUpdate]
    is the flag of line 26. *)
Definition resolveDue (now : Z) (arena : Arena.t) (s : t) (didUpdate : bool)
  : Arena.t * t * bool :=
  if Status_eqb (Arena.status arena) active && (Arena.endTime arena <=? now)
  then
    match Arena.roasts arena with
    | [] =>
        (Arena.with_resolved arena,
         logActivity ("Arena by " ++ Arena.opHandle arena
                      ++ " closed with no roasts.") s,
         true)
    | first :: rest =>
        let winner := Js.reduce pickWinner first rest in
        (Arena.with_winner arena (RoastEntry.id winner),
         logActivity ("🔥 ROAST WARS ENDED: " ++ RoastEntry.roasterName winner
                      ++ " won the pool! 🔥") s,
         true)
    end
  else (arena, s, didUpdate).

(** [arenas.map(callback)], the callback run on the elements from left to
    right. *)
Fixpoint tickMap (now : Z) (l : list Arena.t) (s : t) (didUpdate : bool)
  : list Arena.t * t * bool :=
  match l with
  | [] => ([], s, didUpdate)
  | arena :: l' =>
      let '(arena', s1, d1) := resolveDue now arena s didUpdate in
      let '(l'', s2, d2) := tickMap now l' s1 d1 in
      (arena' :: l'', s2, d2)
  end.

(** The interval callback, lines 22-53. *)
Definition tick (now : Z) (s : t) : t :=
  let '(arenas', s1, didUpdate) := tickMap now (arenas s) s false in
  let s2 := set_arenas arenas' s1 in
  if didUpdate then emit (IoEmit (StateUpdate (arenas s2))) s2 else s2.

(** [io.on('connection')], lines 64-67. *)
Definition on_connection (s : t) : t :=
  fold_left (fun st log => emit (SocketEmit (ActivityUpdate log)) st)
    (Js.slice0 10 (activityLog s))
    (emit (SocketEmit (StateUpdate (arenas s))) s).

(** ['join'], lines 69-71. *)
Definition on_join (userHandle : string) (s : t) : t :=
  logActivity (userHandle ++ " joined the room.") s.

(** ['create-arena'], lines 73-85. *)
Definition on_create_arena (arenaData : ArenaData.t) (newId : string) (now : Z)
    (s : t) : t :=
  let newArena :=
    {| Arena.id := newId;
       Arena.opId := ArenaData.opId arenaData;
       Arena.opName := ArenaData.opName arenaData;
       Arena.opHandle := ArenaData.opHandle arenaData;
       Arena.opAvatar := ArenaData.opAvatar arenaData;
       Arena.text := ArenaData.text arenaData;
       Arena.stake := 0.05%Q;
       Arena.endTime := now + 5 * 60 * 1000;
       Arena.status := active;
       Arena.winnerRoastId := ArenaData.winnerRoastId arenaData;
       Arena.roasts := [] |} in
  let s1 := set_arenas (newArena :: arenas s) s in
  let s2 := logActivity (Arena.opHandle newArena ++ " dropped a new Ragebait!") s1 in
  emit (IoEmit (StateUpdate (arenas s2))) s2.

(** The callback of [arenas.map] in ['submit-roast'], lines 88-94. *)
Definition submitTo (arenaId : string) (roastData : RoastEntry.t)
    (arena : Arena.t) : Arena.t :=
  if Js.strict_ne (Arena.id arena) arenaId then arena
  else Arena.with_roasts arena (Arena.roasts arena ++ [roastData])%list.

(** ['submit-roast'], lines 87-97. *)
Definition on_submit_roast (arenaId : string) (roastData : RoastEntry.t)
    (s : t) : t :=
  let s1 := set_arenas (map (submitTo arenaId roastData) (arenas s)) s in
  let s2 := logActivity (RoastEntry.roasterName roastData
                         ++ " entered the arena with a roast.") s1 in
  emit (IoEmit (StateUpdate (arenas s2))) s2.

(** The callback of [arena.roasts.map] in ['stake-roast'], lines 104-110. *)
Definition stakeOn (roastId : string) (amount : Q) (roast : RoastEntry.t)
  : RoastEntry.t :=
  if Js.strict_ne (RoastEntry.id roast) roastId then roast
  else RoastEntry.with_backedStake roast (RoastEntry.backedStake roast + amount)%Q.

(** The callback of [arenas.map] in ['stake-roast'], lines 100-112. *)
Definition stakeIn (arenaId roastId : string) (amount : Q) (arena : Arena.t)
  : Arena.t :=
  if Js.strict_ne (Arena.id arena) arenaId then arena
  else Arena.with_roasts arena (map (stakeOn roastId amount) (Arena.roasts arena)).

(** ['stake-roast'], lines 99-115. *)
Definition on_stake_roast (arenaId roastId : string) (amount : Q)
    (userHandle : string) (s : t) : t :=
  let s1 := set_arenas (map (stakeIn arenaId roastId amount) (arenas s)) s in
  let s2 := logActivity (userHandle ++ " staked " ++ numToString amount
                         ++ " MND on a roast!") s1 in
  emit (IoEmit (StateUpdate (arenas s2))) s2.

Definition step (s : t) (c : Command) : t :=
  match c with
  | Tick now => tick now s
  | Connection => on_connection s
  | Join userHandle => on_join userHandle s
  | CreateArena arenaData newId now => on_create_arena arenaData newId now s
  | SubmitRoast arenaId roastData => on_submit_roast arenaId roastData s
  | StakeRoast arenaId roastId amount userHandle =>
      on_stake_roast arenaId roastId amount userHandle s
  end.

(** The commands of a run, in their order of arrival. *)
Definition run (cs : list Command) (s : t) : t := fold_left step cs s.

End Environment.
End Server.

(* ================================================================== *)
(** * The client's settlement ([src/server.ts], lines 230-265) *)
(* ================================================================== *)

Module Client.

(** The value of the local [payout] when line 262 is reached; [None] when
    [processPayout] takes one of the early returns of lines 231 and 234. *)
Definition payoutOf (currentUser : option UserAccount.t) (arena : Arena.t)
  : option Q :=
  match currentUser with
  | None => None
  | Some user =>
      if (List.length (Arena.roasts arena) =? 0)%nat || Js.falsy (Arena.winnerRoastId arena)
      then None
      else
        match Arena.winnerRoastId arena with
        | None => None
        | Some winnerRoastId =>
            match find (fun r => String.eqb (RoastEntry.id r) winnerRoastId)
                       (Arena.roasts arena) with
            | None => None
            | Some winner =>
                let losingBackingPool := losingBackingPool (Arena.roasts arena) winner in
                let winnerBackingPool := RoastEntry.backedStake winner in
                let payout := 0%Q in
                (* 1. Did user back the winner? *)
                let payout :=
                  if Js.gt (RoastEntry.myBackedAmount winner) 0
                     && Js.gt winnerBackingPool 0
                  then
                    let userShareRatio :=
                      (RoastEntry.myBackedAmount winner / winnerBackingPool)%Q in
                    let profit := (userShareRatio * (0.9 * losingBackingPool))%Q in
                    (payout + (RoastEntry.myBackedAmount winner + profit))%Q
                  else payout in
                (* 2. Is user winning roaster? *)
                let payout :=
                  if String.eqb (RoastEntry.roasterId winner) (UserAccount.id user)
                  then
                    (payout + ((0.7 * Arena.stake arena)
                               + (0.7 * inject_Z (Z.of_nat (List.length (Arena.roasts arena)) - 1)
                                  * 0.01)))%Q
                  else payout in
                (* 3. Is user the OP? *)
                let payout :=
                  if String.eqb (Arena.opId arena) (UserAccount.id user)
                  then (payout + 0.05 * (losingBackingPool + winnerBackingPool))%Q
                  else payout in
                Some payout
            end
        end
  end.

(** [processPayout]: [currentUser] is the value the callback closes over,
    [prev] the state that [setCurrentUser] updates. *)
Definition processPayout (currentUser : option UserAccount.t) (arena : Arena.t)
    (prev : option UserAccount.t) : option UserAccount.t :=
  match payoutOf currentUser arena with
  | None => prev
  | Some payout =>
      if Js.gt payout 0
      then match prev with
           | Some u => Some (UserAccount.with_balance u (UserAccount.balance u + payout)%Q)
           | None => None
           end
      else prev
  end.

End Client.

(* ================================================================== *)
(** * The single-page prototype ([src/unnamed/part_000]) *)
(* ================================================================== *)

Module Prototype.

(** The React state [resolveArena] writes: [currentUser] and
    [activityFeed], with the number of [logActivity] calls made so far. *)
Record t : Type := mk {
  currentUser : option UserAccount.t;
  activityFeed : list ActivityLog.t;
  logged : nat
}.

Section Environment.

Variable mathRandom : nat -> string.
Variable dateNow : nat -> Z.

(** [logActivity], lines 142-144. *)
Definition logActivity (msg : string) (s : t) : t :=
  let log := {| ActivityLog.id := mathRandom (logged s);
                ActivityLog.message := msg;
                ActivityLog.timestamp := dateNow (logged s) |} in
  {| currentUser := currentUser s;
     activityFeed := Js.slice0 10 (log :: activityFeed s);
     logged := S (logged s) |}.

(** The value of [payout] at line 134, for the user of line 112. *)
Definition payoutOf (user : UserAccount.t) (arena : Arena.t)
    (winner : RoastEntry.t) : Q :=
  let losingBackingPool := losingBackingPool (Arena.roasts arena) winner in
  let winnerBackingPool := RoastEntry.backedStake winner in
  let payout := 0%Q in
  (* 1. Did the user back the winning roast? *)
  let payout :=
    if Js.gt (RoastEntry.myBackedAmount winner) 0 && Js.gt winnerBackingPool 0
    then
      let userShareRatio :=
        (RoastEntry.myBackedAmount winner / winnerBackingPool)%Q in
      let profit := (userShareRatio * (0.9 * losingBackingPool))%Q in
      (payout + (RoastEntry.myBackedAmount winner + profit))%Q
    else payout in
  (* 2. Is the user the winning roaster? *)
  let payout :=
    if String.eqb (RoastEntry.roasterId winner) (UserAccount.id user)
    then
      let roasterReward :=
        ((0.7 * Arena.stake arena)
         + (0.7 * inject_Z (Z.of_nat (List.length (Arena.roasts arena)) - 1) * 0.01))%Q in
      (payout + roasterReward)%Q
    else payout in
  (* 3. Is the user the OP? *)
  let payout :=
    if String.eqb (Arena.opId arena) (UserAccount.id user)
    then
      let opReward := (0.05 * (losingBackingPool + winnerBackingPool))%Q in
      (payout + opReward)%Q
    else payout in
  payout.

(** [setCurrentUser(prev => prev ? { ...prev, balance: prev.balance + payout } : null)] *)
Definition credit (payout : Q) (s : t) : t :=
  {| currentUser :=
       match currentUser s with
       | Some u => Some (UserAccount.with_balance u (UserAccount.balance u + payout)%Q)
       | None => None
       end;
     activityFeed := activityFeed s;
     logged := logged s |}.

(** [resolveArena], lines 93-140; [user] is the [currentUser] the
    function closes over. *)
Definition resolveArena (user : option UserAccount.t) (arena : Arena.t) (s : t)
  : Arena.t * t :=
  match Arena.roasts arena with
  | [] =>
      (Arena.with_resolved arena,
       logActivity ("Arena by " ++ Arena.opHandle arena
                    ++ " closed with no roasts.") s)
  | first :: rest =>
      let winner := Js.reduce pickWinner first rest in
      let s1 := logActivity ("🔥 ROAST WARS ENDED: " ++ RoastEntry.roasterName winner
                             ++ " won the pool! 🔥") s in
      let s2 :=
        match user with
        | Some u =>
            let payout := payoutOf u arena winner in
            if Js.gt payout 0 then credit payout s1 else s1
        | None => s1
        end in
      (Arena.with_winner arena (RoastEntry.id winner), s2)
  end.

(** The callback of [prevArenas.map] in the engine tick, lines 82-87. *)
Definition tickArena (now : Z) (user : option UserAccount.t) (arena : Arena.t)
    (s : t) : Arena.t * t :=
  if Status_eqb (Arena.status arena) active && (Arena.endTime arena <=? now)
  then resolveArena user arena s
  else (arena, s).

End Environment.
End Prototype.

(* ================================================================== *)
(** * Notions used to state the properties *)
(* ================================================================== *)

(** The guard of the interval callback:
    [arena.status === 'active' && arena.endTime <= now]. *)
Definition due (now : Z) (arena : Arena.t) : bool :=
  Status_eqb (Arena.status arena) active && (Arena.endTime arena <=? now).

(** The arena the resolution returns for [arena]. *)
Definition settled (arena : Arena.t) : Arena.t :=
  match Arena.roasts arena with
  | [] => Arena.with_resolved arena
  | first :: rest =>
      Arena.with_winner arena (RoastEntry.id (Js.reduce pickWinner first rest))
  end.

(** The arena a tick at [now] leaves in the place of [arena]. *)
Definition afterTick (now : Z) (arena : Arena.t) : Arena.t :=
  if due now arena then settled arena else arena.

(** The message the resolution logs for [arena]. *)
Definition closingMessage (arena : Arena.t) : string :=
  match Arena.roasts arena with
  | [] => "Arena by " ++ Arena.opHandle arena ++ " closed with no roasts."
  | first :: rest =>
      "🔥 ROAST WARS ENDED: "
      ++ RoastEntry.roasterName (Js.reduce pickWinner first rest)
      ++ " won the pool! 🔥"
  end.

(** [w] is the earliest entry of [l] whose backed stake is maximal: every
    entry before it is backed strictly less, none after it is backed more. *)
Definition firstMaximal (w : RoastEntry.t) (l : list RoastEntry.t) : Prop :=
  exists before after : list RoastEntry.t,
    l = (before ++ w :: after)%list
    /\ Forall (fun r => (RoastEntry.backedStake r < RoastEntry.backedStake w)%Q) before
    /\ Forall (fun r => (RoastEntry.backedStake r <= RoastEntry.backedStake w)%Q) after.

(** The lookup of the winner by the client, line 233:
    [arena.roasts.find(r => r.id === arena.winnerRoastId)]. *)
Definition findRoast (roastId : string) (l : list RoastEntry.t) : option RoastEntry.t :=
  find (fun r => String.eqb (RoastEntry.id r) roastId) l.

(** [a'] is [a] up to its status and its winner. *)
Definition sameButOutcome (a a' : Arena.t) : Prop :=
  Arena.id a' = Arena.id a
  /\ Arena.opId a' = Arena.opId a
  /\ Arena.opName a' = Arena.opName a
  /\ Arena.opHandle a' = Arena.opHandle a
  /\ Arena.opAvatar a' = Arena.opAvatar a
  /\ Arena.text a' = Arena.text a
  /\ Arena.stake a' = Arena.stake a
  /\ Arena.endTime a' = Arena.endTime a
  /\ Arena.roasts a' = Arena.roasts a.

(** [a'] is [a] up to its entries. *)
Definition sameButRoasts (a a' : Arena.t) : Prop :=
  Arena.id a' = Arena.id a
  /\ Arena.opId a' = Arena.opId a
  /\ Arena.opName a' = Arena.opName a
  /\ Arena.opHandle a' = Arena.opHandle a
  /\ Arena.opAvatar a' = Arena.opAvatar a
  /\ Arena.text a' = Arena.text a
  /\ Arena.stake a' = Arena.stake a
  /\ Arena.endTime a' = Arena.endTime a
  /\ Arena.status a' = Arena.status a
  /\ Arena.winnerRoastId a' = Arena.winnerRoastId a.

(** The arena collections broadcast to every client in a piece of trace. *)
Fixpoint stateBroadcasts (out : list Server.Emit) : list (list Arena.t) :=
  match out with
  | [] => []
  | Server.IoEmit (Server.StateUpdate l) :: out' => l :: stateBroadcasts out'
  | _ :: out' => stateBroadcasts out'
  end.

(** The activity entries broadcast to every client in a piece of trace. *)
Fixpoint activityBroadcasts (out : list Server.Emit) : list ActivityLog.t :=
  match out with
  | [] => []
  | Server.IoEmit (Server.ActivityUpdate log) :: out' => log :: activityBroadcasts out'
  | _ :: out' => activityBroadcasts out'
  end.

(** The [k]-th arena in order of creation: ['create-arena'] adds at the front,
    so an arena keeps its position counted from the back. *)
Definition arenaAt (k : nat) (s : Server.t) : option Arena.t :=
  nth_error (rev (Server.arenas s)) k.

(** What an arena may become in a run of the server: its identity, its
    deadline and the fields of its creation stay, and a resolved arena stays
    resolved with the winner it has. *)
Definition evolves (a a' : Arena.t) : Prop :=
  Arena.id a' = Arena.id a
  /\ Arena.endTime a' = Arena.endTime a
  /\ (Arena.status a = resolved ->
      Arena.status a' = resolved /\ Arena.winnerRoastId a' = Arena.winnerRoastId a).

(** An arena that is still active has no winner. *)
Definition activeUnsettled (a : Arena.t) : Prop :=
  Arena.status a = active -> Arena.winnerRoastId a = None.

(** The payload of a ['create-arena'] command carries no [winnerRoastId], as
    the payload of [handleCreateArena] carries none. *)
Definition createsUnsettled (c : Server.Command) : Prop :=
  match c with
  | Server.CreateArena arenaData _ _ => ArenaData.winnerRoastId arenaData = None
  | _ => True
  end.

(** The [winnerRoastId] of [a] is the id of the earliest entry of [a] whose
    backed stake is maximal. *)
Definition winnerIsBest (a : Arena.t) : Prop :=
  exists w : RoastEntry.t,
    Arena.winnerRoastId a = Some (RoastEntry.id w)
    /\ firstMaximal w (Arena.roasts a).

(** What the specification asks of a resolved arena that has an entry. *)
Definition resolvedWinnerIsBest (a : Arena.t) : Prop :=
  Arena.status a = resolved -> Arena.roasts a <> [] -> winnerIsBest a.

(** A ['submit-roast'] or ['stake-roast'] command is aimed at arenas that are
    still active: every arena of the store with the id it names is. *)
Definition targetsActive (c : Server.Command) (s : Server.t) : Prop :=
  match c with
  | Server.SubmitRoast arenaId _ | Server.StakeRoast arenaId _ _ _ =>
      Forall (fun a => Arena.id a = arenaId -> Arena.status a = active)
             (Server.arenas s)
  | _ => True
  end.

Section RunNotions.

Variable mathRandom : nat -> string.
Variable dateNow : nat -> Z.
Variable numToString : Q -> string.

(** In the run [cs] from [s] no entry and no stake is sent to an arena that
    is resolved when the command arrives. *)
Fixpoint leavesResolvedAlone (cs : list Server.Command) (s : Server.t) : Prop :=
  match cs with
  | [] => True
  | c :: cs' =>
      targetsActive c s
      /\ leavesResolvedAlone cs' (Server.step mathRandom dateNow numToString s c)
  end.

End RunNotions.

(** The condition under which the client view renders the controls of
    [handleStakeOnRoast] and [handleSubmitRoast]:
    [activeArena.status === 'active' && (...)], lines 550 and 562. *)
Definition offersControls (activeArena : Arena.t) : bool :=
  Status_eqb (Arena.status activeArena) active.

(** The share of a backer as the specification writes it:
    [c_b + (c_b / W) * 0.9 * L]. *)
Definition backerShare (c W L : Q) : Q := (c + (c / W) * 0.9 * L)%Q.

(** The reward of the winning roaster, lines 254 and 124. *)
Definition roasterReward (arena : Arena.t) : Q :=
  ((0.7 * Arena.stake arena)
   + (0.7 * inject_Z (Z.of_nat (List.length (Arena.roasts arena)) - 1) * 0.01))%Q.

(** The reward of the original poster, lines 259 and 130. *)
Definition opReward (L W : Q) : Q := (0.05 * (L + W))%Q.

(** ** Sample data *)

(** The entries of [MOCK_ARENAS] ([src/unnamed/part_000], lines 44-60); the
    user of the example backed the whole pool of the first one. *)
Definition r1 : RoastEntry.t :=
  {| RoastEntry.id := "r1"; RoastEntry.roasterId := "u2";
     RoastEntry.roasterName := "Sankalp"; RoastEntry.text := "Skill issue bro.";
     RoastEntry.entryStake := 0.01%Q; RoastEntry.backedStake := 0.07%Q;
     RoastEntry.myBackedAmount := 0.07%Q |}.

Definition r2 : RoastEntry.t :=
  {| RoastEntry.id := "r2"; RoastEntry.roasterId := "u3";
     RoastEntry.roasterName := "Aman";
     RoastEntry.text := "Bro writes require() and feels powerful.";
     RoastEntry.entryStake := 0.01%Q; RoastEntry.backedStake := 0.04%Q;
     RoastEntry.myBackedAmount := 0%Q |}.

Definition mockArena (endTime : Z) (roasts : list RoastEntry.t) : Arena.t :=
  {| Arena.id := "a1"; Arena.opId := "u1"; Arena.opName := "DuveshTheDev";
     Arena.opHandle := "@duvesh_dev"; Arena.opAvatar := "D";
     Arena.text := "I use ChatGPT for every API call. Documentation is for boomers.";
     Arena.stake := 0.05%Q; Arena.endTime := endTime; Arena.status := active;
     Arena.winnerRoastId := None; Arena.roasts := roasts |}.

(** A user who is neither the poster nor a roaster of [mockArena]. *)
Definition backer : UserAccount.t :=
  {| UserAccount.id := "dev_7"; UserAccount.name := "Bea";
     UserAccount.handle := "@bea"; UserAccount.avatar := "B";
     UserAccount.balance := 10%Q |}.

(** The second entry of the mock arena, backed as much as the first. *)
Definition r2tied : RoastEntry.t := RoastEntry.with_backedStake r2 0.07%Q.

(** The payload that creates the mock arena. *)
Definition mockData : ArenaData.t :=
  {| ArenaData.opId := "u1"; ArenaData.opName := "DuveshTheDev";
     ArenaData.opHandle := "@duvesh_dev"; ArenaData.opAvatar := "D";
     ArenaData.text := "I use ChatGPT for every API call. Documentation is for boomers.";
     ArenaData.winnerRoastId := None |}.


(** A server state that holds the given arenas and has logged nothing. *)
Definition serverWith (arenas : list Arena.t) : Server.t :=
  {| Server.arenas := arenas; Server.activityLog := []; Server.emitted := [];
     Server.logged := 0 |}.

(** An environment for the examples. *)
Definition sampleRandom (k : nat) : string := "0.5".
Definition sampleNow (k : nat) : Z := 1000.
Definition sampleNumToString (q : Q) : string := "0.05".

(* ================================================================== *)
(** * Further notions: the server across a run *)
(* ================================================================== *)

(** The number of ['create-arena'] commands in a run. *)
Fixpoint createCount (cs : list Server.Command) : nat :=
  match cs with
  | [] => 0
  | Server.CreateArena _ _ _ :: cs' => S (createCount cs')
  | _ :: cs' => createCount cs'
  end.

(** [r'] is [r] up to its backed stake. *)
Definition sameButBacked (r r' : RoastEntry.t) : Prop :=
  RoastEntry.id r' = RoastEntry.id r
  /\ RoastEntry.roasterId r' = RoastEntry.roasterId r
  /\ RoastEntry.roasterName r' = RoastEntry.roasterName r
  /\ RoastEntry.text r' = RoastEntry.text r
  /\ RoastEntry.entryStake r' = RoastEntry.entryStake r
  /\ RoastEntry.myBackedAmount r' = RoastEntry.myBackedAmount r.

(** [l'] is [l], each entry up to its backed stake, with entries added at the
    end. *)
Definition extends (l l' : list RoastEntry.t) : Prop :=
  exists kept added : list RoastEntry.t,
    l' = (kept ++ added)%list /\ Forall2 sameButBacked l kept.

(** [a'] is [a] with the fields of its creation and an extended entry list. *)
Definition persists (a a' : Arena.t) : Prop :=
  Arena.id a' = Arena.id a
  /\ Arena.opId a' = Arena.opId a
  /\ Arena.opName a' = Arena.opName a
  /\ Arena.opHandle a' = Arena.opHandle a
  /\ Arena.opAvatar a' = Arena.opAvatar a
  /\ Arena.text a' = Arena.text a
  /\ Arena.stake a' = Arena.stake a
  /\ Arena.endTime a' = Arena.endTime a
  /\ extends (Arena.roasts a) (Arena.roasts a').

(** The winner of [a], when it has one, is the id of one of its entries. *)
Definition winnerKnown (a : Arena.t) : Prop :=
  forall w, Arena.winnerRoastId a = Some w ->
            exists r, In r (Arena.roasts a) /\ RoastEntry.id r = w.

(** The sum of the backed stakes of a list of entries. *)
Definition totalBacked (l : list RoastEntry.t) : Q :=
  fold_left (fun sum r => (sum + RoastEntry.backedStake r)%Q) l 0%Q.

(** The pool the view shows for an arena ("Arena Pool (TLV)", line 575):
    [arena.stake + arena.roasts.reduce((acc, r) => acc + r.entryStake + r.backedStake, 0)]. *)
Definition arenaPool (arena : Arena.t) : Q :=
  (Arena.stake arena
   + fold_left (fun acc r => (acc + RoastEntry.entryStake r + RoastEntry.backedStake r)%Q)
       (Arena.roasts arena) 0%Q)%Q.

(** The number of entries of [l] with the id [roastId]. *)
Definition countId (roastId : string) (l : list RoastEntry.t) : nat :=
  List.length (filter (fun r => String.eqb (RoastEntry.id r) roastId) l).

(** The entry a ['submit-roast'] command carries was never backed by the
    sender, as in the payload of [handleSubmitRoast]. *)
Definition submitsUnbacked (c : Server.Command) : Prop :=
  match c with
  | Server.SubmitRoast _ roastData => (RoastEntry.myBackedAmount roastData == 0)%Q
  | _ => True
  end.

(** The arena collection of the last broadcast is the one of the store. *)
Definition toldArenas (s : Server.t) : Prop :=
  last (stateBroadcasts (Server.emitted s)) [] = Server.arenas s.

(** The activity log is the 15 newest of the entries broadcast so far, newest
    first, and every entry created was broadcast. *)
Definition logIsRecent (s : Server.t) : Prop :=
  Server.activityLog s = firstn 15 (rev (activityBroadcasts (Server.emitted s)))
  /\ Server.logged s = List.length (activityBroadcasts (Server.emitted s)).

(** No entry of [a] records a backing of the user who looks at it. *)
Definition unbacked (a : Arena.t) : Prop :=
  Forall (fun r => (RoastEntry.myBackedAmount r == 0)%Q) (Arena.roasts a).

(* ================================================================== *)
(** * The client application ([src/server.ts], lines 174-342) *)
(* ================================================================== *)

Module App.

(** What the client sends to the server with [socket.emit]. *)
Inductive Outgoing : Type :=
| EmitJoin (userHandle : string)
| EmitCreateArena (arenaData : ArenaData.t)
| EmitStakeRoast (arenaId roastId : string) (amount : Q) (userHandle : string)
| EmitSubmitRoast (arenaId : string) (roastData : RoastEntry.t).

(** The state of the component: the React state variables the handlers use,
    the reference [prevArenasRef], and what the handlers have sent to the
    server and shown with [alert] so far. *)
Record t : Type := mk {
  currentUser : option UserAccount.t;
  arenas : list Arena.t;
  prevArenas : list Arena.t;
  activityFeed : list ActivityLog.t;
  authName : string;
  authHandle : string;
  newArenaText : string;
  newRoastText : string;
  sent : list Outgoing;
  alerts : list string
}.

Definition init : t :=
  {| currentUser := None; arenas := []; prevArenas := []; activityFeed := [];
     authName := ""; authHandle := ""; newArenaText := ""; newRoastText := "";
     sent := []; alerts := [] |}.

(** [x < y] on amounts. *)
Definition lt (x y : Q) : bool := negb (Qle_bool y x).

(** [{ ...r, myBackedAmount: v }] *)
Definition with_myBackedAmount (r : RoastEntry.t) (v : Q) : RoastEntry.t :=
  {| RoastEntry.id := RoastEntry.id r; RoastEntry.roasterId := RoastEntry.roasterId r;
     RoastEntry.roasterName := RoastEntry.roasterName r;
     RoastEntry.text := RoastEntry.text r;
     RoastEntry.entryStake := RoastEntry.entryStake r;
     RoastEntry.backedStake := RoastEntry.backedStake r;
     RoastEntry.myBackedAmount := v |}.

(** The events the component reacts to: the two messages of the server, the
    edits of the four form fields, and the four actions; [Login] and
    [SubmitRoastClick] carry what [Math.random] yields in them. *)
Inductive Event : Type :=
| StateUpdate (serverArenas : list Arena.t)
| ActivityUpdate (log : ActivityLog.t)
| SetAuthName (v : string)
| SetAuthHandle (v : string)
| SetNewArenaText (v : string)
| SetNewRoastText (v : string)
| Login (randomDigits : string)
| CreateArenaClick
| StakeClick (arenaId roastId : string)
| SubmitRoastClick (arenaId newId : string).

Section Environment.

(** [String.prototype.trim] and [String.prototype.toUpperCase]. *)
Variable trim : string -> string.
Variable toUpperCase : string -> string.

(** The test of the ['state-update'] handler, lines 205-207: the arena was
    active in the previous collection and is resolved in the new one. *)
Definition justResolved (prevArenas : list Arena.t) (arena : Arena.t) : bool :=
  match find (fun a => String.eqb (Arena.id a) (Arena.id arena)) prevArenas with
  | Some oldArena =>
      Status_eqb (Arena.status oldArena) active
      && Status_eqb (Arena.status arena) resolved
  | None => false
  end.

(** The ['state-update'] handler, lines 199-213. *)
Definition on_state_update (serverArenas : list Arena.t) (c : t) : t :=
  let user :=
    match currentUser c with
    | Some _ =>
        fold_left
          (fun prev arena =>
             if justResolved (prevArenas c) arena
             then Client.processPayout (currentUser c) arena prev
             else prev)
          serverArenas (currentUser c)
    | None => currentUser c
    end in
  {| currentUser := user; arenas := serverArenas; prevArenas := serverArenas;
     activityFeed := activityFeed c;
     authName := authName c; authHandle := authHandle c;
     newArenaText := newArenaText c; newRoastText := newRoastText c;
     sent := sent c; alerts := alerts c |}.

(** The updater of the ['activity-update'] handler, lines 216-220. *)
Definition pushActivity (log : ActivityLog.t) (prev : list ActivityLog.t)
  : list ActivityLog.t :=
  match find (fun p => String.eqb (ActivityLog.id p) (ActivityLog.id log)) prev with
  | Some _ => prev
  | None => Js.slice0 10 (log :: prev)
  end.

(** The ['activity-update'] handler, lines 215-221. *)
Definition on_activity_update (log : ActivityLog.t) (c : t) : t :=
  {| currentUser := currentUser c; arenas := arenas c; prevArenas := prevArenas c;
     activityFeed := pushActivity log (activityFeed c);
     authName := authName c; authHandle := authHandle c;
     newArenaText := newArenaText c; newRoastText := newRoastText c;
     sent := sent c; alerts := alerts c |}.

(** [authHandle.startsWith('@') ? authHandle : `@${authHandle}`], line 271. *)
Definition cleanHandle (authHandle : string) : string :=
  if String.prefix "@" authHandle then authHandle else "@" ++ authHandle.

(** [handleLogin], lines 268-281. *)
Definition handleLogin (randomDigits : string) (c : t) : t :=
  if String.eqb (authName c) "" || String.eqb (authHandle c) "" then c
  else
    {| currentUser :=
         Some {| UserAccount.id := "dev_" ++ randomDigits;
                 UserAccount.name := authName c;
                 UserAccount.handle := cleanHandle (authHandle c);
                 UserAccount.avatar := toUpperCase (String.substring 0 1 (authName c));
                 UserAccount.balance := 10%Q |};
       arenas := arenas c; prevArenas := prevArenas c;
       activityFeed := activityFeed c;
       authName := authName c; authHandle := authHandle c;
       newArenaText := newArenaText c; newRoastText := newRoastText c;
       sent := (sent c ++ [EmitJoin (cleanHandle (authHandle c))])%list;
       alerts := alerts c |}.

(** [handleCreateArena], lines 283-299. *)
Definition handleCreateArena (c : t) : t :=
  match currentUser c with
  | None => c
  | Some user =>
      if String.eqb (trim (newArenaText c)) "" then c
      else if lt (UserAccount.balance user) 0.05
      then {| currentUser := currentUser c; arenas := arenas c;
              prevArenas := prevArenas c; activityFeed := activityFeed c;
              authName := authName c; authHandle := authHandle c;
              newArenaText := newArenaText c; newRoastText := newRoastText c;
              sent := sent c;
              alerts := (alerts c ++ ["Need 0.05 MONAD to post."])%list |}
      else
        {| currentUser :=
             Some (UserAccount.with_balance user (UserAccount.balance user - 0.05)%Q);
           arenas := arenas c; prevArenas := prevArenas c;
           activityFeed := activityFeed c;
           authName := authName c; authHandle := authHandle c;
           newArenaText := ""; newRoastText := newRoastText c;
           sent := (sent c
                    ++ [EmitCreateArena
                          {| ArenaData.opId := UserAccount.id user;
                             ArenaData.opName := UserAccount.name user;
                             ArenaData.opHandle := UserAccount.handle user;
                             ArenaData.opAvatar := UserAccount.avatar user;
                             ArenaData.text := newArenaText c;
                             ArenaData.winnerRoastId := None |}])%list;
           alerts := alerts c |}
  end.

(** The callback of [a.roasts.map] in [handleStakeOnRoast], line 312. *)
Definition markBacked (roastId : string) (amount : Q) (r : RoastEntry.t)
  : RoastEntry.t :=
  if String.eqb (RoastEntry.id r) roastId
  then with_myBackedAmount r (RoastEntry.myBackedAmount r + amount)%Q
  else r.

(** [handleStakeOnRoast], lines 301-319. *)
Definition handleStakeOnRoast (arenaId roastId : string) (c : t) : t :=
  let amount := 0.05%Q in
  match currentUser c with
  | None => c
  | Some user =>
      if lt (UserAccount.balance user) amount then c
      else
        {| currentUser :=
             Some (UserAccount.with_balance user (UserAccount.balance user - amount)%Q);
           arenas :=
             map (fun a =>
                    if Js.strict_ne (Arena.id a) arenaId then a
                    else Arena.with_roasts a
                           (map (markBacked roastId amount) (Arena.roasts a)))
                 (arenas c);
           prevArenas := prevArenas c; activityFeed := activityFeed c;
           authName := authName c; authHandle := authHandle c;
           newArenaText := newArenaText c; newRoastText := newRoastText c;
           sent := (sent c
                    ++ [EmitStakeRoast arenaId roastId amount
                          (UserAccount.handle user)])%list;
           alerts := alerts c |}
  end.

(** [handleSubmitRoast], lines 321-342. *)
Definition handleSubmitRoast (arenaId newId : string) (c : t) : t :=
  match currentUser c with
  | None => c
  | Some user =>
      if String.eqb (trim (newRoastText c)) "" then c
      else
        let entryFee := 0.01%Q in
        if lt (UserAccount.balance user) entryFee
        then {| currentUser := currentUser c; arenas := arenas c;
                prevArenas := prevArenas c; activityFeed := activityFeed c;
                authName := authName c; authHandle := authHandle c;
                newArenaText := newArenaText c; newRoastText := newRoastText c;
                sent := sent c;
                alerts := (alerts c ++ ["Need 0.01 MONAD to enter the arena!"])%list |}
        else
          {| currentUser :=
               Some (UserAccount.with_balance user
                       (UserAccount.balance user - entryFee)%Q);
             arenas := arenas c; prevArenas := prevArenas c;
             activityFeed := activityFeed c;
             authName := authName c; authHandle := authHandle c;
             newArenaText := newArenaText c; newRoastText := "";
             sent := (sent c
                      ++ [EmitSubmitRoast arenaId
                            {| RoastEntry.id := newId;
                               RoastEntry.roasterId := UserAccount.id user;
                               RoastEntry.roasterName := UserAccount.name user;
                               RoastEntry.text := newRoastText c;
                               RoastEntry.entryStake := entryFee;
                               RoastEntry.backedStake := 0%Q;
                               RoastEntry.myBackedAmount := 0%Q |}])%list;
             alerts := alerts c |}
  end.

(** The [onChange] handlers of the four inputs. *)
Definition setAuthName (v : string) (c : t) : t :=
  {| currentUser := currentUser c; arenas := arenas c; prevArenas := prevArenas c;
     activityFeed := activityFeed c; authName := v; authHandle := authHandle c;
     newArenaText := newArenaText c; newRoastText := newRoastText c;
     sent := sent c; alerts := alerts c |}.

Definition setAuthHandle (v : string) (c : t) : t :=
  {| currentUser := currentUser c; arenas := arenas c; prevArenas := prevArenas c;
     activityFeed := activityFeed c; authName := authName c; authHandle := v;
     newArenaText := newArenaText c; newRoastText := newRoastText c;
     sent := sent c; alerts := alerts c |}.

Definition setNewArenaText (v : string) (c : t) : t :=
  {| currentUser := currentUser c; arenas := arenas c; prevArenas := prevArenas c;
     activityFeed := activityFeed c; authName := authName c;
     authHandle := authHandle c; newArenaText := v;
     newRoastText := newRoastText c; sent := sent c; alerts := alerts c |}.

Definition setNewRoastText (v : string) (c : t) : t :=
  {| currentUser := currentUser c; arenas := arenas c; prevArenas := prevArenas c;
     activityFeed := activityFeed c; authName := authName c;
     authHandle := authHandle c; newArenaText := newArenaText c;
     newRoastText := v; sent := sent c; alerts := alerts c |}.

Definition step (c : t) (e : Event) : t :=
  match e with
  | StateUpdate serverArenas => on_state_update serverArenas c
  | ActivityUpdate log => on_activity_update log c
  | SetAuthName v => setAuthName v c
  | SetAuthHandle v => setAuthHandle v c
  | SetNewArenaText v => setNewArenaText v c
  | SetNewRoastText v => setNewRoastText v c
  | Login randomDigits => handleLogin randomDigits c
  | CreateArenaClick => handleCreateArena c
  | StakeClick arenaId roastId => handleStakeOnRoast arenaId roastId c
  | SubmitRoastClick arenaId newId => handleSubmitRoast arenaId newId c
  end.

(** The events of a session, in their order. *)
Definition run (es : list Event) (c : t) : t := fold_left step es c.

End Environment.
End App.

(** ** Notions used to state the properties of the client *)

(** The account of a logged-in user is in order: the balance is not negative
    and the handle starts with an at sign. *)
Definition accountInOrder (user : option UserAccount.t) : Prop :=
  match user with
  | Some u => (0 <= UserAccount.balance u)%Q
              /\ String.prefix "@" (UserAccount.handle u) = true
  | None => True
  end.

(** What the handlers of the client may send: a join with a handle that
    starts with an at sign, an arena that names no winner, a stake of 0.05,
    and an entry with the fee of 0.01 that nobody has backed yet. *)
Definition sendable (m : App.Outgoing) : Prop :=
  match m with
  | App.EmitJoin userHandle => String.prefix "@" userHandle = true
  | App.EmitCreateArena arenaData => ArenaData.winnerRoastId arenaData = None
  | App.EmitStakeRoast _ _ amount _ => amount = 0.05%Q
  | App.EmitSubmitRoast _ roastData =>
      RoastEntry.entryStake roastData = 0.01%Q
      /\ RoastEntry.backedStake roastData = 0%Q
      /\ RoastEntry.myBackedAmount roastData = 0%Q
  end.

(* ================================================================== *)
(** * The panels of the view ([src/server.ts], lines 1009-1010 and 1143) *)
(* ================================================================== *)

Module View.

(** The place of [r] in a list already sorted by
    [(a, b) => b.backedStake - a.backedStake], [r] coming before the
    entries of the list in the array that is sorted: [r] goes behind the
    entries that are backed more and in front of the first that is not. *)
Fixpoint insertByBacked (r : RoastEntry.t) (sorted : list RoastEntry.t)
  : list RoastEntry.t :=
  match sorted with
  | [] => [r]
  | x :: sorted' =>
      if Js.gt (RoastEntry.backedStake x) (RoastEntry.backedStake r)
      then x :: insertByBacked r sorted'
      else r :: x :: sorted'
  end.

(** [[...roasts].sort((a, b) => b.backedStake - a.backedStake)]:
    [Array.prototype.sort] is stable, so the result is the one arrangement
    by decreasing backed stake that keeps entries of equal stake in their
    order; it is built here by insertion from the right. *)
Definition sortByBacked (roasts : list RoastEntry.t) : list RoastEntry.t :=
  fold_right insertByBacked [] roasts.

(** "Top Gladiators", line 1143: [sort(...).slice(0, 5)]. *)
Definition topGladiators (roasts : list RoastEntry.t) : list RoastEntry.t :=
  Js.slice0 5 (sortByBacked roasts).

(** [arenas.filter(a => a.status === 'active')], line 1009. *)
Definition liveArenas (arenas : list Arena.t) : list Arena.t :=
  filter (fun a => Status_eqb (Arena.status a) active) arenas.

(** [arenas.filter(a => a.status === 'resolved')], line 1010. *)
Definition deadArenas (arenas : list Arena.t) : list Arena.t :=
  filter (fun a => Status_eqb (Arena.status a) resolved) arenas.

End View.

(** The entries of [l] come by decreasing backed stake. *)
Fixpoint decreasingBacked (l : list RoastEntry.t) : Prop :=
  match l with
  | [] => True
  | x :: l' =>
      Forall (fun y => (RoastEntry.backedStake y <= RoastEntry.backedStake x)%Q) l'
      /\ decreasingBacked l'
  end.

(* ================================================================== *)
(** * The prototype as an application ([src/unnamed/part_000], lines 44-233) *)
(* ================================================================== *)

Module ProtoApp.

(** The state of the component: [core] holds the user and the activity feed
    that [resolveArena] and [logActivity] write. *)
Record t : Type := mk {
  core : Prototype.t;
  arenas : list Arena.t;
  currentTime : Z;
  authName : string;
  authHandle : string;
  newArenaText : string;
  newRoastText : string;
  alerts : list string
}.

(** [MOCK_ARENAS], lines 44-60; [loadTime] is the [Date.now()] of line 53. *)
Definition MOCK_ARENAS (loadTime : Z) : list Arena.t :=
  [ {| Arena.id := "a1"; Arena.opId := "u1"; Arena.opName := "DuveshTheDev";
       Arena.opHandle := "@duvesh_dev"; Arena.opAvatar := "D";
       Arena.text := "I use ChatGPT for every API call. Documentation is for boomers.";
       Arena.stake := 0.05%Q;
       Arena.endTime := loadTime + 5 * 60 * 1000;
       Arena.status := active;
       Arena.winnerRoastId := None;
       Arena.roasts :=
         [ {| RoastEntry.id := "r1"; RoastEntry.roasterId := "u2";
              RoastEntry.roasterName := "Sankalp";
              RoastEntry.text := "Skill issue bro.";
              RoastEntry.entryStake := 0.01%Q; RoastEntry.backedStake := 0.07%Q;
              RoastEntry.myBackedAmount := 0%Q |};
           {| RoastEntry.id := "r2"; RoastEntry.roasterId := "u3";
              RoastEntry.roasterName := "Aman";
              RoastEntry.text := "Bro writes require() and feels powerful.";
              RoastEntry.entryStake := 0.01%Q; RoastEntry.backedStake := 0.04%Q;
              RoastEntry.myBackedAmount := 0%Q |} ] |} ].

(** The state of the first render, lines 64-74. *)
Definition init (loadTime renderTime : Z) : t :=
  {| core := {| Prototype.currentUser := None; Prototype.activityFeed := [];
                Prototype.logged := 0 |};
     arenas := MOCK_ARENAS loadTime;
     currentTime := renderTime;
     authName := ""; authHandle := ""; newArenaText := ""; newRoastText := "";
     alerts := [] |}.

(** [setCurrentUser(u)] *)
Definition setCurrentUser (u : option UserAccount.t) (s : Prototype.t) : Prototype.t :=
  {| Prototype.currentUser := u;
     Prototype.activityFeed := Prototype.activityFeed s;
     Prototype.logged := Prototype.logged s |}.

Inductive Event : Type :=
| Tick (now : Z)
| SetAuthName (v : string)
| SetAuthHandle (v : string)
| SetNewArenaText (v : string)
| SetNewRoastText (v : string)
| Login (randomDigits : string)
| CreateArenaClick (newId : string) (now : Z)
| StakeClick (arenaId roastId : string)
| SubmitRoastClick (arenaId newId : string).

Section Environment.

Variable mathRandom : nat -> string.
Variable dateNow : nat -> Z.
Variable trim : string -> string.
Variable toUpperCase : string -> string.

(** [prevArenas.map(...)] of the engine tick, lines 82-87, the callback run
    on the arenas from left to right. *)
Fixpoint tickArenas (now : Z) (user : option UserAccount.t) (l : list Arena.t)
    (s : Prototype.t) : list Arena.t * Prototype.t :=
  match l with
  | [] => ([], s)
  | arena :: l' =>
      let '(arena', s1) := Prototype.tickArena mathRandom dateNow now user arena s in
      let '(l'', s2) := tickArenas now user l' s1 in
      (arena' :: l'', s2)
  end.

(** The interval callback, lines 78-88. *)
Definition tick (now : Z) (c : t) : t :=
  let '(arenas', core') :=
    tickArenas now (Prototype.currentUser (core c)) (arenas c) (core c) in
  {| core := core'; arenas := arenas'; currentTime := now;
     authName := authName c; authHandle := authHandle c;
     newArenaText := newArenaText c; newRoastText := newRoastText c;
     alerts := alerts c |}.

(** [handleLogin], lines 147-159. *)
Definition handleLogin (randomDigits : string) (c : t) : t :=
  if String.eqb (authName c) "" || String.eqb (authHandle c) "" then c
  else
    let cleanHandle := App.cleanHandle (authHandle c) in
    let user :=
      {| UserAccount.id := "dev_" ++ randomDigits;
         UserAccount.name := authName c;
         UserAccount.handle := cleanHandle;
         UserAccount.avatar := toUpperCase (String.substring 0 1 (authName c));
         UserAccount.balance := 10%Q |} in
    {| core := Prototype.logActivity mathRandom dateNow
                 (cleanHandle ++ " joined the room.")
                 (setCurrentUser (Some user) (core c));
       arenas := arenas c; currentTime := currentTime c;
       authName := authName c; authHandle := authHandle c;
       newArenaText := newArenaText c; newRoastText := newRoastText c;
       alerts := alerts c |}.

(** [handleCreateArena], lines 161-183. *)
Definition handleCreateArena (newId : string) (now : Z) (c : t) : t :=
  match Prototype.currentUser (core c) with
  | None => c
  | Some user =>
      if String.eqb (trim (newArenaText c)) "" then c
      else if App.lt (UserAccount.balance user) 0.05
      then {| core := core c; arenas := arenas c; currentTime := currentTime c;
              authName := authName c; authHandle := authHandle c;
              newArenaText := newArenaText c; newRoastText := newRoastText c;
              alerts := (alerts c ++ ["Need 0.05 MONAD to post."])%list |}
      else
        let newArena :=
          {| Arena.id := newId;
             Arena.opId := UserAccount.id user;
             Arena.opName := UserAccount.name user;
             Arena.opHandle := UserAccount.handle user;
             Arena.opAvatar := UserAccount.avatar user;
             Arena.text := newArenaText c;
             Arena.stake := 0.05%Q;
             Arena.endTime := now + 5 * 60 * 1000;
             Arena.status := active;
             Arena.winnerRoastId := None;
             Arena.roasts := [] |} in
        {| core := Prototype.logActivity mathRandom dateNow
                     (UserAccount.handle user ++ " dropped a new Ragebait!")
                     (setCurrentUser
                        (Some (UserAccount.with_balance user
                                 (UserAccount.balance user - 0.05)%Q))
                        (core c));
           arenas := newArena :: arenas c; currentTime := currentTime c;
           authName := authName c; authHandle := authHandle c;
           newArenaText := ""; newRoastText := newRoastText c;
           alerts := alerts c |}
  end.

(** The callback of [arena.roasts.map] in [handleStakeOnRoast], lines 195-202. *)
Definition backOn (roastId : string) (amount : Q) (roast : RoastEntry.t)
  : RoastEntry.t :=
  if Js.strict_ne (RoastEntry.id roast) roastId then roast
  else
    {| RoastEntry.id := RoastEntry.id roast;
       RoastEntry.roasterId := RoastEntry.roasterId roast;
       RoastEntry.roasterName := RoastEntry.roasterName roast;
       RoastEntry.text := RoastEntry.text roast;
       RoastEntry.entryStake := RoastEntry.entryStake roast;
       RoastEntry.backedStake := (RoastEntry.backedStake roast + amount)%Q;
       RoastEntry.myBackedAmount := (RoastEntry.myBackedAmount roast + amount)%Q |}.

(** The callback of [prev.map] in [handleStakeOnRoast], lines 191-204. *)
Definition backIn (arenaId roastId : string) (amount : Q) (arena : Arena.t)
  : Arena.t :=
  if Js.strict_ne (Arena.id arena) arenaId then arena
  else Arena.with_roasts arena (map (backOn roastId amount) (Arena.roasts arena)).

(** [handleStakeOnRoast], lines 185-206. *)
Definition handleStakeOnRoast (arenaId roastId : string) (c : t) : t :=
  let amount := 0.05%Q in
  match Prototype.currentUser (core c) with
  | None => c
  | Some user =>
      if App.lt (UserAccount.balance user) amount then c
      else
        {| core := Prototype.logActivity mathRandom dateNow
                     (UserAccount.handle user ++ " staked 0.05 on a roast!")
                     (setCurrentUser
                        (Some (UserAccount.with_balance user
                                 (UserAccount.balance user - amount)%Q))
                        (core c));
           arenas := map (backIn arenaId roastId amount) (arenas c);
           currentTime := currentTime c;
           authName := authName c; authHandle := authHandle c;
           newArenaText := newArenaText c; newRoastText := newRoastText c;
           alerts := alerts c |}
  end.

(** [handleSubmitRoast], lines 208-232. *)
Definition handleSubmitRoast (arenaId newId : string) (c : t) : t :=
  match Prototype.currentUser (core c) with
  | None => c
  | Some user =>
      if String.eqb (trim (newRoastText c)) "" then c
      else
        let entryFee := 0.01%Q in
        if App.lt (UserAccount.balance user) entryFee
        then {| core := core c; arenas := arenas c; currentTime := currentTime c;
                authName := authName c; authHandle := authHandle c;
                newArenaText := newArenaText c; newRoastText := newRoastText c;
                alerts := (alerts c ++ ["Need 0.01 MONAD to enter the arena!"])%list |}
        else
          let newRoast :=
            {| RoastEntry.id := newId;
               RoastEntry.roasterId := UserAccount.id user;
               RoastEntry.roasterName := UserAccount.name user;
               RoastEntry.text := newRoastText c;
               RoastEntry.entryStake := entryFee;
               RoastEntry.backedStake := 0%Q;
               RoastEntry.myBackedAmount := 0%Q |} in
          {| core := Prototype.logActivity mathRandom dateNow
                       (UserAccount.handle user ++ " entered the arena with a roast.")
                       (setCurrentUser
                          (Some (UserAccount.with_balance user
                                   (UserAccount.balance user - entryFee)%Q))
                          (core c));
             arenas := map (Server.submitTo arenaId newRoast) (arenas c);
             currentTime := currentTime c;
             authName := authName c; authHandle := authHandle c;
             newArenaText := newArenaText c; newRoastText := "";
             alerts := alerts c |}
  end.

Definition setForm (authName' authHandle' newArenaText' newRoastText' : string)
    (c : t) : t :=
  {| core := core c; arenas := arenas c; currentTime := currentTime c;
     authName := authName'; authHandle := authHandle';
     newArenaText := newArenaText'; newRoastText := newRoastText';
     alerts := alerts c |}.

Definition step (c : t) (e : Event) : t :=
  match e with
  | Tick now => tick now c
  | SetAuthName v => setForm v (authHandle c) (newArenaText c) (newRoastText c) c
  | SetAuthHandle v => setForm (authName c) v (newArenaText c) (newRoastText c) c
  | SetNewArenaText v => setForm (authName c) (authHandle c) v (newRoastText c) c
  | SetNewRoastText v => setForm (authName c) (authHandle c) (newArenaText c) v c
  | Login randomDigits => handleLogin randomDigits c
  | CreateArenaClick newId now => handleCreateArena newId now c
  | StakeClick arenaId roastId => handleStakeOnRoast arenaId roastId c
  | SubmitRoastClick arenaId newId => handleSubmitRoast arenaId newId c
  end.

Definition run (es : list Event) (c : t) : t := fold_left step es c.

End Environment.
End ProtoApp.


(** The user and the feed of the prototype are in order: the account is, and
    the feed has at most 10 entries. *)
Definition coreInOrder (s : Prototype.t) : Prop :=
  accountInOrder (Prototype.currentUser s)
  /\ (List.length (Prototype.activityFeed s) <= 10)%nat.

(* ================================================================== *)
(** * The countdown of an arena ([src/server.ts], lines 345-351) *)
(* ================================================================== *)

Module Clock.

(** [Math.floor(x)] on an exact number. *)
Definition floor (x : Q) : Z := Qnum x / Zpos (Qden x).

(** The integer part of [x], rounded towards zero. *)
Definition trunc (x : Q) : Z := Z.quot (Qnum x) (Zpos (Qden x)).

(** [x % y]: what is left of [x] after the whole multiples of [y], with the
    sign of [x]. *)
Definition rem (x y : Q) : Q := (x - y * inject_Z (trunc (x / y)))%Q.

(** [s.padStart(2, '0')] *)
Definition padStart2 (s : string) : string :=
  match String.length s with
  | O => "00"
  | S O => "0" ++ s
  | _ => s
  end.

Section Environment.

(** [n.toString()] for an integer [n]. *)
Variable intToString : Z -> string.

(** [formatTimeInfo], lines 345-351; [currentTime] is the state variable the
    function reads. *)
Definition formatTimeInfo (currentTime endTime : Z) : string :=
  let diff := endTime - currentTime in
  if diff <=? 0 then "00:00"
  else
    let m := floor ((inject_Z diff / 1000) / 60) in
    let s := floor (rem (inject_Z diff / 1000) 60) in
    padStart2 (intToString m) ++ ":" ++ padStart2 (intToString s).

End Environment.
End Clock.

(** ** More sample data *)

Definition sampleTrim (s : string) : string := s.
Definition sampleToUpperCase (s : string) : string := s.
Definition sampleIntToString (n : Z) : string := "7".

Definition sampleLog (id : string) : ActivityLog.t :=
  {| ActivityLog.id := id; ActivityLog.message := "joined"; ActivityLog.timestamp := 0 |}.

(** A run of the server in which an arena is created, entered, backed and
    resolved. *)
Definition sampleRun : list Server.Command :=
  [Server.CreateArena mockData "a1" 0; Server.SubmitRoast "a1" r2;
   Server.StakeRoast "a1" "r2" 0.05%Q "@bea"; Server.Tick 300000].

(** The arena [sampleRun] ends with. *)
Definition sampleResolved : Arena.t :=
  Arena.with_winner
    (mockArena 300000
       [RoastEntry.with_backedStake r2 (RoastEntry.backedStake r2 + 0.05)%Q])
    "r2".

(** A session of the prototype in which the user logs in and backs the first
    entry of the mock arena. *)
Definition sampleSession : list ProtoApp.Event :=
  [ProtoApp.SetAuthName "Bea"; ProtoApp.SetAuthHandle "bea"; ProtoApp.Login "7";
   ProtoApp.StakeClick "a1" "r1"].

(** ** A client in a session with the server *)

(** The events a connected client handles for a piece of the server's trace:
    [io.emit] reaches the handlers of every client, in the order of the
    emits; what [socket.emit] sends goes to the connecting client alone. *)
Definition broadcastEvents (out : list Server.Emit) : list App.Event :=
  flat_map (fun e =>
              match e with
              | Server.IoEmit (Server.StateUpdate l) => [App.StateUpdate l]
              | Server.IoEmit (Server.ActivityUpdate log) => [App.ActivityUpdate log]
              | Server.SocketEmit _ => []
              end) out.

(** What the server emitted on its way from [s] to [s']. *)
Definition emittedSince (s s' : Server.t) : list Server.Emit :=
  skipn (List.length (Server.emitted s)) (Server.emitted s').

(** The command the server runs for a message of the client; [newId] and
    [now] are what the handler of ['create-arena'] draws. *)
Definition commandOf (newId : string) (now : Z) (m : App.Outgoing) : Server.Command :=
  match m with
  | App.EmitJoin userHandle => Server.Join userHandle
  | App.EmitCreateArena arenaData => Server.CreateArena arenaData newId now
  | App.EmitStakeRoast arenaId roastId amount userHandle =>
      Server.StakeRoast arenaId roastId amount userHandle
  | App.EmitSubmitRoast arenaId roastData => Server.SubmitRoast arenaId roastData
  end.

(** The balance of the user of a client, 0 when nobody is logged in. *)
Definition balanceOf (user : option UserAccount.t) : Q :=
  match user with
  | Some u => UserAccount.balance u
  | None => 0%Q
  end.

(** An entry as [handleSubmitRoast] sends it. *)
Definition entryOf (id roasterId roasterName : string) : RoastEntry.t :=
  {| RoastEntry.id := id; RoastEntry.roasterId := roasterId;
     RoastEntry.roasterName := roasterName; RoastEntry.text := "Skill issue bro.";
     RoastEntry.entryStake := 0.01%Q; RoastEntry.backedStake := 0%Q;
     RoastEntry.myBackedAmount := 0%Q |}.

(** Bea logs in. *)
Definition beaLogsIn : list App.Event :=
  [App.SetAuthName "Bea"; App.SetAuthHandle "bea"; App.Login "7"].

(** What the other users do: an arena, two entries, and 0.05 on the second. *)
Definition othersPlay : list Server.Command :=
  [Server.CreateArena mockData "a1" 0;
   Server.SubmitRoast "a1" (entryOf "e1" "u2" "Sankalp");
   Server.SubmitRoast "a1" (entryOf "e2" "u3" "Aman");
   Server.StakeRoast "a1" "e2" 0.05%Q "@aman"].

(** The client of bea: after the login; after the broadcasts of the server
    that has run her join and what the others did ([joined]); after her
    click on the stake button of the first entry; after the broadcasts of
    the server that has run her stake ([staked]); and after the broadcasts
    of the tick at the deadline ([closed]). *)
Definition beaLoggedIn : App.t :=
  App.run sampleTrim sampleToUpperCase beaLogsIn App.init.

Definition joined : Server.t :=
  Server.run sampleRandom sampleNow sampleNumToString
    (map (commandOf "" 0) (App.sent beaLoggedIn) ++ othersPlay) Server.init.

Definition beaWatching : App.t :=
  App.run sampleTrim sampleToUpperCase (broadcastEvents (Server.emitted joined))
    beaLoggedIn.

Definition beaBacked : App.t :=
  App.handleStakeOnRoast "a1" "e1" beaWatching.

Definition staked : Server.t :=
  Server.run sampleRandom sampleNow sampleNumToString
    (map (commandOf "" 0)
       (skipn (List.length (App.sent beaWatching)) (App.sent beaBacked)))
    joined.

Definition beaTold : App.t :=
  App.run sampleTrim sampleToUpperCase (broadcastEvents (emittedSince joined staked))
    beaBacked.

Definition closed : Server.t :=
  Server.tick sampleRandom sampleNow 300000 staked.

Definition beaSettled : App.t :=
  App.run sampleTrim sampleToUpperCase (broadcastEvents (emittedSince staked closed))
    beaTold.

(** The same user in the prototype: she logs in, backs the first entry of
    the mock arena, and the tick at the deadline resolves it. *)
Definition protoSettled : ProtoApp.t :=
  ProtoApp.run sampleRandom sampleNow sampleTrim sampleToUpperCase
    (sampleSession ++ [ProtoApp.Tick 300000]) (ProtoApp.init 0 0).

(* ================================================================== *)
(** * Comparisons and the winner selection *)
(* ================================================================== *)

Lemma gt_true (x y : Q) : Js.gt x y = true <-> (y < x)%Q.
Proof.
  unfold Js.gt. rewrite negb_true_iff. split; intro H.
  - apply Qnot_le_lt. intro Hle. apply Qle_bool_iff in Hle. congruence.
  - destruct (Qle_bool x y) eqn:E; [|reflexivity].
    apply Qle_bool_iff in E. exfalso. exact (Qlt_not_le _ _ H E).
Qed.

Lemma gt_false (x y : Q) : Js.gt x y = false <-> (x <= y)%Q.
Proof.
  unfold Js.gt. rewrite negb_false_iff. apply Qle_bool_iff.
Qed.

Lemma strict_ne_false (a b : string) : Js.strict_ne a b = false <-> a = b.
Proof.
  unfold Js.strict_ne. rewrite negb_false_iff. apply String.eqb_eq.
Qed.

Lemma strict_ne_true (a b : string) : Js.strict_ne a b = true <-> a <> b.
Proof.
  unfold Js.strict_ne. rewrite negb_true_iff. apply String.eqb_neq.
Qed.

(** The invariant of the reduction: the accumulator is the earliest maximum of
    the entries seen so far. *)
Lemma fold_pickWinner_firstMaximal (rest before after : list RoastEntry.t)
    (acc : RoastEntry.t) :
  Forall (fun r => (RoastEntry.backedStake r < RoastEntry.backedStake acc)%Q) before ->
  Forall (fun r => (RoastEntry.backedStake r <= RoastEntry.backedStake acc)%Q) after ->
  firstMaximal (fold_left pickWinner rest acc) (before ++ acc :: after ++ rest).
Proof.
  revert before after acc.
  induction rest as [|current rest IH]; intros before after acc Hb Ha; simpl.
  - exists before, after. rewrite app_nil_r. auto.
  - unfold pickWinner at 2.
    destruct (Js.gt (RoastEntry.backedStake current) (RoastEntry.backedStake acc)) eqn:E.
    + apply gt_true in E.
      replace (before ++ acc :: after ++ current :: rest)%list
        with ((before ++ acc :: after) ++ current :: [] ++ rest)%list
        by (rewrite <- app_assoc; reflexivity).
      apply IH; [|constructor].
      apply Forall_app. split.
      * eapply Forall_impl; [|exact Hb]. intros r Hr. simpl in Hr.
        eapply Qlt_trans; eassumption.
      * constructor; [exact E|].
        eapply Forall_impl; [|exact Ha]. intros r Hr. simpl in Hr.
        eapply Qle_lt_trans; eassumption.
    + apply gt_false in E.
      replace (before ++ acc :: after ++ current :: rest)%list
        with (before ++ acc :: (after ++ [current]) ++ rest)%list
        by (rewrite <- (app_assoc after); reflexivity).
      apply IH; [exact Hb|].
      apply Forall_app. split; [exact Ha|]. constructor; [exact E|constructor].
Qed.

Lemma reduce_pickWinner_firstMaximal (first : RoastEntry.t) (rest : list RoastEntry.t) :
  firstMaximal (Js.reduce pickWinner first rest) (first :: rest).
Proof.
  exact (fold_pickWinner_firstMaximal rest [] [] first (Forall_nil _) (Forall_nil _)).
Qed.

Lemma firstMaximal_In (w : RoastEntry.t) (l : list RoastEntry.t) :
  firstMaximal w l -> In w l.
Proof.
  intros (before & after & -> & _). apply in_or_app. right. left. reflexivity.
Qed.

Lemma firstMaximal_max (w : RoastEntry.t) (l : list RoastEntry.t) :
  firstMaximal w l ->
  forall r, In r l -> (RoastEntry.backedStake r <= RoastEntry.backedStake w)%Q.
Proof.
  intros (before & after & -> & Hb & Ha) r Hin.
  apply in_app_or in Hin. destruct Hin as [Hin|[<-|Hin]].
  - apply Qlt_le_weak. rewrite Forall_forall in Hb. exact (Hb r Hin).
  - apply Qle_refl.
  - rewrite Forall_forall in Ha. exact (Ha r Hin).
Qed.

(** With distinct entry ids, the lookup by id finds the entry itself. *)
Lemma findRoast_NoDup (l : list RoastEntry.t) (w : RoastEntry.t) :
  In w l -> NoDup (map RoastEntry.id l) -> findRoast (RoastEntry.id w) l = Some w.
Proof.
  unfold findRoast. induction l as [|r l IH]; intros Hin Hnd; [contradiction|].
  simpl. inversion Hnd as [|? ? Hnotin Hnd']; subst.
  destruct Hin as [->|Hin].
  - rewrite String.eqb_refl. reflexivity.
  - destruct (String.eqb (RoastEntry.id r) (RoastEntry.id w)) eqn:E.
    + apply String.eqb_eq in E. exfalso. apply Hnotin. rewrite E.
      apply in_map. exact Hin.
    + apply IH; assumption.
Qed.

(* ================================================================== *)
(** * The server: what a tick and a handler do to the state *)
(* ================================================================== *)

Lemma Status_eqb_eq (a b : Status) : Status_eqb a b = true <-> a = b.
Proof. destruct a, b; simpl; split; intro H; congruence. Qed.

Lemma due_iff (now : Z) (arena : Arena.t) :
  due now arena = true <-> Arena.status arena = active /\ Arena.endTime arena <= now.
Proof.
  unfold due. rewrite andb_true_iff, Status_eqb_eq, Z.leb_le. reflexivity.
Qed.

Lemma settled_status (arena : Arena.t) : Arena.status (settled arena) = resolved.
Proof. unfold settled. destruct (Arena.roasts arena); reflexivity. Qed.

Lemma settled_not_due (now : Z) (arena : Arena.t) : due now (settled arena) = false.
Proof. unfold due. rewrite settled_status. reflexivity. Qed.

Lemma settled_sameButOutcome (arena : Arena.t) : sameButOutcome arena (settled arena).
Proof.
  unfold settled, sameButOutcome.
  destruct (Arena.roasts arena) eqn:E; simpl; rewrite ?E; repeat split.
Qed.

Lemma sameButOutcome_refl (arena : Arena.t) : sameButOutcome arena arena.
Proof. unfold sameButOutcome. repeat split. Qed.

(** Cutting a list that was already cut no shorter changes nothing. *)
Lemma firstn_app_firstn {A : Type} (pre : list A) : forall (n m : nat) (l : list A),
  (n <= m)%nat -> firstn n (pre ++ firstn m l) = firstn n (pre ++ l).
Proof.
  induction pre as [|x pre IH]; intros n m l Hnm; simpl.
  - rewrite firstn_firstn. f_equal. lia.
  - destruct n as [|n]; [reflexivity|]. simpl. f_equal. apply IH. lia.
Qed.

(** What a connection does to the state. *)
Lemma on_connection_eq (s : Server.t) :
  Server.on_connection s
  = {| Server.arenas := Server.arenas s;
       Server.activityLog := Server.activityLog s;
       Server.emitted :=
         (Server.emitted s
          ++ Server.SocketEmit (Server.StateUpdate (Server.arenas s))
             :: map (fun log => Server.SocketEmit (Server.ActivityUpdate log))
                    (firstn 10 (Server.activityLog s)))%list;
       Server.logged := Server.logged s |}.
Proof.
  unfold Server.on_connection, Js.slice0.
  assert (H : forall logs st,
             fold_left (fun st log => Server.emit (Server.SocketEmit (Server.ActivityUpdate log)) st)
               logs st
             = {| Server.arenas := Server.arenas st;
                  Server.activityLog := Server.activityLog st;
                  Server.emitted :=
                    (Server.emitted st
                     ++ map (fun log => Server.SocketEmit (Server.ActivityUpdate log)) logs)%list;
                  Server.logged := Server.logged st |}).
  { induction logs as [|log logs IH]; intro st; simpl.
    - rewrite app_nil_r. destruct st; reflexivity.
    - rewrite IH. simpl. rewrite <- app_assoc. reflexivity. }
  rewrite H. simpl. rewrite <- app_assoc. reflexivity.
Qed.

Lemma stateBroadcasts_socket (ms : list Server.Message) :
  stateBroadcasts (map Server.SocketEmit ms) = [].
Proof. induction ms; simpl; auto. Qed.

Lemma stateBroadcasts_backlog (logs : list ActivityLog.t) :
  stateBroadcasts (map (fun log => Server.SocketEmit (Server.ActivityUpdate log)) logs) = [].
Proof. induction logs; simpl; auto. Qed.

Lemma activityBroadcasts_backlog (logs : list ActivityLog.t) :
  activityBroadcasts (map (fun log => Server.SocketEmit (Server.ActivityUpdate log)) logs)
  = [].
Proof. induction logs; simpl; auto. Qed.

Lemma activityBroadcasts_socket (ms : list Server.Message) :
  activityBroadcasts (map Server.SocketEmit ms) = [].
Proof. induction ms; simpl; auto. Qed.

Section EngineFacts.

Local Arguments firstn : simpl never.

Variable mathRandom : nat -> string.
Variable dateNow : nat -> Z.
Variable numToString : Q -> string.

Local Abbreviation logActivity := (Server.logActivity mathRandom dateNow).
Local Abbreviation nextLog := (Server.nextLog mathRandom dateNow).
Local Abbreviation logAll := (Server.logAll mathRandom dateNow).
Local Abbreviation newLogs := (Server.newLogs mathRandom dateNow).
Local Abbreviation resolveDue := (Server.resolveDue mathRandom dateNow).
Local Abbreviation tickMap := (Server.tickMap mathRandom dateNow).
Local Abbreviation tick := (Server.tick mathRandom dateNow).
Local Abbreviation step := (Server.step mathRandom dateNow numToString).
Local Abbreviation run := (Server.run mathRandom dateNow numToString).

Lemma logActivity_activityLog msg s :
  Server.activityLog (logActivity msg s)
  = nextLog msg s :: firstn 14 (Server.activityLog s).
Proof. reflexivity. Qed.

Lemma logActivity_emitted msg s :
  Server.emitted (logActivity msg s)
  = (Server.emitted s ++ [Server.IoEmit (Server.ActivityUpdate (nextLog msg s))])%list.
Proof. reflexivity. Qed.

Lemma resolveDue_eq now arena s didUpdate :
  resolveDue now arena s didUpdate
  = if due now arena
    then (settled arena, logActivity (closingMessage arena) s, true)
    else (arena, s, didUpdate).
Proof.
  unfold Server.resolveDue, due, settled, closingMessage.
  destruct (Status_eqb (Arena.status arena) active && (Arena.endTime arena <=? now));
    [|reflexivity].
  destruct (Arena.roasts arena); reflexivity.
Qed.

Lemma tickMap_eq now l : forall s didUpdate,
  tickMap now l s didUpdate
  = (map (afterTick now) l,
     logAll (map closingMessage (filter (due now) l)) s,
     didUpdate || existsb (due now) l).
Proof.
  induction l as [|arena l IH]; intros s didUpdate.
  - simpl. rewrite orb_false_r. reflexivity.
  - cbn [Server.tickMap]. rewrite resolveDue_eq. unfold afterTick at 1. simpl.
    destruct (due now arena) eqn:E; rewrite IH; simpl.
    + rewrite orb_true_r. reflexivity.
    + reflexivity.
Qed.


(** Logging emits one activity update per message and nothing else. *)
Lemma logAll_emitted msgs : forall s,
  Server.emitted (logAll msgs s)
  = (Server.emitted s
     ++ map (fun log => Server.IoEmit (Server.ActivityUpdate log))
            (newLogs (Server.logged s) msgs))%list.
Proof.
  induction msgs as [|m msgs IH]; intro s.
  - simpl. rewrite app_nil_r. reflexivity.
  - change (logAll (m :: msgs) s) with (logAll msgs (logActivity m s)).
    rewrite IH, logActivity_emitted, <- app_assoc. reflexivity.
Qed.

(** Logging puts the new entries, newest first, in front of the log and
    cuts the result at 15. *)
Lemma logAll_activityLog msgs : forall s,
  (List.length (Server.activityLog s) <= 15)%nat ->
  Server.activityLog (logAll msgs s)
  = firstn 15 (rev (newLogs (Server.logged s) msgs) ++ Server.activityLog s).
Proof.
  induction msgs as [|m msgs IH]; intros s Hs.
  - simpl. symmetry. apply firstn_all2. exact Hs.
  - change (logAll (m :: msgs) s) with (logAll msgs (logActivity m s)).
    rewrite IH.
    + rewrite logActivity_activityLog. cbn [Server.newLogs rev Server.logged Server.logActivity].
      rewrite <- app_assoc. cbn [app].
      change (nextLog m s :: firstn 14 (Server.activityLog s))
        with (firstn 15 (nextLog m s :: Server.activityLog s)).
      apply firstn_app_firstn. lia.
    + rewrite logActivity_activityLog. cbn [List.length]. rewrite length_firstn. lia.
Qed.

(** ** The tick *)

Lemma set_arenas_same s : Server.set_arenas (Server.arenas s) s = s.
Proof. destruct s; reflexivity. Qed.

Lemma tick_eq now s :
  tick now s
  = let s1 := logAll (map closingMessage (filter (due now) (Server.arenas s))) s in
    let s2 := Server.set_arenas (map (afterTick now) (Server.arenas s)) s1 in
    if existsb (due now) (Server.arenas s)
    then Server.emit (Server.IoEmit (Server.StateUpdate (Server.arenas s2))) s2
    else s2.
Proof.
  unfold Server.tick. rewrite tickMap_eq. reflexivity.
Qed.

Lemma tick_arenas now s :
  Server.arenas (tick now s) = map (afterTick now) (Server.arenas s).
Proof.
  rewrite tick_eq. cbv zeta.
  destruct (existsb (due now) (Server.arenas s)); reflexivity.
Qed.

Lemma no_due_filter now l : existsb (due now) l = false -> filter (due now) l = [].
Proof.
  induction l as [|a l IH]; simpl; [reflexivity|].
  intro H. apply orb_false_iff in H. destruct H as [Ha Hl].
  rewrite Ha. auto.
Qed.

Lemma no_due_afterTick now l : existsb (due now) l = false -> map (afterTick now) l = l.
Proof.
  induction l as [|a l IH]; simpl; [reflexivity|].
  intro H. apply orb_false_iff in H. destruct H as [Ha Hl].
  unfold afterTick at 1. rewrite Ha, IH; auto.
Qed.

(** A tick that finds no arena due leaves the whole state as it is. *)
Lemma tick_idle now s : existsb (due now) (Server.arenas s) = false -> tick now s = s.
Proof.
  intro H. rewrite tick_eq. cbv zeta.
  rewrite H, no_due_filter, no_due_afterTick by exact H.
  simpl. apply set_arenas_same.
Qed.

Lemma tick_emitted now s :
  Server.emitted (tick now s)
  = (Server.emitted s
     ++ map (fun log => Server.IoEmit (Server.ActivityUpdate log))
            (newLogs (Server.logged s)
               (map closingMessage (filter (due now) (Server.arenas s))))
     ++ (if existsb (due now) (Server.arenas s)
         then [Server.IoEmit (Server.StateUpdate (Server.arenas (tick now s)))]
         else []))%list.
Proof.
  rewrite tick_arenas, tick_eq. cbv zeta.
  destruct (existsb (due now) (Server.arenas s)); cbn [Server.emit Server.set_arenas Server.emitted Server.arenas].
  - rewrite logAll_emitted, <- app_assoc. reflexivity.
  - rewrite logAll_emitted, app_nil_r. reflexivity.
Qed.

Lemma stateBroadcasts_app out1 out2 :
  stateBroadcasts (out1 ++ out2) = (stateBroadcasts out1 ++ stateBroadcasts out2)%list.
Proof.
  induction out1 as [|[[l|log]|m] out1 IH]; simpl; rewrite ?IH; reflexivity.
Qed.

Lemma stateBroadcasts_activity logs :
  stateBroadcasts (map (fun log => Server.IoEmit (Server.ActivityUpdate log)) logs) = [].
Proof. induction logs; simpl; auto. Qed.

Lemma activityBroadcasts_app out1 out2 :
  activityBroadcasts (out1 ++ out2)
  = (activityBroadcasts out1 ++ activityBroadcasts out2)%list.
Proof.
  induction out1 as [|[[l|log]|m] out1 IH]; simpl; rewrite ?IH; reflexivity.
Qed.

Lemma activityBroadcasts_activity logs :
  activityBroadcasts (map (fun log => Server.IoEmit (Server.ActivityUpdate log)) logs)
  = logs.
Proof. induction logs; simpl; congruence. Qed.

(** ** The steps of a run *)

Lemma evolves_refl a : evolves a a.
Proof. unfold evolves. auto. Qed.

Lemma evolves_trans a b c : evolves a b -> evolves b c -> evolves a c.
Proof.
  unfold evolves. intros (Hi & He & Hr) (Hi' & He' & Hr').
  split; [congruence|]. split; [congruence|].
  intro H. destruct (Hr H) as [Hs Hw]. destruct (Hr' Hs) as [Hs' Hw'].
  split; congruence.
Qed.

Lemma evolves_afterTick now a : evolves a (afterTick now a).
Proof.
  unfold afterTick. destruct (due now a) eqn:E; [|apply evolves_refl].
  apply due_iff in E. destruct E as [Hact _].
  destruct (settled_sameButOutcome a) as (Hi & _ & _ & _ & _ & _ & _ & He & _).
  unfold evolves. split; [exact Hi|]. split; [exact He|].
  intro H. congruence.
Qed.

Lemma evolves_submitTo arenaId roastData a :
  evolves a (Server.submitTo arenaId roastData a).
Proof.
  unfold Server.submitTo. destruct (Js.strict_ne (Arena.id a) arenaId);
    [apply evolves_refl|].
  unfold evolves. simpl. auto.
Qed.

Lemma evolves_stakeIn arenaId roastId amount a :
  evolves a (Server.stakeIn arenaId roastId amount a).
Proof.
  unfold Server.stakeIn. destruct (Js.strict_ne (Arena.id a) arenaId);
    [apply evolves_refl|].
  unfold evolves. simpl. auto.
Qed.

Lemma on_connection_arenas s : Server.arenas (Server.on_connection s) = Server.arenas s.
Proof.
  unfold Server.on_connection.
  set (s0 := Server.emit _ s). change (Server.arenas s) with (Server.arenas s0).
  generalize (Js.slice0 10 (Server.activityLog s)). intro logs. generalize s0.
  induction logs as [|log logs IH]; intro st; simpl; [reflexivity|].
  rewrite IH. reflexivity.
Qed.

Lemma on_connection_activityLog s :
  Server.activityLog (Server.on_connection s) = Server.activityLog s.
Proof.
  unfold Server.on_connection.
  set (s0 := Server.emit _ s).
  change (Server.activityLog s) with (Server.activityLog s0) at 2.
  generalize (Js.slice0 10 (Server.activityLog s)). intro logs. generalize s0.
  induction logs as [|log logs IH]; intro st; simpl; [reflexivity|].
  rewrite IH. reflexivity.
Qed.

(** Every step maps the arenas one by one and may add new ones in front. *)
Lemma step_arenas s c :
  exists (pre : list Arena.t) (f : Arena.t -> Arena.t),
    Server.arenas (step s c) = (pre ++ map f (Server.arenas s))%list
    /\ forall a, evolves a (f a).
Proof.
  destruct c as [now| |userHandle|arenaData newId now|arenaId roastData
                |arenaId roastId amount userHandle]; cbn [Server.step].
  - exists [], (afterTick now). split; [apply tick_arenas|apply evolves_afterTick].
  - exists [], (fun a => a). rewrite on_connection_arenas, map_id.
    split; [reflexivity|apply evolves_refl].
  - exists [], (fun a => a). rewrite map_id.
    split; [reflexivity|apply evolves_refl].
  - eexists [_], (fun a => a). rewrite map_id.
    split; [reflexivity|apply evolves_refl].
  - exists [], (Server.submitTo arenaId roastData).
    split; [reflexivity|apply evolves_submitTo].
  - exists [], (Server.stakeIn arenaId roastId amount).
    split; [reflexivity|apply evolves_stakeIn].
Qed.

(** The arena in front of the collection is the last one created. *)
Lemma arenaAt_front s a l :
  Server.arenas s = a :: l -> arenaAt (List.length l) s = Some a.
Proof.
  unfold arenaAt. intros ->. cbn [rev].
  rewrite nth_error_app2 by (rewrite length_rev; lia).
  rewrite length_rev, Nat.sub_diag. reflexivity.
Qed.

Lemma step_arenaAt s c k a :
  arenaAt k s = Some a ->
  exists a', arenaAt k (step s c) = Some a' /\ evolves a a'.
Proof.
  unfold arenaAt. intro H.
  destruct (step_arenas s c) as (pre & f & -> & Hf).
  rewrite rev_app_distr, <- map_rev.
  exists (f a). split; [|apply Hf].
  rewrite nth_error_app1.
  - apply map_nth_error. exact H.
  - rewrite length_map. apply nth_error_Some. congruence.
Qed.

Lemma run_arenaAt cs : forall s k a,
  arenaAt k s = Some a ->
  exists a', arenaAt k (run cs s) = Some a' /\ evolves a a'.
Proof.
  induction cs as [|c cs IH]; intros s k a H.
  - exists a. split; [exact H|apply evolves_refl].
  - destruct (step_arenaAt s c k a H) as (a1 & H1 & E1).
    destruct (IH (step s c) k a1 H1) as (a2 & H2 & E2).
    exists a2. split; [exact H2|]. eapply evolves_trans; eassumption.
Qed.

(** ** Invariants of the reachable states *)

Lemma step_activityLog_bound s c :
  (List.length (Server.activityLog s) <= 15)%nat ->
  (List.length (Server.activityLog (step s c)) <= 15)%nat.
Proof.
  intro H.
  destruct c as [now| |userHandle|arenaData newId now|arenaId roastData
                |arenaId roastId amount userHandle]; cbn [Server.step].
  - rewrite tick_eq. cbv zeta.
    destruct (existsb (due now) (Server.arenas s));
      cbn [Server.emit Server.set_arenas Server.activityLog];
      rewrite logAll_activityLog by exact H; rewrite length_firstn; lia.
  - rewrite on_connection_activityLog. exact H.
  - unfold Server.on_join. rewrite logActivity_activityLog.
    cbn [List.length]. rewrite length_firstn. lia.
  - unfold Server.on_create_arena. cbn [Server.emit Server.activityLog].
    rewrite logActivity_activityLog. cbn [List.length]. rewrite length_firstn. lia.
  - unfold Server.on_submit_roast. cbn [Server.emit Server.activityLog].
    rewrite logActivity_activityLog. cbn [List.length]. rewrite length_firstn. lia.
  - unfold Server.on_stake_roast. cbn [Server.emit Server.activityLog].
    rewrite logActivity_activityLog. cbn [List.length]. rewrite length_firstn. lia.
Qed.

Lemma run_activityLog_bound cs : forall s,
  (List.length (Server.activityLog s) <= 15)%nat ->
  (List.length (Server.activityLog (run cs s)) <= 15)%nat.
Proof.
  induction cs as [|c cs IH]; intros s H; [exact H|].
  apply (IH (step s c)). apply step_activityLog_bound. exact H.
Qed.

Lemma step_activeUnsettled s c :
  createsUnsettled c ->
  Forall activeUnsettled (Server.arenas s) ->
  Forall activeUnsettled (Server.arenas (step s c)).
Proof.
  intros Hc H.
  destruct c as [now| |userHandle|arenaData newId now|arenaId roastData
                |arenaId roastId amount userHandle]; cbn [Server.step].
  - rewrite tick_arenas. apply Forall_map. eapply Forall_impl; [|exact H].
    intros a Ha. unfold afterTick. destruct (due now a); [|exact Ha].
    intro Hs. rewrite settled_status in Hs. discriminate.
  - rewrite on_connection_arenas. exact H.
  - exact H.
  - constructor; [|exact H]. intro. exact Hc.
  - cbn. apply Forall_map. eapply Forall_impl; [|exact H].
    intros a Ha. unfold Server.submitTo.
    destruct (Js.strict_ne (Arena.id a) arenaId); exact Ha.
  - cbn. apply Forall_map. eapply Forall_impl; [|exact H].
    intros a Ha. unfold Server.stakeIn.
    destruct (Js.strict_ne (Arena.id a) arenaId); exact Ha.
Qed.

Lemma run_activeUnsettled cs : forall s,
  Forall createsUnsettled cs ->
  Forall activeUnsettled (Server.arenas s) ->
  Forall activeUnsettled (Server.arenas (run cs s)).
Proof.
  induction cs as [|c cs IH]; intros s Hcs H; [exact H|].
  inversion Hcs as [|? ? Hc Hcs']; subst.
  apply (IH (step s c)); [exact Hcs'|]. apply step_activeUnsettled; assumption.
Qed.

Lemma Forall2_map_self {A : Type} (R : A -> A -> Prop) (f : A -> A) (l : list A) :
  (forall a, R a (f a)) -> Forall2 R l (map f l).
Proof. intro H. induction l; simpl; constructor; auto. Qed.

Lemma map_fixes {A : Type} (f : A -> A) (l : list A) :
  map f l = l -> Forall (fun a => f a = a) l.
Proof.
  induction l as [|a l IH]; simpl; intro H; [constructor|].
  injection H as Ha Hl. constructor; auto.
Qed.

Lemma afterTick_due now a : due now a = true -> afterTick now a = settled a.
Proof. unfold afterTick. intros ->. reflexivity. Qed.

Lemma afterTick_fixed now a : afterTick now a = a -> due now a = false.
Proof.
  unfold afterTick. destruct (due now a) eqn:E; [|reflexivity].
  intro H. apply due_iff in E. destruct E as [Hact _].
  pose proof (settled_status a) as Hs. rewrite H in Hs. congruence.
Qed.

Lemma existsb_Forall_false {A : Type} (p : A -> bool) (l : list A) :
  Forall (fun a => p a = false) l -> existsb p l = false.
Proof. induction 1 as [|a l Ha _ IH]; simpl; [|rewrite Ha, IH]; reflexivity. Qed.

Lemma resolveDue_resolved now a st didUpdate :
  Arena.status a = resolved -> resolveDue now a st didUpdate = (a, st, didUpdate).
Proof.
  intro H. rewrite resolveDue_eq. unfold due. rewrite H. reflexivity.
Qed.

(** The arena a resolution returns for an arena with entries names its
    earliest maximal entry. *)
Lemma settled_winnerIsBest arena :
  Arena.roasts arena <> [] -> winnerIsBest (settled arena).
Proof.
  intro Hne. unfold settled, winnerIsBest.
  destruct (Arena.roasts arena) as [|first rest] eqn:E; [congruence|].
  exists (Js.reduce pickWinner first rest). cbn. rewrite E.
  split; [reflexivity|apply reduce_pickWinner_firstMaximal].
Qed.

Lemma resolvedWinnerIsBest_afterTick now a :
  resolvedWinnerIsBest a -> resolvedWinnerIsBest (afterTick now a).
Proof.
  unfold afterTick. destruct (due now a); [|auto].
  intros _ _ Hne. apply settled_winnerIsBest.
  destruct (settled_sameButOutcome a) as (_ & _ & _ & _ & _ & _ & _ & _ & Hr).
  rewrite Hr in Hne. exact Hne.
Qed.

Lemma step_resolvedWinnerIsBest s c :
  targetsActive c s ->
  Forall resolvedWinnerIsBest (Server.arenas s) ->
  Forall resolvedWinnerIsBest (Server.arenas (step s c)).
Proof.
  intros Hc H.
  destruct c as [now| |userHandle|arenaData newId now|arenaId roastData
                |arenaId roastId amount userHandle]; cbn [Server.step].
  - rewrite tick_arenas. apply Forall_map. eapply Forall_impl; [|exact H].
    intros a. apply resolvedWinnerIsBest_afterTick.
  - rewrite on_connection_arenas. exact H.
  - exact H.
  - constructor; [|exact H]. intro Hs. discriminate Hs.
  - cbn. apply Forall_map. cbn in Hc. rewrite Forall_forall in *.
    intros a Ha. unfold Server.submitTo.
    destruct (Js.strict_ne (Arena.id a) arenaId) eqn:E; [exact (H a Ha)|].
    apply strict_ne_false in E. intro Hs. cbn in Hs.
    rewrite (Hc a Ha E) in Hs. discriminate Hs.
  - cbn. apply Forall_map. cbn in Hc. rewrite Forall_forall in *.
    intros a Ha. unfold Server.stakeIn.
    destruct (Js.strict_ne (Arena.id a) arenaId) eqn:E; [exact (H a Ha)|].
    apply strict_ne_false in E. intro Hs. cbn in Hs.
    rewrite (Hc a Ha E) in Hs. discriminate Hs.
Qed.

Lemma run_resolvedWinnerIsBest cs : forall s,
  leavesResolvedAlone mathRandom dateNow numToString cs s ->
  Forall resolvedWinnerIsBest (Server.arenas s) ->
  Forall resolvedWinnerIsBest (Server.arenas (run cs s)).
Proof.
  induction cs as [|c cs IH]; intros s Hcs H; [exact H|].
  destruct Hcs as [Hc Hcs].
  apply (IH (step s c)); [exact Hcs|]. apply step_resolvedWinnerIsBest; assumption.
Qed.

(* ================================================================ *)
(** * The properties of the specification *)
(* ================================================================ *)

(** C1, as the code has it.  The tick that resolves an arena with at least
    one entry sets as [winnerRoastId] the id of the earliest entry whose
    [backedStake] is maximal: no entry is backed more, and every entry
    submitted before it is backed strictly less, so that among entries tied
    at the maximum the first in insertion order wins; with distinct entry
    ids the lookup by that id finds this entry, and [resolveArena] of the
    prototype returns the same arena.  Every resolved arena with an entry
    has such a winner in every state of a run in which no entry and no
    stake is sent to an arena that is already resolved; the handlers do
    accept both, and the winner of a resolved arena is then not kept in
    step with its entries. *)
Theorem C1_amended_winner_is_earliest_maximal_when_resolved :
  (forall now s i arena,
      nth_error (Server.arenas s) i = Some arena ->
      due now arena = true ->
      Arena.roasts arena <> [] ->
      exists a' w,
        nth_error (Server.arenas (tick now s)) i = Some a'
        /\ Arena.status a' = resolved
        /\ Arena.roasts a' = Arena.roasts arena
        /\ Arena.winnerRoastId a' = Some (RoastEntry.id w)
        /\ firstMaximal w (Arena.roasts a')
        /\ (forall r, In r (Arena.roasts a') ->
            (RoastEntry.backedStake r <= RoastEntry.backedStake w)%Q)
        /\ (NoDup (map RoastEntry.id (Arena.roasts a')) ->
            findRoast (RoastEntry.id w) (Arena.roasts a') = Some w)
        /\ (forall user p,
              fst (Prototype.resolveArena mathRandom dateNow user arena p) = a'))
  /\ (forall cs s,
        Forall resolvedWinnerIsBest (Server.arenas s) ->
        leavesResolvedAlone mathRandom dateNow numToString cs s ->
        forall a,
          In a (Server.arenas (run cs s)) ->
          Arena.status a = resolved ->
          Arena.roasts a <> [] ->
          exists w,
            Arena.winnerRoastId a = Some (RoastEntry.id w)
            /\ firstMaximal w (Arena.roasts a)
            /\ (forall r, In r (Arena.roasts a) ->
                (RoastEntry.backedStake r <= RoastEntry.backedStake w)%Q)).
Proof.
  split.
  - intros now s i arena Hi Hdue Hne.
    destruct (Arena.roasts arena) as [|first rest] eqn:E; [congruence|].
    pose proof (reduce_pickWinner_firstMaximal first rest) as Hw.
    exists (settled arena), (Js.reduce pickWinner first rest).
    assert (Hr : Arena.roasts (settled arena) = first :: rest).
    { unfold settled. rewrite E. simpl. exact E. }
    split.
    { rewrite tick_arenas. erewrite map_nth_error by exact Hi.
      rewrite afterTick_due by exact Hdue. reflexivity. }
    split; [apply settled_status|].
    split; [exact Hr|].
    split; [unfold settled; rewrite E; reflexivity|].
    rewrite Hr.
    split; [exact Hw|].
    split; [apply firstMaximal_max; exact Hw|].
    split; [apply findRoast_NoDup, firstMaximal_In; exact Hw|].
    intros user p. unfold Prototype.resolveArena, settled. rewrite E. reflexivity.
  - intros cs s Hs Hcs a Ha Hres Hne.
    pose proof (run_resolvedWinnerIsBest cs s Hcs Hs) as Hinv.
    rewrite Forall_forall in Hinv.
    destruct (Hinv a Ha Hres Hne) as (w & Hw & Hfm).
    exists w. split; [exact Hw|]. split; [exact Hfm|].
    apply firstMaximal_max. exact Hfm.
Qed.


(** C4. The status of an arena never goes back: whatever commands and ticks
    follow, an arena that is [resolved] is still [resolved], with the same
    id and the same winner, and the callback of a tick returns such an
    arena as it is, without logging and without raising [didUpdate]: the
    resolution is not applied to it a second time. *)
Theorem C4_resolved_is_final cs s k a :
  arenaAt k s = Some a ->
  Arena.status a = resolved ->
  exists a',
    arenaAt k (run cs s) = Some a'
    /\ Arena.status a' = resolved
    /\ Arena.id a' = Arena.id a
    /\ Arena.winnerRoastId a' = Arena.winnerRoastId a
    /\ (forall now st didUpdate, resolveDue now a' st didUpdate = (a', st, didUpdate))
    /\ (forall now, afterTick now a' = a').
Proof.
  intros Hk Hres.
  destruct (run_arenaAt cs s k a Hk) as (a' & Hk' & Hi & _ & Hr).
  destruct (Hr Hres) as [Hs Hw].
  exists a'. repeat split; try assumption.
  - intros now st didUpdate. apply resolveDue_resolved. exact Hs.
  - intro now. unfold afterTick, due. rewrite Hs. reflexivity.
Qed.

(** C7. A tick resolves every arena that is active with its deadline passed:
    the arenas it leaves are the old ones with each due arena resolved, and
    none of them is due any more.  Its output holds exactly one broadcast
    of the arena collection, the new one, when some arena was due, and none
    otherwise; some arena was due exactly when the collection changed, and
    a tick that finds nothing due leaves the state, trace included, as it
    is. *)
Theorem C7_tick_resolves_all_and_broadcasts_once now s :
  Server.arenas (tick now s) = map (afterTick now) (Server.arenas s)
  /\ Forall2 (fun a a' => if due now a then Arena.status a' = resolved else a' = a)
       (Server.arenas s) (Server.arenas (tick now s))
  /\ Forall (fun a' => due now a' = false) (Server.arenas (tick now s))
  /\ (exists out,
        Server.emitted (tick now s) = (Server.emitted s ++ out)%list
        /\ stateBroadcasts out
           = if existsb (due now) (Server.arenas s)
             then [Server.arenas (tick now s)] else [])
  /\ (existsb (due now) (Server.arenas s) = true
      <-> Server.arenas (tick now s) <> Server.arenas s)
  /\ (existsb (due now) (Server.arenas s) = false -> tick now s = s).
Proof.
  split; [apply tick_arenas|].
  split.
  { rewrite tick_arenas. apply Forall2_map_self. intro a.
    unfold afterTick. destruct (due now a); [apply settled_status|reflexivity]. }
  split.
  { rewrite tick_arenas. apply Forall_map. apply Forall_forall. intros a _.
    unfold afterTick. destruct (due now a) eqn:E; [apply settled_not_due|exact E]. }
  split.
  { eexists. split; [apply tick_emitted|].
    rewrite stateBroadcasts_app, stateBroadcasts_activity.
    destruct (existsb (due now) (Server.arenas s)); reflexivity. }
  split; [|apply tick_idle].
  split.
  - intros Hex Heq. rewrite tick_arenas in Heq. apply map_fixes in Heq.
    assert (Hall : Forall (fun a => due now a = false) (Server.arenas s)).
    { eapply Forall_impl; [|exact Heq]. intros a Ha. exact (afterTick_fixed now a Ha). }
    apply existsb_Forall_false in Hall. congruence.
  - intro Hne. destruct (existsb (due now) (Server.arenas s)) eqn:E; [reflexivity|].
    exfalso. apply Hne. rewrite tick_idle by exact E. reflexivity.
Qed.

(** C8. ['create-arena'] puts in front of the collection an arena whose
    [endTime] is the time of the creation plus 5 minutes (300000 ms), whose
    status is [active] and whose entry list is empty, for every payload (of
    the payload the arena keeps what the handler does not override, a
    [winnerRoastId] included); whatever commands and ticks follow, that
    arena still has this [endTime]. *)
Theorem C8_created_arena_and_fixed_deadline arenaData newId now s cs :
  let s1 := Server.on_create_arena mathRandom dateNow arenaData newId now s in
  exists newArena,
    Server.arenas s1 = newArena :: Server.arenas s
    /\ arenaAt (List.length (Server.arenas s)) s1 = Some newArena
    /\ Arena.id newArena = newId
    /\ Arena.endTime newArena = now + 300000
    /\ Arena.status newArena = active
    /\ Arena.roasts newArena = []
    /\ Arena.winnerRoastId newArena = ArenaData.winnerRoastId arenaData
    /\ exists a',
         arenaAt (List.length (Server.arenas s)) (run cs s1) = Some a'
         /\ Arena.id a' = newId
         /\ Arena.endTime a' = now + 300000.
Proof.
  intro s1. eexists. split; [reflexivity|].
  pose proof (arenaAt_front s1 _ _ eq_refl) as Hat.
  split; [exact Hat|].
  do 5 (split; [reflexivity|]).
  destruct (run_arenaAt cs s1 _ _ Hat) as (a' & Ha' & Hi & He & _).
  exists a'. split; [exact Ha'|]. split; [exact Hi|exact He].
Qed.

Lemma logAll_logged msgs : forall s,
  Server.logged (logAll msgs s) = (Server.logged s + List.length msgs)%nat.
Proof.
  induction msgs as [|m msgs IH]; intro s.
  - simpl. lia.
  - change (logAll (m :: msgs) s) with (logAll msgs (logActivity m s)).
    rewrite IH. cbn [Server.logActivity Server.logged List.length]. lia.
Qed.

Lemma newLogs_length msgs : forall k, List.length (newLogs k msgs) = List.length msgs.
Proof.
  induction msgs as [|m msgs IH]; intro k; simpl; [|rewrite IH]; reflexivity.
Qed.

(** What a command adds to the trace, and what it does to the log with the
    activity entries it broadcasts. *)
Lemma step_log s c :
  (List.length (Server.activityLog s) <= 15)%nat ->
  exists out,
    Server.emitted (step s c) = (Server.emitted s ++ out)%list
    /\ Server.activityLog (step s c)
       = firstn 15 (rev (activityBroadcasts out) ++ Server.activityLog s)
    /\ Server.logged (step s c)
       = (Server.logged s + List.length (activityBroadcasts out))%nat.
Proof.
  intro H.
  destruct c as [now| |userHandle|arenaData newId now|arenaId roastData
                |arenaId roastId amount userHandle]; cbn [Server.step].
  - eexists. split; [apply tick_emitted|].
    rewrite activityBroadcasts_app, activityBroadcasts_activity.
    assert (Hnone : activityBroadcasts
                      (if existsb (due now) (Server.arenas s)
                       then [Server.IoEmit (Server.StateUpdate (Server.arenas (tick now s)))]
                       else []) = []).
    { destruct (existsb (due now) (Server.arenas s)); reflexivity. }
    rewrite Hnone, app_nil_r, newLogs_length.
    rewrite tick_eq. cbv zeta.
    destruct (existsb (due now) (Server.arenas s));
      cbn [Server.emit Server.set_arenas Server.activityLog Server.logged];
      rewrite logAll_activityLog by exact H; rewrite logAll_logged;
      split; reflexivity.
  - eexists. rewrite on_connection_eq.
    cbn [Server.emitted Server.activityLog Server.logged].
    split; [reflexivity|].
    change (Server.SocketEmit (Server.StateUpdate (Server.arenas s))
            :: map (fun log => Server.SocketEmit (Server.ActivityUpdate log))
                   (firstn 10 (Server.activityLog s)))
      with ([Server.SocketEmit (Server.StateUpdate (Server.arenas s))]
            ++ map (fun log => Server.SocketEmit (Server.ActivityUpdate log))
                   (firstn 10 (Server.activityLog s)))%list.
    rewrite activityBroadcasts_app, activityBroadcasts_backlog.
    cbn [activityBroadcasts app rev List.length].
    split; [symmetry; apply firstn_all2; exact H|lia].
  - eexists [_]. split; [reflexivity|]. split; [reflexivity|]. cbn. lia.
  - eexists [_; _]. unfold Server.on_create_arena.
    cbn [Server.emit Server.logActivity Server.set_arenas Server.emitted
         Server.activityLog Server.logged Server.arenas].
    rewrite <- app_assoc. split; [reflexivity|]. split; [reflexivity|]. cbn. lia.
  - eexists [_; _]. unfold Server.on_submit_roast.
    cbn [Server.emit Server.logActivity Server.set_arenas Server.emitted
         Server.activityLog Server.logged Server.arenas].
    rewrite <- app_assoc. split; [reflexivity|]. split; [reflexivity|]. cbn. lia.
  - eexists [_; _]. unfold Server.on_stake_roast.
    cbn [Server.emit Server.logActivity Server.set_arenas Server.emitted
         Server.activityLog Server.logged Server.arenas].
    rewrite <- app_assoc. split; [reflexivity|]. split; [reflexivity|]. cbn. lia.
Qed.

Lemma run_log cs : forall s,
  (List.length (Server.activityLog s) <= 15)%nat ->
  exists out,
    Server.emitted (run cs s) = (Server.emitted s ++ out)%list
    /\ Server.activityLog (run cs s)
       = firstn 15 (rev (activityBroadcasts out) ++ Server.activityLog s)
    /\ Server.logged (run cs s)
       = (Server.logged s + List.length (activityBroadcasts out))%nat.
Proof.
  induction cs as [|c cs IH]; intros s H.
  - exists []. cbn. rewrite app_nil_r.
    split; [reflexivity|]. split; [symmetry; apply firstn_all2; exact H|lia].
  - destruct (step_log s c H) as (out1 & He1 & Hl1 & Hn1).
    destruct (IH (step s c) (step_activityLog_bound s c H)) as (out2 & He2 & Hl2 & Hn2).
    exists (out1 ++ out2)%list.
    change (run (c :: cs) s) with (run cs (step s c)).
    rewrite He2, He1, Hl2, Hl1, Hn2, Hn1.
    rewrite activityBroadcasts_app, rev_app_distr, length_app, <- !app_assoc.
    split; [reflexivity|]. split; [|lia].
    apply firstn_app_firstn. lia.
Qed.

(** The handlers that call [logActivity] once: ['join'], ['create-arena'],
    ['submit-roast'] and ['stake-roast']. *)
Lemma handler_logs_once s c :
  match c with Server.Tick _ | Server.Connection => False | _ => True end ->
  exists e rest,
    Server.emitted (step s c)
    = (Server.emitted s ++ Server.IoEmit (Server.ActivityUpdate e) :: rest)%list
    /\ activityBroadcasts rest = []
    /\ Server.activityLog (step s c) = e :: firstn 14 (Server.activityLog s).
Proof.
  destruct c as [now| |userHandle|arenaData newId now|arenaId roastData
                |arenaId roastId amount userHandle]; cbn [Server.step];
    intro Hc; try contradiction.
  - eexists _, []. repeat split.
  - eexists _, [_]. unfold Server.on_create_arena.
    cbn [Server.emit Server.logActivity Server.set_arenas Server.emitted
         Server.activityLog Server.logged Server.arenas].
    rewrite <- app_assoc. repeat split.
  - eexists _, [_]. unfold Server.on_submit_roast.
    cbn [Server.emit Server.logActivity Server.set_arenas Server.emitted
         Server.activityLog Server.logged Server.arenas].
    rewrite <- app_assoc. repeat split.
  - eexists _, [_]. unfold Server.on_stake_roast.
    cbn [Server.emit Server.logActivity Server.set_arenas Server.emitted
         Server.activityLog Server.logged Server.arenas].
    rewrite <- app_assoc. repeat split.
Qed.

(** C9. After every sequence of commands and ticks, from a log of at most 15
    entries (the empty log of the start is one), the activity log has at
    most 15 entries and is the first 15 of: the entries appended during the
    run, which are the activity entries the run broadcast, one for each call
    of [logActivity], newest first, followed by the old log.  So the entry
    appended last is at the front, and what leaves the log leaves it at the
    back, and only as many entries as exceed the bound.  Each of the
    handlers ['join'], ['create-arena'], ['submit-roast'] and
    ['stake-roast'] appends one entry in this way. *)
Theorem C9_activity_log_bounded_newest_first cs s :
  (List.length (Server.activityLog s) <= 15)%nat ->
  exists out,
    Server.emitted (run cs s) = (Server.emitted s ++ out)%list
    /\ let added := rev (activityBroadcasts out) in
       List.length added = (Server.logged (run cs s) - Server.logged s)%nat
       /\ Server.activityLog (run cs s) = firstn 15 (added ++ Server.activityLog s)
       /\ (List.length (Server.activityLog (run cs s)) <= 15)%nat
       /\ (forall newest older,
             added = newest :: older ->
             exists kept, Server.activityLog (run cs s) = newest :: kept)
       /\ (exists evicted,
             (added ++ Server.activityLog s)%list
             = (Server.activityLog (run cs s) ++ evicted)%list
             /\ List.length evicted
                = (List.length added + List.length (Server.activityLog s) - 15)%nat)
       /\ (forall c,
             match c with Server.Tick _ | Server.Connection => False | _ => True end ->
             exists e rest,
               Server.emitted (step (run cs s) c)
               = (Server.emitted (run cs s)
                  ++ Server.IoEmit (Server.ActivityUpdate e) :: rest)%list
               /\ activityBroadcasts rest = []
               /\ Server.activityLog (step (run cs s) c)
                  = e :: firstn 14 (Server.activityLog (run cs s))).
Proof.
  intro H.
  destruct (run_log cs s H) as (out & He & Hl & Hn).
  exists out. split; [exact He|]. cbv zeta.
  split; [rewrite length_rev, Hn; lia|].
  split; [exact Hl|].
  split; [apply run_activityLog_bound; exact H|].
  split.
  { intros newest older Ha. rewrite Hl, Ha. cbn [app].
    exists (firstn 14 (older ++ Server.activityLog s)). reflexivity. }
  split.
  { exists (skipn 15 (rev (activityBroadcasts out) ++ Server.activityLog s)).
    rewrite Hl. split; [symmetry; apply firstn_skipn|].
    rewrite length_skipn, length_app. reflexivity. }
  intros c Hc. apply handler_logs_once. exact Hc.
Qed.

(** C10. A tick changes of an arena only its status and its winner: the id,
    the fields of the poster, the text, the stake, the deadline and the
    entry list of every arena are those of before; an arena that is not due
    is left as it is, and so is the winner field of a due arena without
    entries.  [resolveArena] and the tick of the prototype have the same
    frame. *)
Theorem C10_resolution_frame now s :
  Forall2 (fun a a' =>
             sameButOutcome a a'
             /\ (due now a = false -> a' = a)
             /\ (Arena.roasts a = [] -> Arena.winnerRoastId a' = Arena.winnerRoastId a))
          (Server.arenas s) (Server.arenas (tick now s))
  /\ (forall user arena p,
        sameButOutcome arena
          (fst (Prototype.resolveArena mathRandom dateNow user arena p))
        /\ sameButOutcome arena
             (fst (Prototype.tickArena mathRandom dateNow now user arena p))
        /\ (due now arena = false ->
            Prototype.tickArena mathRandom dateNow now user arena p = (arena, p))).
Proof.
  split.
  - rewrite tick_arenas. apply Forall2_map_self. intro a.
    unfold afterTick. destruct (due now a).
    + split; [apply settled_sameButOutcome|]. split; [discriminate|].
      intro He. unfold settled. rewrite He. reflexivity.
    + split; [apply sameButOutcome_refl|]. split; reflexivity.
  - intros user arena p.
    assert (Hres : sameButOutcome arena
                     (fst (Prototype.resolveArena mathRandom dateNow user arena p))).
    { replace (fst (Prototype.resolveArena mathRandom dateNow user arena p))
        with (settled arena); [apply settled_sameButOutcome|].
      unfold Prototype.resolveArena, settled.
      destruct (Arena.roasts arena); reflexivity. }
    split; [exact Hres|].
    unfold Prototype.tickArena. fold (due now arena).
    destruct (due now arena).
    + split; [exact Hres|discriminate].
    + split; [apply sameButOutcome_refl|reflexivity].
Qed.

(** ** The handlers that target an arena *)

Lemma submitTo_other arenaId roastData a :
  Arena.id a <> arenaId -> Server.submitTo arenaId roastData a = a.
Proof.
  intro H. unfold Server.submitTo. apply strict_ne_true in H. rewrite H. reflexivity.
Qed.

Lemma stakeIn_other arenaId roastId amount a :
  Arena.id a <> arenaId -> Server.stakeIn arenaId roastId amount a = a.
Proof.
  intro H. unfold Server.stakeIn. apply strict_ne_true in H. rewrite H. reflexivity.
Qed.

Lemma map_unchanged {A : Type} (f : A -> A) (l : list A) :
  (forall a, In a l -> f a = a) -> map f l = l.
Proof.
  induction l as [|a l IH]; simpl; intro H; [reflexivity|].
  rewrite H by (left; reflexivity). rewrite IH; [reflexivity|].
  intros b Hb. apply H. right. exact Hb.
Qed.

(** C2, as the code has it.  The handlers of ['submit-roast'] and
    ['stake-roast'] return nothing and reject nothing; they map the arena
    collection, and of an arena they change at most the entry list, never
    the status.  On an active arena with the given id, ['submit-roast']
    appends the entry at the end of the entry list and ['stake-roast'] adds
    the amount to the [backedStake] of the entries with the given id and
    leaves the other entries as they are; arenas with another id are left
    as they are.  The test of the status is in the client view, which
    renders the two controls exactly for an arena that is active. *)
Theorem C2_amended_handlers_append_and_stake
    arenaId roastData roastId amount userHandle s :
  Server.arenas (Server.on_submit_roast mathRandom dateNow arenaId roastData s)
  = map (Server.submitTo arenaId roastData) (Server.arenas s)
  /\ Server.arenas
       (Server.on_stake_roast mathRandom dateNow numToString
          arenaId roastId amount userHandle s)
     = map (Server.stakeIn arenaId roastId amount) (Server.arenas s)
  /\ (forall a,
        sameButRoasts a (Server.submitTo arenaId roastData a)
        /\ sameButRoasts a (Server.stakeIn arenaId roastId amount a)
        /\ (Arena.id a <> arenaId ->
            Server.submitTo arenaId roastData a = a
            /\ Server.stakeIn arenaId roastId amount a = a)
        /\ (Arena.id a = arenaId -> Arena.status a = active ->
            Arena.roasts (Server.submitTo arenaId roastData a)
            = (Arena.roasts a ++ [roastData])%list
            /\ Arena.roasts (Server.stakeIn arenaId roastId amount a)
               = map (Server.stakeOn roastId amount) (Arena.roasts a))
        /\ (offersControls a = true <-> Arena.status a = active))
  /\ (forall r,
        (RoastEntry.id r = roastId ->
         Server.stakeOn roastId amount r
         = RoastEntry.with_backedStake r (RoastEntry.backedStake r + amount)%Q)
        /\ (RoastEntry.id r <> roastId -> Server.stakeOn roastId amount r = r)).
Proof.
  split; [reflexivity|]. split; [reflexivity|]. split.
  - intro a. split; [|split; [|split; [|split]]].
    + unfold Server.submitTo. destruct (Js.strict_ne (Arena.id a) arenaId);
        unfold sameButRoasts; simpl; repeat split.
    + unfold Server.stakeIn. destruct (Js.strict_ne (Arena.id a) arenaId);
        unfold sameButRoasts; simpl; repeat split.
    + intro H. split; [apply submitTo_other|apply stakeIn_other]; exact H.
    + intros H _. apply strict_ne_false in H.
      unfold Server.submitTo, Server.stakeIn. rewrite H. split; reflexivity.
    + apply Status_eqb_eq.
  - intro r. unfold Server.stakeOn. split; intro H.
    + apply strict_ne_false in H. rewrite H. reflexivity.
    + apply strict_ne_true in H. rewrite H. reflexivity.
Qed.

(** C5, as the code has it.  A ['submit-roast'] or ['stake-roast'] command
    whose arena id is the id of no arena of the store leaves the arena
    collection as it is, but it is not rejected and returns nothing: the
    handler still logs one activity entry and broadcasts the arena
    collection to every client. *)
Theorem C5_amended_unknown_arena arenaId roastData roastId amount userHandle s :
  Forall (fun a => Arena.id a <> arenaId) (Server.arenas s) ->
  let submitted := Server.on_submit_roast mathRandom dateNow arenaId roastData s in
  let staked := Server.on_stake_roast mathRandom dateNow numToString
                  arenaId roastId amount userHandle s in
  let msg1 := RoastEntry.roasterName roastData ++ " entered the arena with a roast." in
  let msg2 := userHandle ++ " staked " ++ numToString amount ++ " MND on a roast!" in
  Server.arenas submitted = Server.arenas s
  /\ Server.arenas staked = Server.arenas s
  /\ Server.emitted submitted
     = (Server.emitted s
        ++ [Server.IoEmit (Server.ActivityUpdate (nextLog msg1 s));
            Server.IoEmit (Server.StateUpdate (Server.arenas s))])%list
  /\ Server.emitted staked
     = (Server.emitted s
        ++ [Server.IoEmit (Server.ActivityUpdate (nextLog msg2 s));
            Server.IoEmit (Server.StateUpdate (Server.arenas s))])%list
  /\ Server.activityLog submitted = nextLog msg1 s :: firstn 14 (Server.activityLog s)
  /\ Server.activityLog staked = nextLog msg2 s :: firstn 14 (Server.activityLog s).
Proof.
  intros H submitted staked msg1 msg2. rewrite Forall_forall in H.
  assert (H1 : map (Server.submitTo arenaId roastData) (Server.arenas s) = Server.arenas s).
  { apply map_unchanged. intros a Ha. apply submitTo_other. exact (H a Ha). }
  assert (H2 : map (Server.stakeIn arenaId roastId amount) (Server.arenas s)
               = Server.arenas s).
  { apply map_unchanged. intros a Ha. apply stakeIn_other. exact (H a Ha). }
  subst submitted staked.
  unfold Server.on_submit_roast, Server.on_stake_roast.
  cbn [Server.emit Server.logActivity Server.set_arenas Server.arenas Server.emitted
       Server.activityLog Server.logged].
  rewrite H1, H2, <- !app_assoc. repeat split.
Qed.

End EngineFacts.

(* ================================================================== *)
(** * The properties at sample inputs *)
(* ================================================================== *)

(** Two entries tied at 0.07: the first one wins at the tick, and is still
    the winner after a run that leaves the resolved arena alone. *)
Lemma C1_witness :
  (exists a' w,
      nth_error (Server.arenas (Server.tick sampleRandom sampleNow 1
                                  (serverWith [mockArena 0 [r1; r2tied]]))) 0 = Some a'
      /\ Arena.winnerRoastId a' = Some (RoastEntry.id w)
      /\ RoastEntry.id w = "r1"
      /\ firstMaximal w (Arena.roasts a'))
  /\ (exists w,
        Some "r1" = Some (RoastEntry.id w)
        /\ firstMaximal w [r1; r2tied]).
Proof.
  split.
  - destruct (proj1 (C1_amended_winner_is_earliest_maximal_when_resolved
                       sampleRandom sampleNow sampleNumToString)
                1 (serverWith [mockArena 0 [r1; r2tied]]) 0%nat
                (mockArena 0 [r1; r2tied]))
      as (a' & w & H1 & _ & _ & H4 & H5 & _);
      [reflexivity|reflexivity|discriminate|].
    exists a', w. repeat split; try assumption.
    vm_compute in H1. injection H1 as <-. vm_compute in H4. injection H4 as H4.
    symmetry. exact H4.
  - destruct (proj2 (C1_amended_winner_is_earliest_maximal_when_resolved
                       sampleRandom sampleNow sampleNumToString)
                [Server.CreateArena mockData "a1" 0; Server.SubmitRoast "a1" r1;
                 Server.SubmitRoast "a1" r2tied; Server.Tick 300000;
                 Server.Join "@bea"]
                Server.init (Forall_nil _))
      with (a := Arena.with_winner (mockArena 300000 [r1; r2tied]) "r1")
      as (w & Hw & Hfm & _).
    + vm_compute. repeat constructor.
    + vm_compute. left. reflexivity.
    + reflexivity.
    + discriminate.
    + exists w. split; [exact Hw|exact Hfm].
Defined.

(** A stake that arrives after the resolution makes the second entry the best
    backed one while the first stays the winner; and an arena that was
    resolved empty takes an entry and keeps no winner. *)
Lemma C1_counterexample :
  let late :=
    Arena.with_winner
      (mockArena 300000
         [r1; RoastEntry.with_backedStake r2 (RoastEntry.backedStake r2 + 0.05)%Q])
      "r1" in
  let unsettled := Arena.with_roasts (Arena.with_resolved (mockArena 300000 [])) [r1] in
  Server.arenas
    (Server.run sampleRandom sampleNow sampleNumToString
       [Server.CreateArena mockData "a1" 0; Server.SubmitRoast "a1" r1;
        Server.SubmitRoast "a1" r2; Server.Tick 300000;
        Server.StakeRoast "a1" "r2" 0.05%Q "@bea"] Server.init)
  = [late]
  /\ Arena.status late = resolved
  /\ Arena.roasts late <> []
  /\ Arena.winnerRoastId late = Some "r1"
  /\ ~ winnerIsBest late
  /\ ~ resolvedWinnerIsBest late
  /\ Server.arenas
       (Server.run sampleRandom sampleNow sampleNumToString
          [Server.CreateArena mockData "a1" 0; Server.Tick 300000;
           Server.SubmitRoast "a1" r1] Server.init)
     = [unsettled]
  /\ Arena.status unsettled = resolved
  /\ Arena.roasts unsettled = [r1]
  /\ Arena.winnerRoastId unsettled = None
  /\ ~ resolvedWinnerIsBest unsettled.
Proof.
  cbv zeta.
  assert (Hlate : ~ winnerIsBest
                      (Arena.with_winner
                         (mockArena 300000
                            [r1; RoastEntry.with_backedStake r2
                                   (RoastEntry.backedStake r2 + 0.05)%Q])
                         "r1")).
  { intros (w & Hw & Hfm). cbn in Hw, Hfm. injection Hw as Hid.
    pose proof (firstMaximal_max _ _ Hfm) as Hmax.
    destruct (firstMaximal_In _ _ Hfm) as [<-|[<-|[]]].
    - specialize (Hmax _ (or_intror (or_introl eq_refl))).
      apply Qle_bool_iff in Hmax. vm_compute in Hmax. discriminate Hmax.
    - discriminate Hid. }
  split; [vm_compute; reflexivity|].
  split; [reflexivity|].
  split; [discriminate|].
  split; [reflexivity|].
  split; [exact Hlate|].
  split; [intro H; apply Hlate; apply H; [reflexivity|discriminate]|].
  split; [vm_compute; reflexivity|].
  split; [reflexivity|].
  split; [reflexivity|].
  split; [reflexivity|].
  intro H. destruct H as (w & Hw & _); [reflexivity|discriminate|].
  discriminate Hw.
Qed.

(** A resolved arena that takes one more entry and one more stake. *)
Lemma C2_counterexample :
  let s0 := Server.run sampleRandom sampleNow sampleNumToString
              [Server.CreateArena mockData "a1" 0; Server.SubmitRoast "a1" r2;
               Server.Tick 300000] Server.init in
  let s1 := Server.on_submit_roast sampleRandom sampleNow "a1" r1 s0 in
  let s2 := Server.on_stake_roast sampleRandom sampleNow sampleNumToString
              "a1" "r2" 0.05%Q "@bea" s0 in
  map Arena.status (Server.arenas s0) = [resolved]
  /\ map (fun a => map RoastEntry.id (Arena.roasts a)) (Server.arenas s0) = [["r2"]]
  /\ map (fun a => map RoastEntry.id (Arena.roasts a)) (Server.arenas s1) = [["r2"; "r1"]]
  /\ map (fun a => map (fun r => Qeq_bool (RoastEntry.backedStake r) 0.04)
                      (Arena.roasts a))
         (Server.arenas s0) = [[true]]
  /\ map (fun a => map (fun r => Qeq_bool (RoastEntry.backedStake r) 0.09)
                      (Arena.roasts a))
         (Server.arenas s2) = [[true]]
  /\ Server.arenas s1 <> Server.arenas s0
  /\ Server.arenas s2 <> Server.arenas s0.
Proof.
  cbv zeta.
  split; [vm_compute; reflexivity|].
  split; [vm_compute; reflexivity|].
  split; [vm_compute; reflexivity|].
  split; [vm_compute; reflexivity|].
  split; [vm_compute; reflexivity|].
  split.
  - intro H.
    apply (f_equal (map (fun a => map RoastEntry.id (Arena.roasts a)))) in H.
    vm_compute in H. discriminate H.
  - intro H.
    apply (f_equal (map (fun a => map (fun r => Qeq_bool (RoastEntry.backedStake r) 0.04)
                                      (Arena.roasts a)))) in H.
    vm_compute in H. discriminate H.
Qed.

Lemma C2_witness :
  Server.arenas (Server.on_submit_roast sampleRandom sampleNow "a1" r2
                   (serverWith [mockArena 0 [r1]]))
  = [mockArena 0 [r1; r2]].
Proof.
  rewrite (proj1 (C2_amended_handlers_append_and_stake sampleRandom sampleNow
                    sampleNumToString "a1" r2 "r1" 0.05%Q "@bea"
                    (serverWith [mockArena 0 [r1]]))).
  reflexivity.
Defined.



(** A resolved arena through a late entry, a tick and a late stake. *)
Lemma C4_witness :
  exists a',
    arenaAt 0 (Server.run sampleRandom sampleNow sampleNumToString
                 [Server.SubmitRoast "a1" r1; Server.Tick 5;
                  Server.StakeRoast "a1" "r1" 0.05%Q "@bea"; Server.Tick 6]
                 (serverWith [Arena.with_resolved (mockArena 0 [])])) = Some a'
    /\ Arena.status a' = resolved
    /\ Arena.winnerRoastId a' = None.
Proof.
  destruct (C4_resolved_is_final sampleRandom sampleNow sampleNumToString
              [Server.SubmitRoast "a1" r1; Server.Tick 5;
               Server.StakeRoast "a1" "r1" 0.05%Q "@bea"; Server.Tick 6]
              (serverWith [Arena.with_resolved (mockArena 0 [])]) 0%nat
              (Arena.with_resolved (mockArena 0 [])))
    as (a' & H1 & H2 & _ & H4 & _);
    [reflexivity|reflexivity|].
  exists a'. auto.
Defined.

(** An entry for an arena that does not exist is logged and broadcast. *)
Lemma C5_counterexample :
  let s0 := Server.run sampleRandom sampleNow sampleNumToString
              [Server.CreateArena mockData "a1" 0] Server.init in
  let s1 := Server.on_submit_roast sampleRandom sampleNow "zz" r1 s0 in
  existsb (fun a => String.eqb (Arena.id a) "zz") (Server.arenas s0) = false
  /\ Server.arenas s1 = Server.arenas s0
  /\ stateBroadcasts (skipn (List.length (Server.emitted s0)) (Server.emitted s1))
     = [Server.arenas s0]
  /\ map ActivityLog.message
         (activityBroadcasts (skipn (List.length (Server.emitted s0)) (Server.emitted s1)))
     = ["Sankalp entered the arena with a roast."]
  /\ List.length (Server.activityLog s0) = 1%nat
  /\ List.length (Server.activityLog s1) = 2%nat
  /\ s1 <> s0.
Proof.
  cbv zeta.
  do 6 (split; [vm_compute; reflexivity|]).
  intro H. apply (f_equal (fun s => List.length (Server.activityLog s))) in H.
  vm_compute in H. discriminate H.
Qed.

Lemma C5_witness :
  Server.arenas (Server.on_submit_roast sampleRandom sampleNow "zz" r1
                   (serverWith [mockArena 0 []]))
  = [mockArena 0 []]
  /\ stateBroadcasts
       (Server.emitted (Server.on_submit_roast sampleRandom sampleNow "zz" r1
                          (serverWith [mockArena 0 []])))
     = [[mockArena 0 []]].
Proof.
  destruct (C5_amended_unknown_arena sampleRandom sampleNow sampleNumToString
              "zz" r1 "r1" 0.05%Q "@bea" (serverWith [mockArena 0 []]))
    as (H1 & _ & H3 & _).
  - constructor; [discriminate|constructor].
  - split; [exact H1|]. rewrite H3. reflexivity.
Defined.

(** C6, at an input where the client and the server part.  Bea logs in with
    10 MND and stakes 0.05 on the first entry of an arena; at the deadline
    this entry wins with a backed total [W = 0.05], all of it hers, against
    a losing pool [L = 0.05], so that her share is
    [0.05 + (0.05 / 0.05) * 0.9 * 0.05], more than nothing.  Her client
    recorded the backing in [myBackedAmount] at the click, but the
    broadcast that follows her stake replaces the arenas of the client by
    those of the server, which carry [myBackedAmount = 0]; when the arena is
    resolved the client does run [processPayout], on the arena of the
    server, and the payout it computes is 0: nothing is credited, her
    balance stays at 9.95.  [processPayout] itself computes the share when
    the arena carries her backing, and the prototype, where the stake and
    the resolution work on the same arenas, credits the share of its
    backer. *)
Theorem C6_backer_of_the_winner_is_paid_nothing :
  App.currentUser beaLoggedIn = Some backer
  /\ App.sent beaBacked
     = [App.EmitJoin "@bea"; App.EmitStakeRoast "a1" "e1" 0.05%Q "@bea"]
  /\ (balanceOf (App.currentUser beaBacked) == 9.95)%Q
  /\ map (fun a => map (fun r => Qeq_bool (RoastEntry.myBackedAmount r) 0.05)
                       (Arena.roasts a))
         (App.arenas beaBacked) = [[true; false]]
  /\ App.arenas beaTold = Server.arenas staked
  /\ map (fun a => map (fun r => Qeq_bool (RoastEntry.myBackedAmount r) 0)
                       (Arena.roasts a))
         (App.arenas beaTold) = [[true; true]]
  /\ map Arena.status (Server.arenas staked) = [active]
  /\ map Arena.status (Server.arenas closed) = [resolved]
  /\ map Arena.winnerRoastId (Server.arenas closed) = [Some "e1"]
  /\ map (fun a => map (fun r => Qeq_bool (RoastEntry.backedStake r) 0.05)
                       (Arena.roasts a))
         (Server.arenas closed) = [[true; true]]
  /\ map (fun a => Qeq_bool (losingBackingPool (Arena.roasts a)
                               (hd r1 (Arena.roasts a))) 0.05)
         (Server.arenas closed) = [true]
  /\ map (App.justResolved (App.prevArenas beaTold)) (Server.arenas closed) = [true]
  /\ map (fun a => option_map (fun p => Qeq_bool p 0)
                     (Client.payoutOf (App.currentUser beaTold) a))
         (Server.arenas closed) = [Some true]
  /\ App.arenas beaSettled = Server.arenas closed
  /\ App.currentUser beaSettled = App.currentUser beaTold
  /\ (balanceOf (App.currentUser beaSettled) == 9.95)%Q
  /\ (0 < backerShare 0.05 0.05 0.05)%Q
  /\ map (fun a =>
            option_map (fun p => Qeq_bool p (backerShare 0.05 0.05 0.05))
              (Client.payoutOf (App.currentUser beaTold)
                 (Arena.with_roasts a
                    (map (App.markBacked "e1" 0.05) (Arena.roasts a)))))
         (Server.arenas closed) = [Some true]
  /\ (balanceOf (Prototype.currentUser (ProtoApp.core protoSettled))
      == 10 - 0.05 + backerShare 0.05 0.12 0.04)%Q.
Proof.
  repeat split; vm_compute; reflexivity.
Qed.

(** A tick before the deadline. *)
Lemma C7_witness :
  Server.tick sampleRandom sampleNow 1 (serverWith [mockArena 300000 [r1; r2]])
  = serverWith [mockArena 300000 [r1; r2]].
Proof.
  apply (C7_tick_resolves_all_and_broadcasts_once sampleRandom sampleNow 1
           (serverWith [mockArena 300000 [r1; r2]])).
  reflexivity.
Defined.

(** Sixteen joins: the log holds the last fifteen, the newest in front. *)
Lemma C9_witness :
  let s := Server.run sampleRandom sampleNow sampleNumToString
             (map Server.Join
                ["@1"; "@2"; "@3"; "@4"; "@5"; "@6"; "@7"; "@8"; "@9"; "@10"; "@11";
                 "@12"; "@13"; "@14"; "@15"; "@16"]) Server.init in
  List.length (Server.activityLog s) = 15%nat
  /\ map ActivityLog.message (firstn 1 (Server.activityLog s)) = ["@16 joined the room."]
  /\ exists out,
       Server.emitted s = (Server.emitted Server.init ++ out)%list
       /\ Server.activityLog s
          = firstn 15 (rev (activityBroadcasts out) ++ Server.activityLog Server.init).
Proof.
  cbv zeta.
  split; [vm_compute; reflexivity|]. split; [vm_compute; reflexivity|].
  destruct (C9_activity_log_bounded_newest_first sampleRandom sampleNow sampleNumToString
              (map Server.Join
                 ["@1"; "@2"; "@3"; "@4"; "@5"; "@6"; "@7"; "@8"; "@9"; "@10"; "@11";
                  "@12"; "@13"; "@14"; "@15"; "@16"]) Server.init)
    as (out & He & _ & Hl & _).
  - cbn. lia.
  - exists out. split; [exact He|exact Hl].
Defined.

Lemma C10_witness :
  Forall2 (fun a a' =>
             sameButOutcome a a'
             /\ (due 300000 a = false -> a' = a)
             /\ (Arena.roasts a = [] -> Arena.winnerRoastId a' = Arena.winnerRoastId a))
          [mockArena 300000 [r1; r2]; mockArena 300001 []]
          (Server.arenas (Server.tick sampleRandom sampleNow 300000
                            (serverWith [mockArena 300000 [r1; r2]; mockArena 300001 []]))).
Proof.
  exact (proj1 (C10_resolution_frame sampleRandom sampleNow 300000
                  (serverWith [mockArena 300000 [r1; r2]; mockArena 300001 []]))).
Defined.

(* ================================================================== *)
(** * Further properties of the server *)
(* ================================================================== *)

(** X1. A connection changes nothing in the store and broadcasts nothing: the
    connecting socket alone is sent the current arena collection first and
    then the first 10 entries of the activity log, newest first, that is at
    most 11 messages. *)
Theorem connection_replays_to_the_new_socket_only (s : Server.t) :
  exists ms : list Server.Message,
    Server.emitted (Server.on_connection s)
    = (Server.emitted s ++ map Server.SocketEmit ms)%list
    /\ ms = Server.StateUpdate (Server.arenas s)
            :: map Server.ActivityUpdate (firstn 10 (Server.activityLog s))
    /\ (List.length ms <= 11)%nat
    /\ stateBroadcasts (map Server.SocketEmit ms) = []
    /\ activityBroadcasts (map Server.SocketEmit ms) = []
    /\ Server.arenas (Server.on_connection s) = Server.arenas s
    /\ Server.activityLog (Server.on_connection s) = Server.activityLog s
    /\ Server.logged (Server.on_connection s) = Server.logged s.
Proof.
  eexists. rewrite on_connection_eq. cbn [Server.emitted Server.arenas
    Server.activityLog Server.logged].
  split; [|split; [reflexivity|]].
  - cbn [map]. rewrite map_map. reflexivity.
  - split.
    + cbn [List.length]. rewrite length_map, length_firstn. lia.
    + split; [apply stateBroadcasts_socket|].
      split; [apply activityBroadcasts_socket|]. repeat split.
Qed.

Section RunFacts.

Local Arguments firstn : simpl never.

Variable mathRandom : nat -> string.
Variable dateNow : nat -> Z.
Variable numToString : Q -> string.

Local Abbreviation logActivity := (Server.logActivity mathRandom dateNow).
Local Abbreviation logAll := (Server.logAll mathRandom dateNow).
Local Abbreviation newLogs := (Server.newLogs mathRandom dateNow).
Local Abbreviation tick := (Server.tick mathRandom dateNow).
Local Abbreviation step := (Server.step mathRandom dateNow numToString).
Local Abbreviation run := (Server.run mathRandom dateNow numToString).

(** ** What the clients were told *)

Lemma toldArenas_emit_state (pre : list Server.Emit) l :
  last (stateBroadcasts (pre ++ [Server.IoEmit (Server.StateUpdate l)])) [] = l.
Proof.
  rewrite stateBroadcasts_app. simpl. apply last_last.
Qed.

Lemma toldArenas_step s c : toldArenas s -> toldArenas (step s c).
Proof.
  unfold toldArenas. intro H.
  destruct c as [now| |userHandle|arenaData newId now|arenaId roastData
                |arenaId roastId amount userHandle]; cbn [Server.step].
  - destruct (existsb (due now) (Server.arenas s)) eqn:E.
    + rewrite (tick_emitted mathRandom dateNow), E, app_assoc.
      apply toldArenas_emit_state.
    + rewrite (tick_idle mathRandom dateNow) by exact E. exact H.
  - rewrite on_connection_eq. cbn [Server.emitted Server.arenas].
    rewrite stateBroadcasts_app. cbn [stateBroadcasts].
    rewrite stateBroadcasts_backlog, app_nil_r. exact H.
  - unfold Server.on_join. cbn [Server.logActivity Server.emitted Server.arenas].
    rewrite stateBroadcasts_app. simpl. rewrite app_nil_r. exact H.
  - apply toldArenas_emit_state.
  - apply toldArenas_emit_state.
  - apply toldArenas_emit_state.
Qed.

(** X2. In every state the server reaches, the arena collection of the last
    ['state-update'] it broadcast is the arena collection it holds: no
    command and no tick changes the arenas without telling every client. *)
Theorem last_broadcast_is_the_store (cs : list Server.Command) :
  last (stateBroadcasts (Server.emitted (run cs Server.init))) []
  = Server.arenas (run cs Server.init).
Proof.
  change (toldArenas (run cs Server.init)).
  assert (H : forall s, toldArenas s -> toldArenas (run cs s)).
  { induction cs as [|c cs IH]; intros s Hs; [exact Hs|].
    apply (IH (step s c)). apply toldArenas_step. exact Hs. }
  apply H. reflexivity.
Qed.

Lemma logIsRecent_logActivity msg s : logIsRecent s -> logIsRecent (logActivity msg s).
Proof.
  unfold logIsRecent. intros [Hl Hn].
  cbn [Server.logActivity Server.activityLog Server.emitted Server.logged].
  rewrite activityBroadcasts_app. cbn [activityBroadcasts].
  rewrite rev_app_distr, length_app. cbn [rev app List.length]. split; [|lia].
  unfold Js.slice0. rewrite Hl.
  change (firstn 15 (?x :: ?l)) with (x :: firstn 14 l).
  rewrite firstn_firstn. reflexivity.
Qed.

Lemma logIsRecent_logAll msgs : forall s, logIsRecent s -> logIsRecent (logAll msgs s).
Proof.
  induction msgs as [|m msgs IH]; intros s H; [exact H|].
  apply (IH (logActivity m s)). apply logIsRecent_logActivity. exact H.
Qed.

Lemma logIsRecent_emit_state l s :
  logIsRecent s -> logIsRecent (Server.emit (Server.IoEmit (Server.StateUpdate l)) s).
Proof.
  unfold logIsRecent. cbn [Server.emit Server.activityLog Server.emitted Server.logged].
  rewrite activityBroadcasts_app. cbn [activityBroadcasts]. rewrite app_nil_r. auto.
Qed.

Lemma logIsRecent_set_arenas l s : logIsRecent s -> logIsRecent (Server.set_arenas l s).
Proof. unfold logIsRecent. auto. Qed.

Lemma logIsRecent_step s c : logIsRecent s -> logIsRecent (step s c).
Proof.
  intro H.
  destruct c as [now| |userHandle|arenaData newId now|arenaId roastData
                |arenaId roastId amount userHandle]; cbn [Server.step].
  - rewrite (tick_eq mathRandom dateNow). cbv zeta.
    destruct (existsb (due now) (Server.arenas s)).
    + apply logIsRecent_emit_state, logIsRecent_set_arenas, logIsRecent_logAll, H.
    + apply logIsRecent_set_arenas, logIsRecent_logAll, H.
  - unfold logIsRecent. rewrite on_connection_eq.
    cbn [Server.activityLog Server.emitted Server.logged].
    rewrite activityBroadcasts_app. cbn [activityBroadcasts].
    rewrite activityBroadcasts_backlog, app_nil_r. exact H.
  - apply logIsRecent_logActivity, H.
  - apply logIsRecent_emit_state, logIsRecent_logActivity, logIsRecent_set_arenas, H.
  - apply logIsRecent_emit_state, logIsRecent_logActivity, logIsRecent_set_arenas, H.
  - apply logIsRecent_emit_state, logIsRecent_logActivity, logIsRecent_set_arenas, H.
Qed.

(** X3. In every state the server reaches, the activity log is exactly the 15
    most recent of the activity entries broadcast so far, newest first, and
    every entry that [logActivity] created was broadcast once: the number of
    entries created is the number of ['activity-update'] broadcasts. *)
Theorem activity_log_is_the_recent_broadcasts (cs : list Server.Command) :
  let s := run cs Server.init in
  Server.activityLog s = firstn 15 (rev (activityBroadcasts (Server.emitted s)))
  /\ Server.logged s = List.length (activityBroadcasts (Server.emitted s)).
Proof.
  cbv zeta. change (logIsRecent (run cs Server.init)).
  assert (H : forall s, logIsRecent s -> logIsRecent (run cs s)).
  { induction cs as [|c cs IH]; intros s Hs; [exact Hs|].
    apply (IH (step s c)). apply logIsRecent_step. exact Hs. }
  apply H. split; reflexivity.
Qed.

(** ** Arenas are never removed *)

Lemma step_arenas_length s c :
  List.length (Server.arenas (step s c))
  = (List.length (Server.arenas s) + createCount [c])%nat.
Proof.
  destruct c as [now| |userHandle|arenaData newId now|arenaId roastData
                |arenaId roastId amount userHandle]; cbn [Server.step createCount].
  - rewrite (tick_arenas mathRandom dateNow), length_map. lia.
  - rewrite on_connection_eq. cbn. lia.
  - cbn. lia.
  - cbn. lia.
  - cbn. rewrite length_map. lia.
  - cbn. rewrite length_map. lia.
Qed.

Lemma createCount_cons c cs : createCount (c :: cs) = (createCount [c] + createCount cs)%nat.
Proof. destruct c; reflexivity. Qed.

(** X4. No command and no tick removes an arena: after a run the store holds
    the arenas it held before, in their places counted from the back, and
    one more for every ['create-arena'] of the run. *)
Theorem arenas_are_never_removed (cs : list Server.Command) (s : Server.t) :
  List.length (Server.arenas (run cs s))
  = (List.length (Server.arenas s) + createCount cs)%nat
  /\ (forall k, (k < List.length (Server.arenas s))%nat ->
       exists a a', arenaAt k s = Some a /\ arenaAt k (run cs s) = Some a'
                    /\ Arena.id a' = Arena.id a).
Proof.
  split.
  - revert s. induction cs as [|c cs IH]; intro s; cbn [Server.run fold_left].
    + simpl. lia.
    + change (fold_left step cs (step s c)) with (run cs (step s c)).
      rewrite IH, step_arenas_length, (createCount_cons c cs). lia.
  - intros k Hk.
    destruct (nth_error (rev (Server.arenas s)) k) as [a|] eqn:E.
    + destruct (run_arenaAt mathRandom dateNow numToString cs s k a E)
        as (a' & Ha' & Hi & _).
      exists a, a'. auto.
    + apply nth_error_None in E. rewrite length_rev in E. lia.
Qed.

(** ** Entries are only added, and only their backed stake changes *)

Lemma sameButBacked_refl r : sameButBacked r r.
Proof. unfold sameButBacked. repeat split. Qed.

Lemma sameButBacked_trans r1 r2 r3 :
  sameButBacked r1 r2 -> sameButBacked r2 r3 -> sameButBacked r1 r3.
Proof.
  unfold sameButBacked.
  intros (A1 & A2 & A3 & A4 & A5 & A6) (B1 & B2 & B3 & B4 & B5 & B6).
  repeat split; congruence.
Qed.

Lemma Forall2_sameButBacked_refl l : Forall2 sameButBacked l l.
Proof. induction l; constructor; auto using sameButBacked_refl. Qed.

Lemma Forall2_sameButBacked_trans l1 : forall l2 l3,
  Forall2 sameButBacked l1 l2 -> Forall2 sameButBacked l2 l3 ->
  Forall2 sameButBacked l1 l3.
Proof.
  induction l1 as [|r l1 IH]; intros l2 l3 H12 H23.
  - inversion H12; subst. inversion H23; subst. constructor.
  - inversion H12 as [|? r2 ? l2' Hr Hl]; subst.
    inversion H23 as [|? r3 ? l3' Hr' Hl']; subst.
    constructor; [eapply sameButBacked_trans; eassumption|].
    eapply IH; eassumption.
Qed.

Lemma extends_refl l : extends l l.
Proof.
  exists l, []. rewrite app_nil_r. split; [reflexivity|apply Forall2_sameButBacked_refl].
Qed.

Lemma extends_trans l1 l2 l3 : extends l1 l2 -> extends l2 l3 -> extends l1 l3.
Proof.
  intros (k1 & a1 & -> & H1) (k2 & a2 & -> & H2).
  apply Forall2_app_inv_l in H2. destruct H2 as (k21 & k22 & Hk & Ha & ->).
  exists k21, (k22 ++ a2)%list. split; [rewrite app_assoc; reflexivity|].
  eapply Forall2_sameButBacked_trans; eassumption.
Qed.

Lemma persists_refl a : persists a a.
Proof. unfold persists. repeat split. apply extends_refl. Qed.

Lemma persists_trans a b c : persists a b -> persists b c -> persists a c.
Proof.
  unfold persists.
  intros (A1 & A2 & A3 & A4 & A5 & A6 & A7 & A8 & A9)
         (B1 & B2 & B3 & B4 & B5 & B6 & B7 & B8 & B9).
  repeat split; try congruence. eapply extends_trans; eassumption.
Qed.

Lemma persists_afterTick now a : persists a (afterTick now a).
Proof.
  unfold afterTick. destruct (due now a); [|apply persists_refl].
  destruct (settled_sameButOutcome a) as (H1 & H2 & H3 & H4 & H5 & H6 & H7 & H8 & H9).
  unfold persists. repeat split; try assumption. rewrite H9. apply extends_refl.
Qed.

Lemma persists_submitTo arenaId roastData a :
  persists a (Server.submitTo arenaId roastData a).
Proof.
  unfold Server.submitTo. destruct (Js.strict_ne (Arena.id a) arenaId);
    [apply persists_refl|].
  unfold persists. cbn. repeat split.
  exists (Arena.roasts a), [roastData].
  split; [reflexivity|apply Forall2_sameButBacked_refl].
Qed.

Lemma sameButBacked_stakeOn roastId amount r :
  sameButBacked r (Server.stakeOn roastId amount r).
Proof.
  unfold Server.stakeOn. destruct (Js.strict_ne (RoastEntry.id r) roastId);
    [apply sameButBacked_refl|].
  unfold sameButBacked. cbn. repeat split.
Qed.

Lemma persists_stakeIn arenaId roastId amount a :
  persists a (Server.stakeIn arenaId roastId amount a).
Proof.
  unfold Server.stakeIn. destruct (Js.strict_ne (Arena.id a) arenaId);
    [apply persists_refl|].
  unfold persists. cbn. repeat split.
  exists (map (Server.stakeOn roastId amount) (Arena.roasts a)), [].
  rewrite app_nil_r. split; [reflexivity|].
  induction (Arena.roasts a); constructor; auto using sameButBacked_stakeOn.
Qed.

Lemma step_arenas_persist s c :
  exists (pre : list Arena.t) (f : Arena.t -> Arena.t),
    Server.arenas (step s c) = (pre ++ map f (Server.arenas s))%list
    /\ forall a, persists a (f a).
Proof.
  destruct c as [now| |userHandle|arenaData newId now|arenaId roastData
                |arenaId roastId amount userHandle]; cbn [Server.step].
  - exists [], (afterTick now).
    split; [apply (tick_arenas mathRandom dateNow)|apply persists_afterTick].
  - exists [], (fun a => a). rewrite on_connection_eq, map_id.
    split; [reflexivity|apply persists_refl].
  - exists [], (fun a => a). rewrite map_id. split; [reflexivity|apply persists_refl].
  - eexists [_], (fun a => a). rewrite map_id. split; [reflexivity|apply persists_refl].
  - exists [], (Server.submitTo arenaId roastData).
    split; [reflexivity|apply persists_submitTo].
  - exists [], (Server.stakeIn arenaId roastId amount).
    split; [reflexivity|apply persists_stakeIn].
Qed.

Lemma run_persists cs : forall s k a,
  arenaAt k s = Some a ->
  exists a', arenaAt k (run cs s) = Some a' /\ persists a a'.
Proof.
  induction cs as [|c cs IH]; intros s k a H.
  - exists a. split; [exact H|apply persists_refl].
  - assert (H1 : exists a1, arenaAt k (step s c) = Some a1 /\ persists a a1).
    { unfold arenaAt in *.
      destruct (step_arenas_persist s c) as (pre & f & -> & Hf).
      rewrite rev_app_distr, <- map_rev. exists (f a). split; [|apply Hf].
      rewrite nth_error_app1.
      - apply map_nth_error. exact H.
      - rewrite length_map. apply nth_error_Some. congruence. }
    destruct H1 as (a1 & H1 & P1).
    destruct (IH (step s c) k a1 H1) as (a2 & H2 & P2).
    exists a2. split; [exact H2|]. eapply persists_trans; eassumption.
Qed.

(** X5. The entry list of an arena is append-only across every run of the
    server: the entries the arena had are still there, in their order and at
    the front, each with the id, the roaster, the text, the entry stake and
    the [myBackedAmount] it had (only [backedStake] may differ), and the
    poster, the text and the stake of the arena are those of before. *)
Theorem entries_are_append_only cs s k a :
  arenaAt k s = Some a ->
  exists a' kept added,
    arenaAt k (run cs s) = Some a'
    /\ Arena.roasts a' = (kept ++ added)%list
    /\ Forall2 sameButBacked (Arena.roasts a) kept
    /\ map RoastEntry.id (firstn (List.length (Arena.roasts a)) (Arena.roasts a'))
       = map RoastEntry.id (Arena.roasts a)
    /\ (List.length (Arena.roasts a) <= List.length (Arena.roasts a'))%nat
    /\ Arena.opId a' = Arena.opId a
    /\ Arena.opHandle a' = Arena.opHandle a
    /\ Arena.text a' = Arena.text a
    /\ Arena.stake a' = Arena.stake a.
Proof.
  intro H. destruct (run_persists cs s k a H)
    as (a' & Ha' & _ & P2 & _ & P4 & _ & P6 & P7 & _ & (kept & added & Hr & Hk)).
  exists a', kept, added. split; [exact Ha'|]. split; [exact Hr|]. split; [exact Hk|].
  assert (Hlen : List.length kept = List.length (Arena.roasts a)).
  { symmetry. eapply Forall2_length. exact Hk. }
  split.
  { rewrite Hr, <- Hlen, firstn_app, Nat.sub_diag, firstn_all. cbn [firstn].
    rewrite app_nil_r. clear -Hk.
    induction Hk as [|r r' l l' Hr _ IH]; [reflexivity|].
    cbn [map]. rewrite IH. destruct Hr as (-> & _). reflexivity. }
  split; [rewrite Hr, length_app; lia|].
  repeat split; assumption.
Qed.

(** ** The winner of a resolved arena is one of its entries *)

Lemma findRoast_exists w l :
  (exists r, In r l /\ RoastEntry.id r = w) ->
  exists r', findRoast w l = Some r' /\ In r' l /\ RoastEntry.id r' = w.
Proof.
  intros (r & Hin & Hid). unfold findRoast.
  destruct (find (fun r0 => String.eqb (RoastEntry.id r0) w) l) as [r'|] eqn:E.
  - apply find_some in E. destruct E as [Hin' Heq]. apply String.eqb_eq in Heq.
    exists r'. auto.
  - exfalso. pose proof (find_none _ _ E r Hin) as Hn. cbv beta in Hn.
    rewrite Hid, String.eqb_refl in Hn. discriminate.
Qed.

Lemma winnerKnown_afterTick now a : winnerKnown a -> winnerKnown (afterTick now a).
Proof.
  unfold afterTick. destruct (due now a); [|auto].
  unfold settled, winnerKnown. intro H.
  destruct (Arena.roasts a) as [|first rest] eqn:E; cbn; rewrite ?E.
  - exact H.
  - intros w Hw. injection Hw as <-.
    exists (Js.reduce pickWinner first rest). split; [|reflexivity].
    apply firstMaximal_In, reduce_pickWinner_firstMaximal.
Qed.

Lemma winnerKnown_submitTo arenaId roastData a :
  winnerKnown a -> winnerKnown (Server.submitTo arenaId roastData a).
Proof.
  unfold Server.submitTo. destruct (Js.strict_ne (Arena.id a) arenaId); [auto|].
  unfold winnerKnown. cbn. intros H w Hw. destruct (H w Hw) as (r & Hin & Hid).
  exists r. split; [apply in_or_app; left; exact Hin|exact Hid].
Qed.

Lemma winnerKnown_stakeIn arenaId roastId amount a :
  winnerKnown a -> winnerKnown (Server.stakeIn arenaId roastId amount a).
Proof.
  unfold Server.stakeIn. destruct (Js.strict_ne (Arena.id a) arenaId); [auto|].
  unfold winnerKnown. cbn. intros H w Hw. destruct (H w Hw) as (r & Hin & Hid).
  exists (Server.stakeOn roastId amount r). split; [apply in_map; exact Hin|].
  destruct (sameButBacked_stakeOn roastId amount r) as (-> & _). exact Hid.
Qed.

Lemma step_winnerKnown s c :
  createsUnsettled c ->
  Forall winnerKnown (Server.arenas s) -> Forall winnerKnown (Server.arenas (step s c)).
Proof.
  intros Hc H.
  destruct c as [now| |userHandle|arenaData newId now|arenaId roastData
                |arenaId roastId amount userHandle]; cbn [Server.step].
  - rewrite (tick_arenas mathRandom dateNow). apply Forall_map.
    eapply Forall_impl; [|exact H]. intros a. apply winnerKnown_afterTick.
  - rewrite on_connection_eq. exact H.
  - exact H.
  - constructor; [|exact H]. intros w Hw. cbn in Hc, Hw.
    rewrite Hc in Hw. discriminate Hw.
  - cbn. apply Forall_map. eapply Forall_impl; [|exact H].
    intros a. apply winnerKnown_submitTo.
  - cbn. apply Forall_map. eapply Forall_impl; [|exact H].
    intros a. apply winnerKnown_stakeIn.
Qed.

Lemma run_winnerKnown cs : forall s,
  Forall createsUnsettled cs ->
  Forall winnerKnown (Server.arenas s) -> Forall winnerKnown (Server.arenas (run cs s)).
Proof.
  induction cs as [|c cs IH]; intros s Hcs H; [exact H|].
  inversion Hcs as [|? ? Hc Hcs']; subst.
  apply (IH (step s c)); [exact Hcs'|]. apply step_winnerKnown; assumption.
Qed.

(** X6. When the payloads of ['create-arena'] carry no [winnerRoastId], as
    the payload of [handleCreateArena] carries none, then in every state the
    server reaches an arena that has a [winnerRoastId] is resolved and the
    id is the id of one of its entries, so that the lookup of
    [processPayout] ([roasts.find]) finds a winner in every arena the server
    broadcasts with one.  (The handler keeps a [winnerRoastId] that the
    payload carries, lines 74-81: without the condition an active arena can
    name a winner that is no entry.) *)
Theorem winner_is_always_an_entry cs a w :
  Forall createsUnsettled cs ->
  In a (Server.arenas (run cs Server.init)) ->
  Arena.winnerRoastId a = Some w ->
  Arena.status a = resolved
  /\ exists r, findRoast w (Arena.roasts a) = Some r
               /\ In r (Arena.roasts a)
               /\ RoastEntry.id r = w.
Proof.
  intros Hcs Hin Hw. split.
  - pose proof (run_activeUnsettled mathRandom dateNow numToString cs Server.init
                  Hcs (Forall_nil _)) as Hu.
    rewrite Forall_forall in Hu. specialize (Hu a Hin). unfold activeUnsettled in Hu.
    destruct (Arena.status a); [|reflexivity].
    rewrite Hu in Hw by reflexivity. discriminate Hw.
  - apply findRoast_exists.
    pose proof (run_winnerKnown cs Server.init Hcs (Forall_nil _)) as Hk.
    rewrite Forall_forall in Hk. exact (Hk a Hin w Hw).
Qed.

(** ** The server never records who backed an entry *)

Lemma unbacked_afterTick now a : unbacked a -> unbacked (afterTick now a).
Proof.
  unfold unbacked, afterTick. destruct (due now a); [|auto].
  destruct (settled_sameButOutcome a) as (_ & _ & _ & _ & _ & _ & _ & _ & ->). auto.
Qed.

Lemma unbacked_submitTo arenaId roastData a :
  (RoastEntry.myBackedAmount roastData == 0)%Q ->
  unbacked a -> unbacked (Server.submitTo arenaId roastData a).
Proof.
  unfold Server.submitTo. destruct (Js.strict_ne (Arena.id a) arenaId); [auto|].
  unfold unbacked. cbn. intros H0 H. apply Forall_app. split; [exact H|].
  constructor; [exact H0|constructor].
Qed.

Lemma unbacked_stakeIn arenaId roastId amount a :
  unbacked a -> unbacked (Server.stakeIn arenaId roastId amount a).
Proof.
  unfold Server.stakeIn. destruct (Js.strict_ne (Arena.id a) arenaId); [auto|].
  unfold unbacked. cbn. intro H. apply Forall_map.
  eapply Forall_impl; [|exact H]. intros r Hr.
  destruct (sameButBacked_stakeOn roastId amount r) as (_ & _ & _ & _ & _ & ->).
  exact Hr.
Qed.

Lemma step_unbacked s c :
  submitsUnbacked c ->
  Forall unbacked (Server.arenas s) -> Forall unbacked (Server.arenas (step s c)).
Proof.
  intros Hc H.
  destruct c as [now| |userHandle|arenaData newId now|arenaId roastData
                |arenaId roastId amount userHandle]; cbn [Server.step].
  - rewrite (tick_arenas mathRandom dateNow). apply Forall_map.
    eapply Forall_impl; [|exact H]. intros a. apply unbacked_afterTick.
  - rewrite on_connection_eq. exact H.
  - exact H.
  - constructor; [constructor|exact H].
  - cbn. apply Forall_map. eapply Forall_impl; [|exact H].
    intros a. apply unbacked_submitTo. exact Hc.
  - cbn. apply Forall_map. eapply Forall_impl; [|exact H].
    intros a. apply unbacked_stakeIn.
Qed.

Lemma run_unbacked cs : forall s,
  Forall submitsUnbacked cs ->
  Forall unbacked (Server.arenas s) -> Forall unbacked (Server.arenas (run cs s)).
Proof.
  induction cs as [|c cs IH]; intros s Hcs H; [exact H|].
  inversion Hcs as [|? ? Hc Hcs']; subst.
  apply (IH (step s c)); [exact Hcs'|]. apply step_unbacked; assumption.
Qed.

(** The payout of the client for an arena none of whose entries records a
    backing: the rewards of the roaster and of the poster, and no share. *)
Lemma payoutOf_unbacked user a p :
  unbacked a ->
  Client.payoutOf (Some user) a = Some p ->
  exists w,
    In w (Arena.roasts a)
    /\ Arena.winnerRoastId a = Some (RoastEntry.id w)
    /\ (p == (if String.eqb (RoastEntry.roasterId w) (UserAccount.id user)
              then roasterReward a else 0)
            + (if String.eqb (Arena.opId a) (UserAccount.id user)
               then opReward (losingBackingPool (Arena.roasts a) w)
                      (RoastEntry.backedStake w)
               else 0))%Q.
Proof.
  unfold unbacked, Client.payoutOf. intros Hu.
  destruct (_ || _); [discriminate|].
  destruct (Arena.winnerRoastId a) as [wid|]; [|discriminate].
  destruct (find _ _) as [w|] eqn:E; [|discriminate].
  apply find_some in E. destruct E as [Hin Hid]. apply String.eqb_eq in Hid.
  rewrite Forall_forall in Hu. pose proof (Hu w Hin) as H0.
  assert (Hg : Js.gt (RoastEntry.myBackedAmount w) 0 = false).
  { apply gt_false. rewrite H0. apply Qle_refl. }
  rewrite Hg. cbn [andb]. intro Hp. injection Hp as <-.
  exists w. split; [exact Hin|]. split; [rewrite Hid; reflexivity|].
  unfold roasterReward, opReward.
  destruct (String.eqb (RoastEntry.roasterId w) (UserAccount.id user));
    destruct (String.eqb (Arena.opId a) (UserAccount.id user)); ring.
Qed.

(** X7. The server never writes [myBackedAmount]: when every submitted entry
    carries [myBackedAmount = 0], as the payload of [handleSubmitRoast]
    does, every entry of every arena the server holds has
    [myBackedAmount = 0] whatever was staked, and [processPayout] applied to
    such an arena pays no backer's share: its payout is the roaster's reward
    and the poster's reward only, and a user who is neither is paid
    nothing. *)
Theorem server_arenas_pay_no_backer_share cs a user :
  Forall submitsUnbacked cs ->
  In a (Server.arenas (run cs Server.init)) ->
  Forall (fun r => (RoastEntry.myBackedAmount r == 0)%Q) (Arena.roasts a)
  /\ (forall p,
        Client.payoutOf (Some user) a = Some p ->
        exists w,
          In w (Arena.roasts a)
          /\ Arena.winnerRoastId a = Some (RoastEntry.id w)
          /\ (p == (if String.eqb (RoastEntry.roasterId w) (UserAccount.id user)
                    then roasterReward a else 0)
                  + (if String.eqb (Arena.opId a) (UserAccount.id user)
                     then opReward (losingBackingPool (Arena.roasts a) w)
                            (RoastEntry.backedStake w)
                     else 0))%Q)
  /\ ((forall r, In r (Arena.roasts a) ->
                 String.eqb (RoastEntry.roasterId r) (UserAccount.id user) = false) ->
      String.eqb (Arena.opId a) (UserAccount.id user) = false ->
      forall prev, Client.processPayout (Some user) a prev = prev).
Proof.
  intros Hcs Hin.
  pose proof (run_unbacked cs Server.init Hcs (Forall_nil _)) as Hu.
  rewrite Forall_forall in Hu. specialize (Hu a Hin).
  split; [exact Hu|]. split.
  - intros p Hp. exact (payoutOf_unbacked user a p Hu Hp).
  - intros Hr Ho prev. unfold Client.processPayout.
    destruct (Client.payoutOf (Some user) a) as [p|] eqn:Hp; [|reflexivity].
    destruct (payoutOf_unbacked user a p Hu Hp) as (w & Hw & _ & Heq).
    rewrite (Hr w Hw), Ho in Heq.
    assert (Hg : Js.gt p 0 = false).
    { apply gt_false. rewrite Heq. discriminate. }
    rewrite Hg. reflexivity.
Qed.

End RunFacts.

(* ================================================================== *)
(** * Pools and payouts *)
(* ================================================================== *)

(** A sum that starts at [acc] is [acc] plus the sum that starts at 0. *)
Lemma fold_sum_shift {A : Type} (f : Q -> A -> Q) (g : A -> Q) :
  (forall acc x, f acc x == acc + g x)%Q ->
  forall l acc, (fold_left f l acc == acc + fold_left f l 0)%Q.
Proof.
  intros Hf l. induction l as [|x l IH]; intro acc; cbn [fold_left].
  - ring.
  - rewrite (IH (f acc x)), (IH (f 0%Q x)), !Hf. ring.
Qed.

Lemma totalBacked_cons r l :
  (totalBacked (r :: l) == RoastEntry.backedStake r + totalBacked l)%Q.
Proof.
  unfold totalBacked. cbn [fold_left].
  rewrite (fold_sum_shift _ RoastEntry.backedStake) by (intros; reflexivity). ring.
Qed.

Lemma losingBackingPool_cons r l w :
  (losingBackingPool (r :: l) w
   == (if Js.strict_ne (RoastEntry.id r) (RoastEntry.id w)
       then RoastEntry.backedStake r else 0)
      + losingBackingPool l w)%Q.
Proof.
  unfold losingBackingPool. cbn [filter].
  destruct (Js.strict_ne (RoastEntry.id r) (RoastEntry.id w)); cbn [fold_left].
  - rewrite (fold_sum_shift _ RoastEntry.backedStake) by (intros; reflexivity). ring.
  - ring.
Qed.

Lemma losingBackingPool_absent l w :
  ~ In (RoastEntry.id w) (map RoastEntry.id l) ->
  (losingBackingPool l w == totalBacked l)%Q.
Proof.
  induction l as [|r l IH]; intro H.
  - reflexivity.
  - rewrite losingBackingPool_cons, totalBacked_cons.
    assert (Hne : Js.strict_ne (RoastEntry.id r) (RoastEntry.id w) = true).
    { apply strict_ne_true. intro E. apply H. left. exact E. }
    rewrite Hne, IH; [reflexivity|]. intro Hin. apply H. right. exact Hin.
Qed.

(** X8. When the entries of an arena have distinct ids, the losing pool and
    the winning pool add up to the sum of all backed stakes, so that the
    reward of the poster is 5% of everything that was staked on the entries
    of the arena. *)
Theorem pools_add_up_to_the_total (l : list RoastEntry.t) (w : RoastEntry.t) :
  In w l ->
  NoDup (map RoastEntry.id l) ->
  (losingBackingPool l w + RoastEntry.backedStake w == totalBacked l)%Q
  /\ (opReward (losingBackingPool l w) (RoastEntry.backedStake w)
      == 0.05 * totalBacked l)%Q.
Proof.
  intros Hin Hnd.
  assert (H : (losingBackingPool l w + RoastEntry.backedStake w == totalBacked l)%Q).
  { induction l as [|r l IH]; [contradiction|].
    cbn [map] in Hnd. inversion Hnd as [|? ? Hnotin Hnd']; subst.
    rewrite losingBackingPool_cons, totalBacked_cons.
    destruct Hin as [->|Hin].
    - assert (He : Js.strict_ne (RoastEntry.id w) (RoastEntry.id w) = false)
        by (apply strict_ne_false; reflexivity).
      rewrite He, (losingBackingPool_absent l w Hnotin). ring.
    - assert (Hne : Js.strict_ne (RoastEntry.id r) (RoastEntry.id w) = true).
      { apply strict_ne_true. intro E. apply Hnotin. rewrite E.
        apply in_map. exact Hin. }
      rewrite Hne, <- (IH Hin Hnd'). ring. }
  split; [exact H|]. unfold opReward. rewrite H. reflexivity.
Qed.

Lemma poolSum_cons r l :
  (fold_left (fun acc r => acc + RoastEntry.entryStake r + RoastEntry.backedStake r)
     (r :: l) 0
   == RoastEntry.entryStake r + RoastEntry.backedStake r
      + fold_left (fun acc r => acc + RoastEntry.entryStake r + RoastEntry.backedStake r)
          l 0)%Q.
Proof.
  cbn [fold_left].
  rewrite (fold_sum_shift _ (fun r => RoastEntry.entryStake r + RoastEntry.backedStake r)%Q)
    by (intros; ring).
  ring.
Qed.

Lemma countId_cons roastId r l :
  countId roastId (r :: l)
  = ((if String.eqb (RoastEntry.id r) roastId then 1 else 0) + countId roastId l)%nat.
Proof.
  unfold countId. cbn [filter].
  destruct (String.eqb (RoastEntry.id r) roastId); reflexivity.
Qed.

Lemma poolSum_stakeOn roastId amount l :
  (fold_left (fun acc r => acc + RoastEntry.entryStake r + RoastEntry.backedStake r)
     (map (Server.stakeOn roastId amount) l) 0
   == fold_left (fun acc r => acc + RoastEntry.entryStake r + RoastEntry.backedStake r) l 0
      + inject_Z (Z.of_nat (countId roastId l)) * amount)%Q.
Proof.
  induction l as [|r l IH].
  - cbn. ring.
  - cbn [map]. rewrite !poolSum_cons, IH, countId_cons.
    unfold Server.stakeOn, Js.strict_ne.
    destruct (String.eqb (RoastEntry.id r) roastId); cbn [negb].
    + cbn [RoastEntry.with_backedStake RoastEntry.entryStake RoastEntry.backedStake].
      rewrite Nat2Z.inj_add, inject_Z_plus. change (inject_Z (Z.of_nat 1)) with 1%Q. ring.
    + rewrite Nat2Z.inj_add, inject_Z_plus. change (inject_Z (Z.of_nat 0)) with 0%Q. ring.
Qed.

Lemma countId_absent roastId l :
  ~ In roastId (map RoastEntry.id l) -> countId roastId l = 0%nat.
Proof.
  induction l as [|r l IH]; intro H; [reflexivity|].
  rewrite countId_cons, IH by (intro Hin; apply H; right; exact Hin).
  destruct (String.eqb (RoastEntry.id r) roastId) eqn:E; [|reflexivity].
  apply String.eqb_eq in E. exfalso. apply H. left. exact E.
Qed.

Lemma countId_unique roastId l :
  NoDup (map RoastEntry.id l) -> In roastId (map RoastEntry.id l) ->
  countId roastId l = 1%nat.
Proof.
  induction l as [|r l IH]; intros Hnd Hin; [contradiction|].
  cbn [map] in Hnd, Hin. inversion Hnd as [|? ? Hnotin Hnd']; subst.
  rewrite countId_cons. destruct Hin as [<-|Hin].
  - rewrite String.eqb_refl, countId_absent by exact Hnotin. reflexivity.
  - rewrite IH by assumption.
    destruct (String.eqb (RoastEntry.id r) roastId) eqn:E; [|reflexivity].
    apply String.eqb_eq in E. exfalso. apply Hnotin. rewrite E. exact Hin.
Qed.

Lemma stakeOn_absent roastId amount l :
  ~ In roastId (map RoastEntry.id l) -> map (Server.stakeOn roastId amount) l = l.
Proof.
  induction l as [|r l IH]; intro H; [reflexivity|].
  cbn [map]. rewrite IH by (intro Hin; apply H; right; exact Hin).
  unfold Server.stakeOn.
  assert (Hne : Js.strict_ne (RoastEntry.id r) roastId = true).
  { apply strict_ne_true. intro E. apply H. left. exact E. }
  rewrite Hne. reflexivity.
Qed.

(** X9. How the pool of an arena ("Arena Pool (TLV)") moves under the
    commands that reach it.  ['submit-roast'] raises it by the entry stake
    and the backed stake of the submitted entry.  ['stake-roast'] raises it
    by the amount once for every entry that has the given id: by the amount
    exactly when the ids are distinct and the entry exists, and when no
    entry has the id the arena is left as it is.  A tick does not change the
    pool. *)
Theorem pool_accounting (arenaId : string) (a : Arena.t) :
  Arena.id a = arenaId ->
  (forall roastData,
      arenaPool (Server.submitTo arenaId roastData a)
      == arenaPool a + RoastEntry.entryStake roastData
         + RoastEntry.backedStake roastData)%Q
  /\ (forall roastId amount,
        arenaPool (Server.stakeIn arenaId roastId amount a)
        == arenaPool a
           + inject_Z (Z.of_nat (countId roastId (Arena.roasts a))) * amount)%Q
  /\ (forall roastId amount,
        NoDup (map RoastEntry.id (Arena.roasts a)) ->
        In roastId (map RoastEntry.id (Arena.roasts a)) ->
        (arenaPool (Server.stakeIn arenaId roastId amount a) == arenaPool a + amount)%Q)
  /\ (forall roastId amount,
        ~ In roastId (map RoastEntry.id (Arena.roasts a)) ->
        Server.stakeIn arenaId roastId amount a = a)
  /\ (forall now, arenaPool (afterTick now a) = arenaPool a).
Proof.
  intro Hid. apply strict_ne_false in Hid.
  assert (Hstake : forall roastId amount,
             (arenaPool (Server.stakeIn arenaId roastId amount a)
              == arenaPool a
                 + inject_Z (Z.of_nat (countId roastId (Arena.roasts a))) * amount)%Q).
  { intros roastId amount. unfold Server.stakeIn, arenaPool. rewrite Hid.
    cbn [Arena.with_roasts Arena.stake Arena.roasts].
    rewrite poolSum_stakeOn. ring. }
  split; [|split; [exact Hstake|split; [|split]]].
  - intro roastData. unfold Server.submitTo, arenaPool. rewrite Hid.
    cbn [Arena.with_roasts Arena.stake Arena.roasts].
    rewrite fold_left_app. cbn [fold_left]. ring.
  - intros roastId amount Hnd Hin. rewrite Hstake, countId_unique by assumption.
    change (inject_Z (Z.of_nat 1)) with 1%Q. ring.
  - intros roastId amount Hnot. unfold Server.stakeIn. rewrite Hid.
    rewrite stakeOn_absent by exact Hnot. destruct a; reflexivity.
  - intro now. unfold afterTick. destruct (due now a); [|reflexivity].
    unfold arenaPool.
    destruct (settled_sameButOutcome a) as (_ & _ & _ & _ & _ & _ & -> & _ & ->).
    reflexivity.
Qed.

Lemma processPayout_credits currentUser arena (prev : UserAccount.t) :
  exists u',
    Client.processPayout currentUser arena (Some prev) = Some u'
    /\ UserAccount.id u' = UserAccount.id prev
    /\ UserAccount.name u' = UserAccount.name prev
    /\ UserAccount.handle u' = UserAccount.handle prev
    /\ (UserAccount.balance prev <= UserAccount.balance u')%Q.
Proof.
  unfold Client.processPayout.
  destruct (Client.payoutOf currentUser arena) as [p|].
  - destruct (Js.gt p 0) eqn:E.
    + eexists. split; [reflexivity|]. cbn. repeat split.
      apply gt_true in E. rewrite <- (Qplus_0_r (UserAccount.balance prev)) at 1.
      apply Qplus_le_r. apply Qlt_le_weak. exact E.
    + exists prev. repeat split. apply Qle_refl.
  - exists prev. repeat split. apply Qle_refl.
Qed.

Lemma processPayout_nobody currentUser arena :
  Client.processPayout currentUser arena None = None.
Proof.
  unfold Client.processPayout.
  destruct (Client.payoutOf currentUser arena) as [p|]; [|reflexivity].
  destruct (Js.gt p 0); reflexivity.
Qed.

(** X10. [processPayout] only ever credits: it keeps the account and never
    lowers the balance; without a logged-in user, for an arena without
    entries or without winner, it leaves the account as it is; and so it does
    for a user who backed no entry, wrote no entry and is not the poster of
    the arena. *)
Theorem settlement_only_credits (currentUser : option UserAccount.t) (arena : Arena.t)
    (prev : UserAccount.t) :
  (exists u',
      Client.processPayout currentUser arena (Some prev) = Some u'
      /\ UserAccount.id u' = UserAccount.id prev
      /\ UserAccount.name u' = UserAccount.name prev
      /\ UserAccount.handle u' = UserAccount.handle prev
      /\ (UserAccount.balance prev <= UserAccount.balance u')%Q)
  /\ Client.processPayout currentUser arena None = None
  /\ (currentUser = None \/ Arena.roasts arena = [] \/ Arena.winnerRoastId arena = None ->
      Client.processPayout currentUser arena (Some prev) = Some prev)
  /\ (forall user,
        currentUser = Some user ->
        (forall r, In r (Arena.roasts arena) ->
                   (RoastEntry.myBackedAmount r <= 0)%Q
                   /\ RoastEntry.roasterId r <> UserAccount.id user) ->
        Arena.opId arena <> UserAccount.id user ->
        Client.processPayout currentUser arena (Some prev) = Some prev).
Proof.
  split; [|split; [|split]].
  - apply processPayout_credits.
  - apply processPayout_nobody.
  - intros [->|[H| H]]; unfold Client.processPayout, Client.payoutOf.
    + reflexivity.
    + destruct currentUser; [|reflexivity]. rewrite H. reflexivity.
    + destruct currentUser; [|reflexivity]. rewrite H. cbn.
      rewrite orb_true_r. reflexivity.
  - intros user -> Hw Hop. unfold Client.processPayout.
    destruct (Client.payoutOf (Some user) arena) as [p|] eqn:Hp; [|reflexivity].
    assert (Hg : Js.gt p 0 = false); [|rewrite Hg; reflexivity].
    unfold Client.payoutOf in Hp.
    destruct (_ || _); [discriminate|].
    destruct (Arena.winnerRoastId arena) as [wid|]; [|discriminate].
    destruct (find _ _) as [w|] eqn:E; [|discriminate].
    apply find_some in E. destruct E as [Hin _].
    destruct (Hw w Hin) as [Hc Hr].
    apply gt_false in Hc. apply String.eqb_neq in Hr, Hop.
    rewrite Hc, Hr, Hop in Hp. cbn [andb] in Hp. injection Hp as <-.
    reflexivity.
Qed.

(* ================================================================== *)
(** * The client application *)
(* ================================================================== *)

Lemma NoDup_firstn {A : Type} (n : nat) (l : list A) : NoDup l -> NoDup (firstn n l).
Proof.
  intro H. rewrite <- (firstn_skipn n l) in H.
  apply NoDup_app_remove_r in H. exact H.
Qed.

Lemma In_firstn_In {A : Type} (n : nat) (l : list A) (x : A) :
  In x (firstn n l) -> In x l.
Proof.
  intro H. rewrite <- (firstn_skipn n l). apply in_or_app. left. exact H.
Qed.

Lemma lt_false (x y : Q) : App.lt x y = false <-> (y <= x)%Q.
Proof. unfold App.lt. rewrite negb_false_iff. apply Qle_bool_iff. Qed.

Lemma pushActivity_fresh log prev :
  ~ In (ActivityLog.id log) (map ActivityLog.id prev) ->
  App.pushActivity log prev = firstn 10 (log :: prev).
Proof.
  intro H. unfold App.pushActivity.
  destruct (find _ prev) as [p|] eqn:E; [|reflexivity].
  apply find_some in E. destruct E as [Hin Heq]. apply String.eqb_eq in Heq.
  exfalso. apply H. rewrite <- Heq. apply in_map. exact Hin.
Qed.

Lemma pushActivity_known log prev :
  In (ActivityLog.id log) (map ActivityLog.id prev) ->
  App.pushActivity log prev = prev.
Proof.
  intro H. unfold App.pushActivity.
  destruct (find _ prev) as [p|] eqn:E; [reflexivity|].
  apply in_map_iff in H. destruct H as (p & Hid & Hin).
  pose proof (find_none _ _ E p Hin) as Hn. cbv beta in Hn.
  rewrite Hid, String.eqb_refl in Hn. discriminate.
Qed.

Lemma pushActivity_cases log prev :
  (In (ActivityLog.id log) (map ActivityLog.id prev) /\ App.pushActivity log prev = prev)
  \/ (~ In (ActivityLog.id log) (map ActivityLog.id prev)
      /\ App.pushActivity log prev = log :: firstn 9 prev).
Proof.
  destruct (in_dec string_dec (ActivityLog.id log) (map ActivityLog.id prev)) as [H|H].
  - left. split; [exact H|apply pushActivity_known; exact H].
  - right. split; [exact H|apply pushActivity_fresh; exact H].
Qed.

(** X11. The activity feed of the client: an entry whose id is already in
    the feed is dropped, any other entry is put at the front and the feed is
    cut at 10, so that receiving the same entry twice in a row is the same
    as receiving it once, a feed without repeated ids stays so and a feed of
    at most 10 entries stays so. *)
Theorem activity_feed_drops_repeats (log : ActivityLog.t) (prev : list ActivityLog.t) :
  (In (ActivityLog.id log) (map ActivityLog.id prev) ->
   App.pushActivity log prev = prev)
  /\ (~ In (ActivityLog.id log) (map ActivityLog.id prev) ->
      App.pushActivity log prev = log :: firstn 9 prev)
  /\ App.pushActivity log (App.pushActivity log prev) = App.pushActivity log prev
  /\ (NoDup (map ActivityLog.id prev) ->
      NoDup (map ActivityLog.id (App.pushActivity log prev)))
  /\ ((List.length prev <= 10)%nat ->
      (List.length (App.pushActivity log prev) <= 10)%nat).
Proof.
  split; [apply pushActivity_known|].
  split; [apply pushActivity_fresh|].
  destruct (pushActivity_cases log prev) as [[Hin ->]|[Hnot ->]].
  - split; [apply pushActivity_known; exact Hin|]. auto.
  - split; [apply pushActivity_known; left; reflexivity|]. split.
    + intro Hnd. cbn [map]. constructor.
      * intro Hin. apply Hnot. rewrite <- firstn_map in Hin.
        exact (In_firstn_In _ _ _ Hin).
      * rewrite <- firstn_map. apply NoDup_firstn. exact Hnd.
    + intros _. cbn [List.length]. rewrite length_firstn. lia.
Qed.

Section AppFacts.

Local Arguments firstn : simpl never.

Variable trim : string -> string.
Variable toUpperCase : string -> string.

Local Abbreviation on_state_update := (App.on_state_update).
Local Abbreviation appStep := (App.step trim toUpperCase).
Local Abbreviation appRun := (App.run trim toUpperCase).

Lemma appRun_activity backlog : forall c,
  App.activityFeed (appRun (map App.ActivityUpdate backlog) c)
  = fold_left (fun feed log => App.pushActivity log feed) backlog (App.activityFeed c).
Proof.
  induction backlog as [|log backlog IH]; intro c; [reflexivity|].
  cbn [map App.run fold_left].
  change (fold_left appStep (map App.ActivityUpdate backlog)
            (appStep c (App.ActivityUpdate log)))
    with (appRun (map App.ActivityUpdate backlog) (appStep c (App.ActivityUpdate log))).
  rewrite IH. reflexivity.
Qed.

Lemma replay_reverses backlog : forall feed,
  NoDup (map ActivityLog.id backlog) ->
  (forall log, In log backlog ->
               ~ In (ActivityLog.id log) (map ActivityLog.id feed)) ->
  (List.length backlog + List.length feed <= 10)%nat ->
  fold_left (fun feed log => App.pushActivity log feed) backlog feed
  = (rev backlog ++ feed)%list.
Proof.
  induction backlog as [|log backlog IH]; intros feed Hnd Hfresh Hlen; [reflexivity|].
  cbn [fold_left map List.length rev] in *.
  inversion Hnd as [|? ? Hnotin Hnd']; subst.
  rewrite pushActivity_fresh by (apply Hfresh; left; reflexivity).
  rewrite firstn_all2 by (cbn [List.length]; lia).
  rewrite IH, <- app_assoc; [reflexivity|exact Hnd'| |cbn [List.length]; lia].
  intros l Hl [Heq|Hin].
  - apply Hnotin. rewrite Heq. apply in_map. exact Hl.
  - apply (Hfresh l); [right; exact Hl|exact Hin].
Qed.

(** X12. A client with an empty feed that handles the entries of a backlog
    one after the other, as the server replays them on connection (at most
    10, with distinct ids), ends with the backlog in reverse: each entry is
    put in front of the ones handled before it, so the entry sent first, the
    newest of the server's log, is the last of the feed. *)
Theorem backlog_replay_reverses_the_feed (backlog : list ActivityLog.t) (c : App.t) :
  App.activityFeed c = [] ->
  NoDup (map ActivityLog.id backlog) ->
  (List.length backlog <= 10)%nat ->
  App.activityFeed (appRun (map App.ActivityUpdate backlog) c) = rev backlog.
Proof.
  intros Hc Hnd Hlen. rewrite appRun_activity, Hc, replay_reverses.
  - apply app_nil_r.
  - exact Hnd.
  - intros log _ H. exact H.
  - cbn [List.length]. lia.
Qed.

(** ** The settlement on a state update *)

Lemma find_self_NoDup (l : list Arena.t) (arena : Arena.t) :
  NoDup (map Arena.id l) -> In arena l ->
  find (fun a => String.eqb (Arena.id a) (Arena.id arena)) l = Some arena.
Proof.
  induction l as [|a l IH]; intros Hnd Hin; [contradiction|].
  cbn [map] in Hnd. inversion Hnd as [|? ? Hnotin Hnd']; subst. cbn [find].
  destruct Hin as [->|Hin].
  - rewrite String.eqb_refl. reflexivity.
  - destruct (String.eqb (Arena.id a) (Arena.id arena)) eqn:E.
    + apply String.eqb_eq in E. exfalso. apply Hnotin. rewrite E.
      apply in_map. exact Hin.
    + apply IH; assumption.
Qed.

Lemma justResolved_same (l : list Arena.t) (arena : Arena.t) :
  NoDup (map Arena.id l) -> In arena l -> App.justResolved l arena = false.
Proof.
  intros Hnd Hin. unfold App.justResolved. rewrite find_self_NoDup by assumption.
  destruct (Arena.status arena); reflexivity.
Qed.

Lemma fold_skip {A B : Type} (p : B -> bool) (f : A -> B -> A) (l : list B) :
  (forall b, In b l -> p b = false) ->
  forall acc, fold_left (fun acc b => if p b then f acc b else acc) l acc = acc.
Proof.
  induction l as [|b l IH]; intros H acc; [reflexivity|].
  cbn [fold_left]. rewrite (H b) by (left; reflexivity).
  apply IH. intros b' Hb'. apply H. right. exact Hb'.
Qed.

(** X13. The ['state-update'] handler replaces the client's arenas, and its
    record of the previous ones, by the collection of the server, and pays
    out only for arenas that were active in the previous record and arrive
    resolved.  So a client that has no previous record is paid nothing, and
    handling the same collection a second time (with distinct arena ids)
    changes nothing: a resolution is settled once. *)
Theorem state_update_settles_once (serverArenas : list Arena.t) (c : App.t) :
  App.arenas (on_state_update serverArenas c) = serverArenas
  /\ App.prevArenas (on_state_update serverArenas c) = serverArenas
  /\ App.sent (on_state_update serverArenas c) = App.sent c
  /\ (App.prevArenas c = [] ->
      App.currentUser (on_state_update serverArenas c) = App.currentUser c)
  /\ (Forall (fun a => Arena.status a = active) serverArenas ->
      App.currentUser (on_state_update serverArenas c) = App.currentUser c)
  /\ (NoDup (map Arena.id serverArenas) ->
      on_state_update serverArenas (on_state_update serverArenas c)
      = on_state_update serverArenas c).
Proof.
  split; [reflexivity|]. split; [reflexivity|]. split; [reflexivity|].
  split; [|split].
  - intro H. unfold App.on_state_update. cbn [App.currentUser]. rewrite H.
    destruct (App.currentUser c) as [u|]; [|reflexivity].
    apply (fold_skip (App.justResolved [])
             (fun prev arena => Client.processPayout (Some u) arena prev)).
    reflexivity.
  - intro H. unfold App.on_state_update. cbn [App.currentUser].
    destruct (App.currentUser c) as [u|]; [|reflexivity].
    apply (fold_skip (App.justResolved (App.prevArenas c))
             (fun prev arena => Client.processPayout (Some u) arena prev)).
    intros a Ha. rewrite Forall_forall in H. unfold App.justResolved.
    rewrite (H a Ha). destruct (find _ _); [|reflexivity].
    rewrite andb_false_r. reflexivity.
  - intro Hnd. set (c1 := on_state_update serverArenas c).
    assert (Hu : App.currentUser (on_state_update serverArenas c1) = App.currentUser c1).
    { unfold App.on_state_update at 1. cbn [App.currentUser].
      destruct (App.currentUser c1) as [u|]; [|reflexivity].
      change (App.prevArenas c1) with serverArenas.
      apply (fold_skip (App.justResolved serverArenas)
               (fun prev arena => Client.processPayout (Some u) arena prev)).
      intros a Ha. apply justResolved_same; assumption. }
    unfold App.on_state_update at 1. unfold App.on_state_update at 1 in Hu.
    cbn [App.currentUser] in Hu. rewrite Hu. reflexivity.
Qed.

(** ** The account and the messages of a session *)

Lemma cleanHandle_prefix (authHandle : string) :
  String.prefix "@" (App.cleanHandle authHandle) = true.
Proof.
  unfold App.cleanHandle. destruct (String.prefix "@" authHandle) eqn:E; [exact E|].
  cbn. destruct authHandle; reflexivity.
Qed.

Lemma accountInOrder_processPayout currentUser arena prev :
  accountInOrder prev -> accountInOrder (Client.processPayout currentUser arena prev).
Proof.
  destruct prev as [u|].
  - intros [Hb Hh].
    destruct (processPayout_credits currentUser arena u)
      as (u' & -> & _ & _ & Hh' & Hle).
    split; [eapply Qle_trans; eassumption|congruence].
  - intros _. rewrite processPayout_nobody. exact I.
Qed.

Lemma accountInOrder_debit (u : UserAccount.t) (fee : Q) :
  accountInOrder (Some u) -> App.lt (UserAccount.balance u) fee = false ->
  accountInOrder (Some (UserAccount.with_balance u (UserAccount.balance u - fee)%Q)).
Proof.
  intros [_ Hh] Hlt. apply lt_false in Hlt. split; [|exact Hh].
  cbn. unfold Qminus. rewrite <- (Qplus_opp_r fee).
  apply Qplus_le_l. exact Hlt.
Qed.

Lemma appStep_accountInOrder c e :
  accountInOrder (App.currentUser c) -> accountInOrder (App.currentUser (appStep c e)).
Proof.
  intro H.
  destruct e as [serverArenas|log|v|v|v|v|randomDigits| |arenaId roastId|arenaId newId];
    cbn [App.step]; try exact H.
  - unfold App.on_state_update. cbn [App.currentUser].
    destruct (App.currentUser c) as [u|]; [|exact I].
    assert (Hfold : forall l prev,
               accountInOrder prev ->
               accountInOrder
                 (fold_left
                    (fun prev arena =>
                       if App.justResolved (App.prevArenas c) arena
                       then Client.processPayout (Some u) arena prev
                       else prev) l prev)).
    { induction l as [|a l IH]; intros prev Hprev; [exact Hprev|].
      cbn [fold_left]. apply IH.
      destruct (App.justResolved (App.prevArenas c) a); [|exact Hprev].
      apply accountInOrder_processPayout. exact Hprev. }
    apply Hfold. exact H.
  - unfold App.handleLogin.
    destruct (String.eqb (App.authName c) "" || String.eqb (App.authHandle c) "");
      [exact H|].
    cbn. split; [discriminate|apply cleanHandle_prefix].
  - unfold App.handleCreateArena.
    destruct (App.currentUser c) as [u|] eqn:E; [|rewrite E; exact I].
    destruct (String.eqb (trim (App.newArenaText c)) ""); [rewrite E; exact H|].
    destruct (App.lt (UserAccount.balance u) 0.05) eqn:L;
      cbn [App.currentUser]; [exact H|].
    apply accountInOrder_debit; assumption.
  - unfold App.handleStakeOnRoast.
    destruct (App.currentUser c) as [u|] eqn:E; [|rewrite E; exact I].
    destruct (App.lt (UserAccount.balance u) 0.05) eqn:L;
      cbn [App.currentUser]; [rewrite E; exact H|].
    apply accountInOrder_debit; assumption.
  - unfold App.handleSubmitRoast.
    destruct (App.currentUser c) as [u|] eqn:E; [|rewrite E; exact I].
    destruct (String.eqb (trim (App.newRoastText c)) ""); [rewrite E; exact H|].
    destruct (App.lt (UserAccount.balance u) 0.01) eqn:L;
      cbn [App.currentUser]; [exact H|].
    apply accountInOrder_debit; assumption.
Qed.

(** X14. Throughout a session of the client the account is in order: the
    balance of the logged-in user is never negative, because each of the
    three paid actions is refused when the balance is below its price and
    the settlement only credits, and the handle starts with an at sign. *)
Theorem balance_is_never_negative (es : list App.Event) :
  match App.currentUser (appRun es App.init) with
  | Some u => (0 <= UserAccount.balance u)%Q
              /\ String.prefix "@" (UserAccount.handle u) = true
  | None => True
  end.
Proof.
  change (accountInOrder (App.currentUser (appRun es App.init))).
  assert (H : forall c, accountInOrder (App.currentUser c) ->
                        accountInOrder (App.currentUser (appRun es c))).
  { induction es as [|e es IH]; intros c Hc; [exact Hc|].
    apply (IH (appStep c e)). apply appStep_accountInOrder. exact Hc. }
  apply H. exact I.
Qed.

Lemma appStep_sent c e :
  exists added, App.sent (appStep c e) = (App.sent c ++ added)%list
                /\ Forall sendable added.
Proof.
  assert (Hnone : exists added, App.sent c = (App.sent c ++ added)%list
                                /\ Forall sendable added).
  { exists []. rewrite app_nil_r. split; [reflexivity|constructor]. }
  destruct e as [serverArenas|log|v|v|v|v|randomDigits| |arenaId roastId|arenaId newId];
    cbn [App.step]; try exact Hnone.
  - unfold App.handleLogin.
    destruct (String.eqb (App.authName c) "" || String.eqb (App.authHandle c) "");
      [exact Hnone|].
    eexists [_]. split; [reflexivity|].
    constructor; [apply cleanHandle_prefix|constructor].
  - unfold App.handleCreateArena.
    destruct (App.currentUser c) as [u|]; [|exact Hnone].
    destruct (String.eqb (trim (App.newArenaText c)) ""); [exact Hnone|].
    destruct (App.lt (UserAccount.balance u) 0.05); [exact Hnone|].
    eexists [_]. split; [reflexivity|]. constructor; [reflexivity|constructor].
  - unfold App.handleStakeOnRoast.
    destruct (App.currentUser c) as [u|]; [|exact Hnone].
    destruct (App.lt (UserAccount.balance u) 0.05); [exact Hnone|].
    eexists [_]. split; [reflexivity|]. constructor; [reflexivity|constructor].
  - unfold App.handleSubmitRoast.
    destruct (App.currentUser c) as [u|]; [|exact Hnone].
    destruct (String.eqb (trim (App.newRoastText c)) ""); [exact Hnone|].
    destruct (App.lt (UserAccount.balance u) 0.01); [exact Hnone|].
    eexists [_]. split; [reflexivity|].
    constructor; [cbn; repeat split|constructor].
Qed.

(** X15. Whatever the events of a session, the client only sends: joins
    whose handle starts with an at sign, arenas that name no winner, stakes
    of exactly 0.05, and entries that carry the fee of 0.01, a backed stake
    of 0 and a [myBackedAmount] of 0, the sender's own backings being kept
    in the client alone. *)
Theorem client_sends_only_wellformed_messages (es : list App.Event) :
  Forall sendable (App.sent (appRun es App.init)).
Proof.
  assert (H : forall c, Forall sendable (App.sent c) ->
                        Forall sendable (App.sent (appRun es c))).
  { induction es as [|e es IH]; intros c Hc; [exact Hc|].
    apply (IH (appStep c e)).
    destruct (appStep_sent c e) as (added & -> & Ha).
    apply Forall_app. split; assumption. }
  apply H. constructor.
Qed.

End AppFacts.

(* ================================================================== *)
(** * The panels of the view *)
(* ================================================================== *)

Lemma insertByBacked_In r x sorted :
  In x (View.insertByBacked r sorted) <-> x = r \/ In x sorted.
Proof.
  induction sorted as [|y sorted IH]; cbn [View.insertByBacked].
  - cbn. intuition.
  - destruct (Js.gt (RoastEntry.backedStake y) (RoastEntry.backedStake r)); cbn [In].
    + rewrite IH. intuition.
    + intuition.
Qed.

Lemma sortByBacked_cons r l :
  View.sortByBacked (r :: l) = View.insertByBacked r (View.sortByBacked l).
Proof. reflexivity. Qed.

Lemma sortByBacked_In x l : In x (View.sortByBacked l) <-> In x l.
Proof.
  induction l as [|r l IH]; [reflexivity|].
  rewrite sortByBacked_cons.
  rewrite insertByBacked_In, IH. cbn [In]. intuition.
Qed.

Lemma insertByBacked_length r sorted :
  List.length (View.insertByBacked r sorted) = S (List.length sorted).
Proof.
  induction sorted as [|y sorted IH]; cbn [View.insertByBacked]; [reflexivity|].
  destruct (Js.gt (RoastEntry.backedStake y) (RoastEntry.backedStake r));
    cbn [List.length]; [rewrite IH|]; reflexivity.
Qed.

Lemma sortByBacked_length l : List.length (View.sortByBacked l) = List.length l.
Proof.
  induction l as [|r l IH]; [reflexivity|].
  rewrite sortByBacked_cons.
  rewrite insertByBacked_length, IH. reflexivity.
Qed.

Lemma insertByBacked_decreasing r sorted :
  decreasingBacked sorted -> decreasingBacked (View.insertByBacked r sorted).
Proof.
  induction sorted as [|y sorted IH]; intro H; cbn [View.insertByBacked].
  - cbn. auto.
  - destruct H as [Hy Hs].
    destruct (Js.gt (RoastEntry.backedStake y) (RoastEntry.backedStake r)) eqn:E.
    + cbn [decreasingBacked]. split; [|apply IH; exact Hs].
      apply Forall_forall. intros x Hx. apply insertByBacked_In in Hx.
      destruct Hx as [->|Hx].
      * apply Qlt_le_weak, gt_true. exact E.
      * rewrite Forall_forall in Hy. exact (Hy x Hx).
    + apply gt_false in E. cbn [decreasingBacked]. split; [|split; assumption].
      constructor; [exact E|].
      eapply Forall_impl; [|exact Hy]. intros x Hx. cbv beta in Hx.
      eapply Qle_trans; eassumption.
Qed.

Lemma sortByBacked_decreasing l : decreasingBacked (View.sortByBacked l).
Proof.
  induction l as [|r l IH]; [exact I|].
  rewrite sortByBacked_cons.
  apply insertByBacked_decreasing. exact IH.
Qed.

(** The first of the sorted entries is the earliest maximum. *)
Lemma sortByBacked_head (r : RoastEntry.t) (l : list RoastEntry.t) :
  exists h t, View.sortByBacked (r :: l) = h :: t /\ firstMaximal h (r :: l).
Proof.
  revert r. induction l as [|r' l IH]; intro r.
  - exists r, []. split; [reflexivity|]. exists [], []. repeat split; constructor.
  - destruct (IH r') as (h & t & Hs & (before & after & Hl & Hb & Ha)).
    rewrite (sortByBacked_cons r (r' :: l)), Hs. cbn [View.insertByBacked].
    destruct (Js.gt (RoastEntry.backedStake h) (RoastEntry.backedStake r)) eqn:E.
    + exists h, (View.insertByBacked r t). split; [reflexivity|].
      exists (r :: before), after. rewrite Hl. split; [reflexivity|].
      split; [|exact Ha]. constructor; [apply gt_true; exact E|exact Hb].
    + apply gt_false in E. exists r, (h :: t). split; [reflexivity|].
      exists [], (r' :: l). split; [reflexivity|]. split; [constructor|].
      rewrite Hl. apply Forall_app. split.
      * eapply Forall_impl; [|exact Hb]. intros x Hx. cbv beta in Hx.
        apply Qlt_le_weak. eapply Qlt_le_trans; eassumption.
      * constructor; [exact E|].
        eapply Forall_impl; [|exact Ha]. intros x Hx. cbv beta in Hx.
        eapply Qle_trans; eassumption.
Qed.

(** A list has one earliest maximum. *)
Lemma firstMaximal_unique (w w' : RoastEntry.t) (l : list RoastEntry.t) :
  firstMaximal w l -> firstMaximal w' l -> w = w'.
Proof.
  intros (b1 & a1 & H1 & Hb1 & Ha1) (b2 & a2 & H2 & Hb2 & Ha2).
  rewrite H1 in H2. apply app_eq_app in H2.
  rewrite Forall_forall in Hb1, Ha1, Hb2, Ha2.
  destruct H2 as (m & [[Hb Ha]|[Hb Ha]]).
  - destruct m as [|y m].
    + cbn in Ha. injection Ha as Hw _. symmetry. exact Hw.
    + cbn in Ha. injection Ha as Hy Ha. subst y.
      exfalso.
      assert (Hlt : (RoastEntry.backedStake w' < RoastEntry.backedStake w)%Q).
      { apply Hb1. rewrite Hb. apply in_or_app. right. left. reflexivity. }
      assert (Hle : (RoastEntry.backedStake w <= RoastEntry.backedStake w')%Q).
      { apply Ha2. rewrite Ha. apply in_or_app. right. left. reflexivity. }
      exact (Qlt_not_le _ _ Hlt Hle).
  - destruct m as [|y m].
    + cbn in Ha. injection Ha as Hw _. exact Hw.
    + cbn in Ha. injection Ha as Hy Ha. subst y.
      exfalso.
      assert (Hlt : (RoastEntry.backedStake w < RoastEntry.backedStake w')%Q).
      { apply Hb2. rewrite Hb. apply in_or_app. right. left. reflexivity. }
      assert (Hle : (RoastEntry.backedStake w' <= RoastEntry.backedStake w)%Q).
      { apply Ha1. rewrite Ha. apply in_or_app. right. left. reflexivity. }
      exact (Qlt_not_le _ _ Hlt Hle).
Qed.

Lemma decreasingBacked_firstn (n : nat) (l : list RoastEntry.t) :
  decreasingBacked l -> decreasingBacked (firstn n l).
Proof.
  revert n. induction l as [|x l IH]; intros n H.
  - destruct n; exact I.
  - destruct n as [|n]; [exact I|]. destruct H as [Hx Hl].
    cbn [firstn decreasingBacked]. split; [|apply IH; exact Hl].
    apply Forall_forall. intros y Hy. rewrite Forall_forall in Hx.
    apply Hx. exact (In_firstn_In _ _ _ Hy).
Qed.

Lemma decreasingBacked_app (l1 l2 : list RoastEntry.t) :
  decreasingBacked (l1 ++ l2) ->
  forall x y, In x l1 -> In y l2 ->
              (RoastEntry.backedStake y <= RoastEntry.backedStake x)%Q.
Proof.
  induction l1 as [|z l1 IH]; intros H x y Hx Hy; [contradiction|].
  cbn [app decreasingBacked] in H. destruct H as [Hz Hl].
  destruct Hx as [->|Hx].
  - rewrite Forall_forall in Hz. apply Hz. apply in_or_app. right. exact Hy.
  - exact (IH Hl x y Hx Hy).
Qed.

(** X16. The "Top Gladiators" panel lists the entries of the arena by
    decreasing backed stake, at most five of them and only entries of the
    arena, and its first line is the entry that the resolution would declare
    the winner at that moment: among the entries tied at the top, the one
    submitted first. *)
Theorem top_gladiator_is_the_winner (first : RoastEntry.t) (rest : list RoastEntry.t) :
  hd_error (View.topGladiators (first :: rest)) = Some (Js.reduce pickWinner first rest)
  /\ decreasingBacked (View.topGladiators (first :: rest))
  /\ List.length (View.topGladiators (first :: rest))
     = Nat.min 5 (S (List.length rest))
  /\ (forall r, In r (View.topGladiators (first :: rest)) -> In r (first :: rest))
  /\ (forall r, In r (first :: rest) ->
                In r (View.topGladiators (first :: rest))
                \/ Forall (fun t => (RoastEntry.backedStake r <= RoastEntry.backedStake t)%Q)
                     (View.topGladiators (first :: rest))).
Proof.
  unfold View.topGladiators, Js.slice0.
  destruct (sortByBacked_head first rest) as (h & t & Hs & Hh).
  pose proof (sortByBacked_decreasing (first :: rest)) as Hd.
  split; [|split; [|split; [|split]]].
  - rewrite Hs. cbn [firstn hd_error]. f_equal.
    eapply firstMaximal_unique; [exact Hh|apply reduce_pickWinner_firstMaximal].
  - apply decreasingBacked_firstn. exact Hd.
  - rewrite length_firstn, sortByBacked_length. reflexivity.
  - intros r Hr. apply sortByBacked_In. exact (In_firstn_In _ _ _ Hr).
  - intros r Hr. apply sortByBacked_In in Hr.
    rewrite <- (firstn_skipn 5 (View.sortByBacked (first :: rest))) in Hr, Hd.
    apply in_app_or in Hr. destruct Hr as [Hr|Hr]; [left; exact Hr|right].
    apply Forall_forall. intros x Hx.
    exact (decreasingBacked_app _ _ Hd x r Hx Hr).
Qed.

(** X17. The two lists of the view split the arenas: an arena is in the live
    list or in the list of perished ones, never in both.  After a tick of the
    server the live list is the live list of before without the arenas whose
    deadline has passed, in the same order, so that no live arena is past its
    deadline, and the perished ones are those of before and the arenas the
    tick resolved. *)
Theorem live_and_perished_arenas (mathRandom : nat -> string) (dateNow : nat -> Z)
    (now : Z) (s : Server.t) :
  let after := Server.arenas (Server.tick mathRandom dateNow now s) in
  (List.length (View.liveArenas (Server.arenas s))
   + List.length (View.deadArenas (Server.arenas s))
   = List.length (Server.arenas s))%nat
  /\ (forall a, In a (View.liveArenas (Server.arenas s)) ->
                ~ In a (View.deadArenas (Server.arenas s)))
  /\ View.liveArenas after
     = filter (fun a => negb (Arena.endTime a <=? now)) (View.liveArenas (Server.arenas s))
  /\ Forall (fun a => now < Arena.endTime a) (View.liveArenas after)
  /\ List.length (View.deadArenas after)
     = (List.length (View.deadArenas (Server.arenas s))
        + List.length (filter (due now) (Server.arenas s)))%nat.
Proof.
  cbv zeta. rewrite tick_arenas. unfold View.liveArenas, View.deadArenas.
  generalize (Server.arenas s). intro l.
  split; [|split; [|split; [|split]]].
  - induction l as [|a l IH]; [reflexivity|]. cbn [filter List.length].
    destruct (Arena.status a); cbn [Status_eqb List.length]; lia.
  - intros a Ha Hd. apply filter_In in Ha, Hd.
    destruct Ha as [_ Ha], Hd as [_ Hd]. destruct (Arena.status a); discriminate.
  - induction l as [|a l IH]; [reflexivity|]. cbn [map filter]. rewrite IH.
    destruct (due now a) eqn:Ed.
    + rewrite (afterTick_due now a Ed), settled_status.
      apply due_iff in Ed. destruct Ed as [Es Et]. apply Z.leb_le in Et.
      rewrite Es. cbn [Status_eqb filter]. rewrite Et. reflexivity.
    + unfold afterTick. rewrite Ed. unfold due in Ed.
      destruct (Arena.status a); cbn [Status_eqb andb filter] in *; [|reflexivity].
      rewrite Ed. reflexivity.
  - apply Forall_forall. intros a Ha. apply filter_In in Ha. destruct Ha as [Ha Hs].
    apply in_map_iff in Ha. destruct Ha as (a0 & <- & _).
    unfold afterTick in *. destruct (due now a0) eqn:Ed.
    + rewrite settled_status in Hs. discriminate.
    + apply Status_eqb_eq in Hs. unfold due in Ed. rewrite Hs in Ed.
      cbn [Status_eqb andb] in Ed. apply Z.leb_gt in Ed. exact Ed.
  - induction l as [|a l IH]; [reflexivity|]. cbn [map filter].
    destruct (due now a) eqn:Ed.
    + rewrite (afterTick_due now a Ed), settled_status.
      apply due_iff in Ed. destruct Ed as [Es _].
      rewrite Es. cbn [Status_eqb List.length]. rewrite IH. lia.
    + assert (Ha : afterTick now a = a) by (unfold afterTick; rewrite Ed; reflexivity).
      rewrite Ha.
      destruct (Status_eqb (Arena.status a) resolved); cbn [List.length];
        rewrite IH; reflexivity.
Qed.

(* ================================================================== *)
(** * The prototype as an application *)
(* ================================================================== *)

Section ProtoFacts.

Local Arguments firstn : simpl never.

Variable mathRandom : nat -> string.
Variable dateNow : nat -> Z.
Variable trim : string -> string.
Variable toUpperCase : string -> string.

Local Abbreviation plog := (Prototype.logActivity mathRandom dateNow).
Local Abbreviation resolveArena := (Prototype.resolveArena mathRandom dateNow).
Local Abbreviation tickArena := (Prototype.tickArena mathRandom dateNow).
Local Abbreviation tickArenas := (ProtoApp.tickArenas mathRandom dateNow).
Local Abbreviation ptick := (ProtoApp.tick mathRandom dateNow).
Local Abbreviation pstep := (ProtoApp.step mathRandom dateNow trim toUpperCase).
Local Abbreviation prun := (ProtoApp.run mathRandom dateNow trim toUpperCase).

Lemma tickArena_arena now user arena s :
  fst (tickArena now user arena s) = afterTick now arena.
Proof.
  unfold Prototype.tickArena, afterTick. fold (due now arena).
  destruct (due now arena); [|reflexivity].
  unfold Prototype.resolveArena, settled. destruct (Arena.roasts arena); reflexivity.
Qed.

Lemma tickArenas_arenas now user l : forall s,
  fst (tickArenas now user l s) = map (afterTick now) l.
Proof.
  induction l as [|a l IH]; intro s; [reflexivity|].
  cbn [ProtoApp.tickArenas map].
  destruct (tickArena now user a s) as [a' s1] eqn:E.
  specialize (IH s1). destruct (tickArenas now user l s1) as [l' s2].
  cbn [fst] in *. rewrite IH. f_equal.
  rewrite <- (tickArena_arena now user a s), E. reflexivity.
Qed.

Lemma ptick_arenas now c :
  ProtoApp.arenas (ptick now c) = map (afterTick now) (ProtoApp.arenas c).
Proof.
  unfold ProtoApp.tick.
  rewrite <- (tickArenas_arenas now (Prototype.currentUser (ProtoApp.core c))
                (ProtoApp.arenas c) (ProtoApp.core c)).
  destruct (tickArenas now _ _ _); reflexivity.
Qed.

(** ** The user's own backing *)

Lemma Qplus_nonneg (a b : Q) : (0 <= a)%Q -> (0 <= b)%Q -> (0 <= a + b)%Q.
Proof.
  intros Ha Hb. apply (Qle_trans _ (0 + 0)%Q); [discriminate|].
  apply Qplus_le_compat; assumption.
Qed.






(** ** The user and the feed of the prototype *)

Lemma coreInOrder_plog msg s : coreInOrder s -> coreInOrder (plog msg s).
Proof.
  intros [Hu _]. split; [exact Hu|].
  unfold Prototype.logActivity, Js.slice0. cbn [Prototype.activityFeed].
  rewrite length_firstn. lia.
Qed.

Lemma coreInOrder_credit payout s :
  (0 < payout)%Q -> coreInOrder s -> coreInOrder (Prototype.credit payout s).
Proof.
  intros Hp [Hu Hf]. split; [|exact Hf].
  unfold Prototype.credit. cbn [Prototype.currentUser].
  destruct (Prototype.currentUser s) as [u|]; [|exact I].
  destruct Hu as [Hb Hh]. split; [|exact Hh].
  cbn. apply Qplus_nonneg; [exact Hb|apply Qlt_le_weak; exact Hp].
Qed.

Lemma coreInOrder_tickArena now user arena s :
  coreInOrder s -> coreInOrder (snd (tickArena now user arena s)).
Proof.
  intro H. unfold Prototype.tickArena.
  destruct (Status_eqb (Arena.status arena) active && (Arena.endTime arena <=? now));
    [|exact H].
  unfold Prototype.resolveArena.
  destruct (Arena.roasts arena) as [|first rest]; cbn [snd].
  - apply coreInOrder_plog. exact H.
  - destruct user as [u|]; [|apply coreInOrder_plog; exact H].
    destruct (Js.gt _ 0) eqn:E; [|apply coreInOrder_plog; exact H].
    apply coreInOrder_credit; [apply gt_true; exact E|].
    apply coreInOrder_plog. exact H.
Qed.

Lemma coreInOrder_tickArenas now user l : forall s,
  coreInOrder s -> coreInOrder (snd (tickArenas now user l s)).
Proof.
  induction l as [|a l IH]; intros s H; [exact H|].
  cbn [ProtoApp.tickArenas].
  pose proof (coreInOrder_tickArena now user a s H) as H1.
  destruct (tickArena now user a s) as [a' s1]. cbn [snd] in H1.
  specialize (IH s1 H1). destruct (tickArenas now user l s1) as [l' s2].
  exact IH.
Qed.

Lemma coreInOrder_debit u fee msg s :
  coreInOrder s -> accountInOrder (Some u) ->
  App.lt (UserAccount.balance u) fee = false ->
  coreInOrder
    (plog msg
       (ProtoApp.setCurrentUser
          (Some (UserAccount.with_balance u (UserAccount.balance u - fee)%Q)) s)).
Proof.
  intros [_ Hf] Hu Hlt. apply coreInOrder_plog. split; [|exact Hf].
  cbn [ProtoApp.setCurrentUser Prototype.currentUser].
  apply accountInOrder_debit; assumption.
Qed.

Lemma pstep_coreInOrder c e :
  coreInOrder (ProtoApp.core c) -> coreInOrder (ProtoApp.core (pstep c e)).
Proof.
  intro H.
  destruct e as [now|v|v|v|v|randomDigits|newId now|arenaId roastId|arenaId newId];
    cbn [ProtoApp.step]; try exact H.
  - unfold ProtoApp.tick.
    pose proof (coreInOrder_tickArenas now (Prototype.currentUser (ProtoApp.core c))
                  (ProtoApp.arenas c) (ProtoApp.core c) H) as H1.
    destruct (tickArenas now _ _ _) as [l' s']. exact H1.
  - unfold ProtoApp.handleLogin.
    destruct (String.eqb (ProtoApp.authName c) "" || String.eqb (ProtoApp.authHandle c) "");
      [exact H|].
    cbn [ProtoApp.core]. apply coreInOrder_plog. destruct H as [_ Hf].
    split; [|exact Hf]. cbn. split; [discriminate|apply cleanHandle_prefix].
  - unfold ProtoApp.handleCreateArena.
    destruct (Prototype.currentUser (ProtoApp.core c)) as [u|] eqn:E; [|exact H].
    destruct (String.eqb (trim (ProtoApp.newArenaText c)) ""); [exact H|].
    destruct (App.lt (UserAccount.balance u) 0.05) eqn:L; [exact H|].
    cbn [ProtoApp.core]. apply coreInOrder_debit; [exact H| |exact L].
    destruct H as [Hu _]. rewrite E in Hu. exact Hu.
  - unfold ProtoApp.handleStakeOnRoast.
    destruct (Prototype.currentUser (ProtoApp.core c)) as [u|] eqn:E; [|exact H].
    destruct (App.lt (UserAccount.balance u) 0.05) eqn:L; [exact H|].
    cbn [ProtoApp.core]. apply coreInOrder_debit; [exact H| |exact L].
    destruct H as [Hu _]. rewrite E in Hu. exact Hu.
  - unfold ProtoApp.handleSubmitRoast.
    destruct (Prototype.currentUser (ProtoApp.core c)) as [u|] eqn:E; [|exact H].
    destruct (String.eqb (trim (ProtoApp.newRoastText c)) ""); [exact H|].
    destruct (App.lt (UserAccount.balance u) 0.01) eqn:L; [exact H|].
    cbn [ProtoApp.core]. apply coreInOrder_debit; [exact H| |exact L].
    destruct H as [Hu _]. rewrite E in Hu. exact Hu.
Qed.

(** X19. Throughout a session of the prototype the activity feed has at most
    10 entries, the balance of the logged-in user is never negative and the
    handle starts with an at sign: the paid actions are refused below their
    price, and a resolution only credits. *)
Theorem prototype_session_is_in_order
    (es : list ProtoApp.Event) (loadTime renderTime : Z) :
  let c := prun es (ProtoApp.init loadTime renderTime) in
  (List.length (Prototype.activityFeed (ProtoApp.core c)) <= 10)%nat
  /\ match Prototype.currentUser (ProtoApp.core c) with
     | Some u => (0 <= UserAccount.balance u)%Q
                 /\ String.prefix "@" (UserAccount.handle u) = true
     | None => True
     end.
Proof.
  cbv zeta.
  assert (H : forall c, coreInOrder (ProtoApp.core c) ->
                        coreInOrder (ProtoApp.core (prun es c))).
  { induction es as [|e es IH]; intros c Hc; [exact Hc|].
    apply (IH (pstep c e)). apply pstep_coreInOrder. exact Hc. }
  destruct (H (ProtoApp.init loadTime renderTime)) as [Hu Hf].
  { split; [exact I|]. cbn. lia. }
  split; [exact Hf|exact Hu].
Qed.

(** ** The tick of the prototype *)

Lemma tickArena_logged now user arena s :
  Prototype.logged (snd (tickArena now user arena s))
  = (Prototype.logged s + if due now arena then 1 else 0)%nat.
Proof.
  unfold Prototype.tickArena. fold (due now arena).
  destruct (due now arena); [|cbn [snd]; lia].
  unfold Prototype.resolveArena.
  destruct (Arena.roasts arena) as [|first rest]; cbn [snd].
  - cbn. lia.
  - destruct user as [u|]; [|cbn; lia].
    destruct (Js.gt _ 0); cbn; lia.
Qed.

Lemma tickArena_idle now user arena s :
  due now arena = false -> tickArena now user arena s = (arena, s).
Proof.
  intro H. unfold Prototype.tickArena. fold (due now arena). rewrite H. reflexivity.
Qed.

Lemma tickArenas_logged now user l : forall s,
  Prototype.logged (snd (tickArenas now user l s))
  = (Prototype.logged s + List.length (filter (due now) l))%nat.
Proof.
  induction l as [|a l IH]; intro s; [cbn; lia|].
  cbn [ProtoApp.tickArenas filter].
  pose proof (tickArena_logged now user a s) as H1.
  destruct (tickArena now user a s) as [a' s1]. cbn [snd] in H1.
  specialize (IH s1). destruct (tickArenas now user l s1) as [l' s2].
  cbn [snd] in *. rewrite IH, H1.
  destruct (due now a); cbn [List.length]; lia.
Qed.

Lemma tickArenas_idle now user l : forall s,
  existsb (due now) l = false -> tickArenas now user l s = (l, s).
Proof.
  induction l as [|a l IH]; intros s H; [reflexivity|].
  cbn [existsb] in H. apply orb_false_iff in H. destruct H as [Ha Hl].
  cbn [ProtoApp.tickArenas]. rewrite (tickArena_idle now user a s Ha), (IH s Hl).
  reflexivity.
Qed.

(** X20. A tick of the prototype resolves every arena that is active with its
    deadline passed and leaves the others as they are, so that none is due
    after it; it logs one activity entry for each arena it resolves; and a
    tick that finds nothing due changes nothing but the displayed time. *)
Theorem prototype_tick_resolves_all_due (now : Z) (c : ProtoApp.t) :
  ProtoApp.arenas (ptick now c) = map (afterTick now) (ProtoApp.arenas c)
  /\ Forall (fun a => due now a = false) (ProtoApp.arenas (ptick now c))
  /\ Prototype.logged (ProtoApp.core (ptick now c))
     = (Prototype.logged (ProtoApp.core c)
        + List.length (filter (due now) (ProtoApp.arenas c)))%nat
  /\ ProtoApp.currentTime (ptick now c) = now
  /\ (existsb (due now) (ProtoApp.arenas c) = false ->
      ProtoApp.arenas (ptick now c) = ProtoApp.arenas c
      /\ ProtoApp.core (ptick now c) = ProtoApp.core c).
Proof.
  split; [apply ptick_arenas|]. split.
  { rewrite ptick_arenas. apply Forall_map. apply Forall_forall. intros a _.
    unfold afterTick. destruct (due now a) eqn:E; [apply settled_not_due|exact E]. }
  split.
  { unfold ProtoApp.tick.
    pose proof (tickArenas_logged now (Prototype.currentUser (ProtoApp.core c))
                  (ProtoApp.arenas c) (ProtoApp.core c)) as H.
    destruct (tickArenas now _ _ _) as [l' s']. exact H. }
  split.
  { unfold ProtoApp.tick. destruct (tickArenas now _ _ _); reflexivity. }
  intro H. unfold ProtoApp.tick. rewrite tickArenas_idle by exact H. split; reflexivity.
Qed.

(** ** The arenas of the prototype across a session *)

Lemma evolves_backIn arenaId roastId amount a :
  evolves a (ProtoApp.backIn arenaId roastId amount a).
Proof.
  unfold ProtoApp.backIn. destruct (Js.strict_ne (Arena.id a) arenaId);
    [apply evolves_refl|].
  unfold evolves. cbn. auto.
Qed.

Lemma pstep_arenas c e :
  exists (pre : list Arena.t) (f : Arena.t -> Arena.t),
    ProtoApp.arenas (pstep c e) = (pre ++ map f (ProtoApp.arenas c))%list
    /\ (List.length pre <= 1)%nat
    /\ Forall (fun a => Arena.status a = active /\ Arena.roasts a = []
                        /\ Arena.winnerRoastId a = None) pre
    /\ forall a, evolves a (f a).
Proof.
  assert (Hsame : exists (pre : list Arena.t) (f : Arena.t -> Arena.t),
             ProtoApp.arenas c = (pre ++ map f (ProtoApp.arenas c))%list
             /\ (List.length pre <= 1)%nat
             /\ Forall (fun a => Arena.status a = active /\ Arena.roasts a = []
                                 /\ Arena.winnerRoastId a = None) pre
             /\ forall a, evolves a (f a)).
  { exists [], (fun a => a). rewrite map_id.
    split; [reflexivity|]. split; [cbn; lia|]. split; [constructor|].
    apply evolves_refl. }
  destruct e as [now|v|v|v|v|randomDigits|newId now|arenaId roastId|arenaId newId];
    cbn [ProtoApp.step]; try exact Hsame.
  - exists [], (afterTick now). rewrite ptick_arenas.
    split; [reflexivity|]. split; [cbn; lia|]. split; [constructor|].
    apply evolves_afterTick.
  - unfold ProtoApp.handleLogin.
    destruct (String.eqb (ProtoApp.authName c) "" || String.eqb (ProtoApp.authHandle c) "");
      exact Hsame.
  - unfold ProtoApp.handleCreateArena.
    destruct (Prototype.currentUser (ProtoApp.core c)) as [u|]; [|exact Hsame].
    destruct (String.eqb (trim (ProtoApp.newArenaText c)) ""); [exact Hsame|].
    destruct (App.lt (UserAccount.balance u) 0.05); [exact Hsame|].
    eexists [_], (fun a => a). rewrite map_id.
    split; [reflexivity|]. split; [cbn; lia|].
    split; [constructor; [repeat split|constructor]|].
    apply evolves_refl.
  - unfold ProtoApp.handleStakeOnRoast.
    destruct (Prototype.currentUser (ProtoApp.core c)) as [u|]; [|exact Hsame].
    destruct (App.lt (UserAccount.balance u) 0.05); [exact Hsame|].
    exists [], (ProtoApp.backIn arenaId roastId 0.05).
    split; [reflexivity|]. split; [cbn; lia|]. split; [constructor|].
    apply evolves_backIn.
  - unfold ProtoApp.handleSubmitRoast.
    destruct (Prototype.currentUser (ProtoApp.core c)) as [u|]; [|exact Hsame].
    destruct (String.eqb (trim (ProtoApp.newRoastText c)) ""); [exact Hsame|].
    destruct (App.lt (UserAccount.balance u) 0.01); [exact Hsame|].
    eexists [], (Server.submitTo arenaId _).
    split; [reflexivity|]. split; [cbn; lia|]. split; [constructor|].
    apply evolves_submitTo.
Qed.

(** X21. In the prototype, too, nothing removes an arena or reopens it: any
    session keeps every arena in its place counted from the back, with its
    id and its deadline, and an arena that is resolved stays resolved with
    the winner it has, whatever is staked or submitted afterwards. *)
Theorem prototype_arenas_stay (es : list ProtoApp.Event) (c : ProtoApp.t)
    (k : nat) (a : Arena.t) :
  nth_error (rev (ProtoApp.arenas c)) k = Some a ->
  exists a',
    nth_error (rev (ProtoApp.arenas (prun es c))) k = Some a'
    /\ Arena.id a' = Arena.id a
    /\ Arena.endTime a' = Arena.endTime a
    /\ (Arena.status a = resolved ->
        Arena.status a' = resolved
        /\ Arena.winnerRoastId a' = Arena.winnerRoastId a).
Proof.
  revert c a. induction es as [|e es IH]; intros c a H.
  - exists a. auto.
  - assert (H1 : exists a1, nth_error (rev (ProtoApp.arenas (pstep c e))) k = Some a1
                            /\ evolves a a1).
    { destruct (pstep_arenas c e) as (pre & f & -> & _ & _ & Hf).
      rewrite rev_app_distr, <- map_rev. exists (f a). split; [|apply Hf].
      rewrite nth_error_app1.
      - apply map_nth_error. exact H.
      - rewrite length_map. apply nth_error_Some. congruence. }
    destruct H1 as (a1 & H1 & E1).
    destruct (IH (pstep c e) a1 H1) as (a2 & H2 & Hi & He & Hr).
    exists a2. split; [exact H2|].
    destruct E1 as (Hi1 & He1 & Hr1).
    split; [congruence|]. split; [congruence|].
    intro Hs. destruct (Hr1 Hs) as [Hs1 Hw1]. destruct (Hr Hs1) as [Hs2 Hw2].
    split; congruence.
Qed.

End ProtoFacts.

(* ================================================================== *)
(** * The client settles as the prototype did *)
(* ================================================================== *)

(** X22. For an arena the tick has resolved, whose entries have distinct ids,
    the payout the client computes on the broadcast arena is the payout the
    prototype computed inside [resolveArena]: the same winner, the same
    pools, the same three terms.  The one exception is a winner whose id is
    the empty string, which the client's test [!arena.winnerRoastId] takes
    for no winner at all: the client then pays nothing. *)
Theorem client_settles_like_the_prototype (user : UserAccount.t) (arena : Arena.t)
    (first : RoastEntry.t) (rest : list RoastEntry.t) :
  Arena.roasts arena = first :: rest ->
  NoDup (map RoastEntry.id (first :: rest)) ->
  let w := Js.reduce pickWinner first rest in
  (RoastEntry.id w <> "" ->
   Client.payoutOf (Some user) (settled arena)
   = Some (Prototype.payoutOf user arena w))
  /\ (RoastEntry.id w = "" ->
      Client.payoutOf (Some user) (settled arena) = None).
Proof.
  intros Hr Hnd w.
  assert (Hs : settled arena = Arena.with_winner arena (RoastEntry.id w)).
  { unfold settled. rewrite Hr. reflexivity. }
  assert (Hin : In w (first :: rest))
    by apply firstMaximal_In, reduce_pickWinner_firstMaximal.
  split; intro Hid.
  - rewrite Hs. unfold Client.payoutOf.
    cbn [Arena.with_winner Arena.roasts Arena.winnerRoastId Arena.stake Arena.opId].
    rewrite Hr. cbn [List.length Nat.eqb orb Js.falsy].
    apply String.eqb_neq in Hid. rewrite Hid.
    pose proof (findRoast_NoDup (first :: rest) w Hin Hnd) as Hf.
    unfold findRoast in Hf. rewrite Hf.
    unfold Prototype.payoutOf. rewrite Hr. reflexivity.
  - rewrite Hs. unfold Client.payoutOf.
    cbn [Arena.with_winner Arena.roasts Arena.winnerRoastId].
    rewrite Hr, Hid. reflexivity.
Qed.

(* ================================================================== *)
(** * The countdown *)
(* ================================================================== *)

Lemma floor_minutes (diff : Z) :
  Clock.floor (inject_Z diff / 1000 / 60) = diff / 60000.
Proof.
  unfold Clock.floor. cbn -[Z.mul Z.div]. rewrite !Z.mul_1_r. reflexivity.
Qed.

Lemma floor_seconds (diff : Z) :
  0 <= diff ->
  Clock.floor (Clock.rem (inject_Z diff / 1000) 60) = (diff / 1000) mod 60.
Proof.
  intro H. unfold Clock.floor, Clock.rem, Clock.trunc.
  cbn -[Z.mul Z.div Z.quot Z.add Z.opp].
  rewrite !Z.mul_1_r. rewrite Z.quot_div_nonneg by lia.
  change (Z.pos (1000 * 1)) with 1000.
  replace (diff + - (60 * (diff / 60000)) * 1000)
    with (diff + (- (60 * (diff / 60000))) * 1000) by lia.
  rewrite Z.div_add by lia.
  replace (diff / 60000) with (diff / 1000 / 60)
    by (rewrite Z.div_div by lia; reflexivity).
  rewrite (Z.mod_eq (diff / 1000) 60) by lia. lia.
Qed.

(** X23. The countdown of an arena shows "00:00" from its deadline on, and
    so whenever the arena is due; before the deadline it shows the whole
    seconds that are left, split in minutes and seconds: the seconds are
    below 60, and 60 times the minutes plus the seconds are the milliseconds
    left divided by 1000, rounded down.  Each of the two numbers is padded to
    two characters. *)
Theorem countdown_shows_the_whole_seconds_left (intToString : Z -> string)
    (currentTime endTime : Z) :
  (endTime <= currentTime ->
   Clock.formatTimeInfo intToString currentTime endTime = "00:00")
  /\ (forall arena, due currentTime arena = true ->
        Clock.formatTimeInfo intToString currentTime (Arena.endTime arena) = "00:00")
  /\ (currentTime < endTime ->
      exists m s,
        Clock.formatTimeInfo intToString currentTime endTime
        = Clock.padStart2 (intToString m) ++ ":" ++ Clock.padStart2 (intToString s)
        /\ 0 <= m
        /\ 0 <= s < 60
        /\ m * 60 + s = (endTime - currentTime) / 1000
        /\ (2 <= String.length (Clock.padStart2 (intToString m)))%nat
        /\ (2 <= String.length (Clock.padStart2 (intToString s)))%nat).
Proof.
  assert (Hexp : forall e, e <= currentTime ->
                           Clock.formatTimeInfo intToString currentTime e = "00:00").
  { intros e H. unfold Clock.formatTimeInfo.
    assert (E : (e - currentTime <=? 0) = true) by (apply Z.leb_le; lia).
    rewrite E. reflexivity. }
  assert (Hpad : forall t, (2 <= String.length (Clock.padStart2 t))%nat).
  { intro t. unfold Clock.padStart2.
    destruct (String.length t) as [|[|n]] eqn:E.
    - cbn. lia.
    - cbn [append String.length]. rewrite E. lia.
    - rewrite E. lia. }
  split; [apply Hexp|]. split.
  - intros arena Hd. apply Hexp. apply due_iff in Hd. tauto.
  - intro H. unfold Clock.formatTimeInfo.
    assert (E : (endTime - currentTime <=? 0) = false) by (apply Z.leb_gt; lia).
    rewrite E. cbv zeta.
    rewrite floor_minutes, floor_seconds by lia.
    set (diff := endTime - currentTime).
    exists (diff / 60000), ((diff / 1000) mod 60).
    split; [reflexivity|].
    split; [apply Z.div_pos; lia|].
    split; [apply Z.mod_pos_bound; lia|].
    split.
    + replace (diff / 60000) with (diff / 1000 / 60)
        by (rewrite Z.div_div by lia; reflexivity).
      rewrite (Z.mod_eq (diff / 1000) 60) by lia. lia.
    + split; apply Hpad.
Qed.

(* ================================================================== *)
(** * The further properties at sample inputs *)
(* ================================================================== *)

Ltac distinct_ids :=
  repeat (apply NoDup_cons; [cbn; intuition discriminate|]); apply NoDup_nil.

Lemma arenas_are_never_removed_witness :
  List.length
    (Server.arenas
       (Server.run sampleRandom sampleNow sampleNumToString
          [Server.CreateArena mockData "a2" 5; Server.Tick 300000]
          (serverWith [mockArena 0 [r1]])))
  = 2%nat
  /\ exists a a',
       arenaAt 0 (serverWith [mockArena 0 [r1]]) = Some a
       /\ arenaAt 0 (Server.run sampleRandom sampleNow sampleNumToString
                       [Server.CreateArena mockData "a2" 5; Server.Tick 300000]
                       (serverWith [mockArena 0 [r1]])) = Some a'
       /\ Arena.id a' = Arena.id a.
Proof.
  destruct (arenas_are_never_removed sampleRandom sampleNow sampleNumToString
              [Server.CreateArena mockData "a2" 5; Server.Tick 300000]
              (serverWith [mockArena 0 [r1]])) as [H1 H2].
  split; [rewrite H1; reflexivity|].
  apply (H2 0%nat). cbn. lia.
Defined.

Lemma entries_are_append_only_witness :
  exists a' kept added,
    arenaAt 0 (Server.run sampleRandom sampleNow sampleNumToString
                 [Server.SubmitRoast "a1" r2;
                  Server.StakeRoast "a1" "r1" 0.05%Q "@bea"]
                 (serverWith [mockArena 0 [r1]])) = Some a'
    /\ Arena.roasts a' = (kept ++ added)%list
    /\ Forall2 sameButBacked [r1] kept.
Proof.
  destruct (entries_are_append_only sampleRandom sampleNow sampleNumToString
              [Server.SubmitRoast "a1" r2; Server.StakeRoast "a1" "r1" 0.05%Q "@bea"]
              (serverWith [mockArena 0 [r1]]) 0%nat (mockArena 0 [r1]))
    as (a' & kept & added & H1 & H2 & H3 & _); [reflexivity|].
  exists a', kept, added. auto.
Defined.

Lemma winner_is_always_an_entry_witness :
  Arena.status sampleResolved = resolved
  /\ exists r, findRoast "r2" (Arena.roasts sampleResolved) = Some r
               /\ In r (Arena.roasts sampleResolved)
               /\ RoastEntry.id r = "r2".
Proof.
  apply (winner_is_always_an_entry sampleRandom sampleNow sampleNumToString sampleRun).
  - repeat constructor.
  - left. reflexivity.
  - reflexivity.
Defined.

Lemma pool_accounting_witness :
  (arenaPool (Server.stakeIn "a1" "r1" 0.05 (mockArena 0 [r1; r2]))
   == arenaPool (mockArena 0 [r1; r2]) + 0.05)%Q.
Proof.
  destruct (pool_accounting "a1" (mockArena 0 [r1; r2])) as (_ & _ & H & _);
    [reflexivity|].
  apply H; [distinct_ids|left; reflexivity].
Defined.

Lemma server_arenas_pay_no_backer_share_witness :
  Forall (fun r => (RoastEntry.myBackedAmount r == 0)%Q) (Arena.roasts sampleResolved)
  /\ Client.processPayout (Some backer) sampleResolved (Some backer) = Some backer.
Proof.
  destruct (server_arenas_pay_no_backer_share sampleRandom sampleNow sampleNumToString
              sampleRun sampleResolved backer) as (H1 & _ & H3).
  - repeat constructor.
  - left. reflexivity.
  - split; [exact H1|]. apply H3; [|reflexivity].
    intros r [<-|[]]. reflexivity.
Defined.

Lemma pools_add_up_to_the_total_witness :
  (losingBackingPool [r1; r2] r1 + RoastEntry.backedStake r1 == totalBacked [r1; r2])%Q.
Proof.
  apply (pools_add_up_to_the_total [r1; r2] r1); [left; reflexivity|distinct_ids].
Defined.

Lemma settlement_only_credits_witness :
  Client.processPayout None sampleResolved (Some backer) = Some backer.
Proof.
  apply (proj1 (proj2 (proj2 (settlement_only_credits None sampleResolved backer)))).
  left. reflexivity.
Defined.

Lemma activity_feed_drops_repeats_witness :
  App.pushActivity (sampleLog "1") [sampleLog "2"; sampleLog "1"]
  = [sampleLog "2"; sampleLog "1"].
Proof.
  apply (proj1 (activity_feed_drops_repeats (sampleLog "1")
                  [sampleLog "2"; sampleLog "1"])).
  right. left. reflexivity.
Defined.

Lemma backlog_replay_reverses_the_feed_witness :
  App.activityFeed
    (App.run sampleTrim sampleToUpperCase
       (map App.ActivityUpdate [sampleLog "3"; sampleLog "2"; sampleLog "1"]) App.init)
  = [sampleLog "1"; sampleLog "2"; sampleLog "3"].
Proof.
  apply (backlog_replay_reverses_the_feed sampleTrim sampleToUpperCase
           [sampleLog "3"; sampleLog "2"; sampleLog "1"] App.init).
  - reflexivity.
  - distinct_ids.
  - cbn. lia.
Defined.

Lemma state_update_settles_once_witness :
  App.on_state_update [sampleResolved]
    (App.on_state_update [sampleResolved] App.init)
  = App.on_state_update [sampleResolved] App.init.
Proof.
  apply (state_update_settles_once [sampleResolved] App.init). distinct_ids.
Defined.

Lemma top_gladiator_is_the_winner_witness :
  hd_error (View.topGladiators [r2; r1; r2tied]) = Some r1.
Proof.
  rewrite (proj1 (top_gladiator_is_the_winner r2 [r1; r2tied])). reflexivity.
Defined.

Lemma live_and_perished_arenas_witness :
  View.liveArenas
    (Server.arenas (Server.tick sampleRandom sampleNow 300000
                      (serverWith [mockArena 300000 [r1]; mockArena 300001 []])))
  = [mockArena 300001 []].
Proof.
  destruct (live_and_perished_arenas sampleRandom sampleNow 300000
              (serverWith [mockArena 300000 [r1]; mockArena 300001 []]))
    as (_ & _ & H & _).
  cbv zeta in H. rewrite H. reflexivity.
Defined.


Lemma prototype_tick_resolves_all_due_witness :
  ProtoApp.arenas (ProtoApp.tick sampleRandom sampleNow 1 (ProtoApp.init 0 0))
  = ProtoApp.MOCK_ARENAS 0
  /\ ProtoApp.core (ProtoApp.tick sampleRandom sampleNow 1 (ProtoApp.init 0 0))
     = ProtoApp.core (ProtoApp.init 0 0).
Proof.
  apply (prototype_tick_resolves_all_due sampleRandom sampleNow 1 (ProtoApp.init 0 0)).
  reflexivity.
Defined.

Lemma prototype_arenas_stay_witness :
  exists a',
    nth_error
      (rev (ProtoApp.arenas
              (ProtoApp.run sampleRandom sampleNow sampleTrim sampleToUpperCase
                 (ProtoApp.Tick 300000 :: sampleSession) (ProtoApp.init 0 0)))) 0
    = Some a'
    /\ Arena.id a' = "a1"
    /\ Arena.endTime a' = 300000.
Proof.
  destruct (prototype_arenas_stay sampleRandom sampleNow sampleTrim sampleToUpperCase
              (ProtoApp.Tick 300000 :: sampleSession) (ProtoApp.init 0 0) 0%nat
              (hd sampleResolved (ProtoApp.MOCK_ARENAS 0)))
    as (a' & H1 & H2 & H3 & _); [reflexivity|].
  exists a'. auto.
Defined.

Lemma client_settles_like_the_prototype_witness :
  Client.payoutOf (Some backer) (settled (mockArena 0 [r1; r2]))
  = Some (Prototype.payoutOf backer (mockArena 0 [r1; r2]) r1).
Proof.
  apply (client_settles_like_the_prototype backer (mockArena 0 [r1; r2]) r1 [r2]).
  - reflexivity.
  - distinct_ids.
  - discriminate.
Defined.

Lemma countdown_shows_the_whole_seconds_left_witness :
  exists m s,
    Clock.formatTimeInfo sampleIntToString 0 61500 = "07:07"
    /\ m * 60 + s = 61 /\ 0 <= s < 60.
Proof.
  destruct (countdown_shows_the_whole_seconds_left sampleIntToString 0 61500)
    as (_ & _ & H).
  destruct H as (m & s & Hf & _ & Hs & Hms & _); [lia|].
  exists m, s. split; [reflexivity|]. split; [exact Hms|exact Hs].
Defined.
